(** * ClawCloud auto-login: a shallow embedding of [scripts/auto_login.py]

    The script drives a browser through a GitHub OAuth login, stores the
    session cookies and reports to Telegram.  Everything outside the script
    (the browser, the clock, the file system, the HTTP client) is kept
    abstract behind the [Browser] interface; the script itself is embedded
    as functions in a state-and-exception monad that follows Python's
    control flow ([try]/[except]/[finally], [sys.exit], early [return]). *)

From Stdlib Require Import ZArith List Bool Lia Ascii String.
From stdpp Require Import base strings gmap list.

Local Open Scope string_scope.

(** ** Python strings

    A [str] is modelled by its UTF-8 encoding.  The substring test [in] is
    byte-wise (UTF-8 is self-synchronising, so this is the code-point
    test), [len] and slicing count code points, and [lower] maps the ASCII
    capitals, which is all that can matter against the ASCII needles the
    script searches for in URLs. *)

Definition nl : string := String "010"%char EmptyString.
Definition dq : string := String "034"%char EmptyString.
Definition quoted (s : string) : string := dq +:+ s +:+ dq.

Fixpoint str_prefix (p s : string) : bool :=
  match p, s with
  | EmptyString, _ => true
  | String _ _, EmptyString => false
  | String a p', String b s' => if Ascii.eqb a b then str_prefix p' s' else false
  end.

(** [py_in needle hay] is Python's [needle in hay]. *)
Fixpoint py_in (needle hay : string) : bool :=
  str_prefix needle hay
  || match hay with
     | EmptyString => false
     | String _ hay' => py_in needle hay'
     end.

Definition lower_ascii (c : ascii) : ascii :=
  let n := nat_of_ascii c in
  if (65 <=? n)%nat && (n <=? 90)%nat then ascii_of_nat (n + 32) else c.

Fixpoint lower (s : string) : string :=
  match s with
  | EmptyString => EmptyString
  | String c s' => String (lower_ascii c) (lower s')
  end.

(** A byte starts a code point unless it is a continuation byte 10xxxxxx. *)
Definition is_lead (c : ascii) : bool :=
  let n := nat_of_ascii c in negb ((128 <=? n)%nat && (n <? 192)%nat).

Fixpoint py_len (s : string) : nat :=
  match s with
  | EmptyString => 0
  | String c s' => (if is_lead c then 1 else 0) + py_len s'
  end.

(** [py_take n s] is [s[:n]]: the first [n] code points. *)
Fixpoint py_take (n : nat) (s : string) : string :=
  match s with
  | EmptyString => EmptyString
  | String c s' =>
      if is_lead c then
        match n with
        | O => EmptyString
        | S n' => String c (py_take n' s')
        end
      else String c (py_take n s')
  end.

Fixpoint str_repeat (s : string) (n : nat) : string :=
  match n with
  | O => EmptyString
  | S n' => s +:+ str_repeat s n'
  end.

Definition digit (n : nat) : ascii := ascii_of_nat (48 + n).

Fixpoint dec_go (fuel n : nat) (acc : string) : string :=
  match fuel with
  | O => acc
  | S fuel' =>
      let acc' := String (digit (n mod 10)) acc in
      if (n / 10 =? 0)%nat then acc' else dec_go fuel' (n / 10) acc'
  end.

(** [str(n)] for a natural number. *)
Definition str_of_nat (n : nat) : string := dec_go (S n) n EmptyString.

(** The format [{n:02d}]. *)
Definition fmt_02d (n : nat) : string :=
  if (n <? 10)%nat then "0" +:+ str_of_nat n else str_of_nat n.

(** [f"{x}"] for a value read with [os.environ.get]. *)
Definition str_opt (o : option string) : string :=
  match o with
  | None => "None"
  | Some s => s
  end.

(** Truth value of an optional string: [None] and the empty string are false. *)
Definition truthy (o : option string) : bool :=
  match o with
  | None => false
  | Some EmptyString => false
  | Some _ => true
  end.

(** [l[-n:]] for [0 < n]. *)
Definition last_n {A : Type} (n : nat) (l : list A) : list A :=
  drop (length l - n) l.

(** ** Configuration (lines 15-16) *)

Definition CLAW_CLOUD_URL : string := "https://eu-central-1.run.claw.cloud".
Definition SIGNIN_URL : string := CLAW_CLOUD_URL +:+ "/signin".

(** ** Data *)

(** Python exceptions are kept by their [str(e)]. *)
Definition exn : Type := string.

(** Values of a cookie dictionary; a number is kept by its JSON literal. *)
Inductive JVal : Type :=
  | JStr (s : string)
  | JNum (literal : string)
  | JBool (b : bool)
  | JNull.

(** A cookie as [context.cookies()] returns it: a dict with string keys. *)
Abbreviation Cookie := (gmap string JVal).

(** [page.locator(sel)], with or without [.first]. *)
Record Locator : Type := mkLocator { loc_selector : string; loc_first : bool }.

Inductive Level : Type := INFO | SUCCESS | ERROR | WARN | STEP.

(** The process environment, as far as the script reads it. *)
Record Env : Type := mkEnv {
  GH_USERNAME : option string;
  GH_PASSWORD : option string;
  TG_BOT_TOKEN : option string;
  TG_CHAT_ID : option string
}.

Record TelegramNotifier : Type := mkTelegram {
  bot_token : option string;
  chat_id : option string;
  enabled : bool
}.

Record AutoLogin : Type := mkAutoLogin {
  username : option string;
  password : option string;
  screenshot_count : nat;
  screenshots : list string;
  telegram : TelegramNotifier;
  logs : list string
}.

(** Calls that leave the script, and the entries of the script's own methods
    that the properties below speak about. *)
Inductive Event : Type :=
  | EvLaunch
  | EvNewContext
  | EvNewPage
  | EvClose
  | EvGoto (url : string)
  | EvWaitLoad
  | EvScreenshot (path : string)
  | EvContent
  | EvTitle
  | EvCookies
  | EvIsVisible (l : Locator)
  | EvClick (l : Locator)
  | EvFill (l : Locator) (text : option string)
  | EvInnerText (l : Locator)
  | EvSleep (seconds : Z)
  | EvOpenRead (path : string)
  | EvPost (url : string) (data : list (string * string)) (file : option string)
  | EvDump (path : string) (cookies : list Cookie)
  | EvSendMessage (text : string)
  | EvSendPhoto (path caption : string)
  | EvNotify (success : bool) (error_msg : string)
  | EvWaitRedirect (max_wait : nat).

(** ** The world outside the script

    Every call may change the world and may raise.  [page_url] is the
    [page.url] property, which changes only during other calls; sleeping,
    and closing the browser in the [finally] suite, are taken not to
    raise. *)
Class Browser (W : Type) : Type := {
  chromium_launch : W → W * (exn + unit);
  browser_new_context : W → W * (exn + unit);
  context_new_page : W → W * (exn + unit);
  browser_close : W → W;
  page_url : W → string;
  page_goto : string → Z → W → W * (exn + unit);
  page_wait_for_load_state : string → Z → W → W * (exn + unit);
  page_screenshot : string → W → W * (exn + unit);
  page_content : W → W * (exn + string);
  page_title : W → W * (exn + string);
  locator_is_visible : Locator → Z → W → W * (exn + bool);
  locator_click : Locator → W → W * (exn + unit);
  locator_fill : Locator → option string → W → W * (exn + unit);
  locator_inner_text : Locator → W → W * (exn + string);
  context_cookies : W → W * (exn + list Cookie);
  time_sleep : Z → W → W;
  time_strftime : string → W → string;
  os_path_exists : string → W → bool;
  open_rb : string → W → W * (exn + unit);
  requests_post :
    string → list (string * string) → option string → Z → W → W * (exn + Z);
  json_dump_to : string → list Cookie → W → W * (exn + unit)
}.

(** ** The monad *)

Inductive Res (A : Type) : Type :=
  | Ok (a : A)
  | Raise (e : exn)
  | SysExit (code : Z).
Arguments Ok {A} a.
Arguments Raise {A} e.
Arguments SysExit {A} code.

(** The exit status of the process for the way [run] ends. *)
Definition exit_code (r : Res unit) : Z :=
  match r with
  | Ok _ => 0
  | Raise _ => 1
  | SysExit c => c
  end.

Record St (W : Type) : Type := mkSt {
  world : W;
  self : AutoLogin;
  trace : list Event;
  stdout : list string
}.
Arguments mkSt {W} world self trace stdout.
Arguments world {W} s.
Arguments self {W} s.
Arguments trace {W} s.
Arguments stdout {W} s.

Definition M (W A : Type) : Type := St W → Res A * St W.

Section Monad.
Context {W : Type}.

Definition ret {A} (a : A) : M W A := λ s, (Ok a, s).

Definition bind {A B} (m : M W A) (k : A → M W B) : M W B :=
  λ s, match m s with
       | (Ok a, s') => k a s'
       | (Raise e, s') => (Raise e, s')
       | (SysExit c, s') => (SysExit c, s')
       end.

(** [sys.exit(code)] raises [SystemExit]. *)
Definition sys_exit {A} (code : Z) : M W A := λ s, (SysExit code, s).

(** [try: m  except Exception as e: h e]; [SystemExit] passes through. *)
Definition try_except {A} (m : M W A) (h : exn → M W A) : M W A :=
  λ s, match m s with
       | (Raise e, s') => h e s'
       | r => r
       end.

(** [try: m  except: h], the bare form, which catches everything. *)
Definition try_bare {A} (m : M W A) (h : M W A) : M W A :=
  λ s, match m s with
       | (Ok a, s') => (Ok a, s')
       | (_, s') => h s'
       end.

(** [try: m  finally: fin]. *)
Definition try_finally {A} (m : M W A) (fin : M W unit) : M W A :=
  λ s, match m s with
       | (r, s') =>
           match fin s' with
           | (Ok _, s'') => (r, s'')
           | (Raise e, s'') => (Raise e, s'')
           | (SysExit c, s'') => (SysExit c, s'')
           end
       end.

(** [if c: m] with no [else]. *)
Definition when_ (c : bool) (m : M W unit) : M W unit :=
  if c then m else ret tt.

(** A [for] loop whose body may [return]: [Some r] leaves the loop with
    [r], [None] goes to the next element. *)
Fixpoint for_each {X A} (xs : list X) (body : X → M W (option A))
    : M W (option A) :=
  match xs with
  | [] => ret None
  | x :: xs' =>
      bind (body x) (λ r,
        match r with
        | Some a => ret (Some a)
        | None => for_each xs' body
        end)
  end.

Definition get_self : M W AutoLogin := λ s, (Ok (self s), s).
Definition get_world : M W W := λ s, (Ok (world s), s).

Definition set_self (a : AutoLogin) : M W unit :=
  λ s, (Ok tt, mkSt (world s) a (trace s) (stdout s)).

Definition emit (ev : Event) : M W unit :=
  λ s, (Ok tt, mkSt (world s) (self s) (trace s ++ [ev]) (stdout s)).

Definition print (line : string) : M W unit :=
  λ s, (Ok tt, mkSt (world s) (self s) (trace s) (stdout s ++ [line])).

(** A call into the world that may raise. *)
Definition call {A} (ev : Event) (f : W → W * (exn + A)) : M W A :=
  λ s, match f (world s) with
       | (w', r) =>
           (match r with inl e => Raise e | inr a => Ok a end,
            mkSt w' (self s) (trace s ++ [ev]) (stdout s))
       end.

(** A call into the world that cannot raise. *)
Definition call_total (ev : Event) (f : W → W) : M W unit :=
  λ s, (Ok tt, mkSt (f (world s)) (self s) (trace s ++ [ev]) (stdout s)).
End Monad.

Declare Scope py_scope.
Delimit Scope py_scope with py.
Notation "x <- m ;; k" := (bind m (λ x, k))
  (at level 100, m at next level, right associativity) : py_scope.
Notation "m ;; k" := (bind m (λ _, k))
  (at level 100, right associativity) : py_scope.
Local Open Scope py_scope.

(** ** The script *)

Section Script.
Context {W : Type} `{Browser W}.

Definition with_logs (a : AutoLogin) (l : list string) : AutoLogin :=
  mkAutoLogin (username a) (password a) (screenshot_count a)
              (screenshots a) (telegram a) l.

Definition with_count (a : AutoLogin) (n : nat) : AutoLogin :=
  mkAutoLogin (username a) (password a) n (screenshots a) (telegram a)
              (logs a).

Definition with_screenshots (a : AutoLogin) (l : list string) : AutoLogin :=
  mkAutoLogin (username a) (password a) (screenshot_count a) l
              (telegram a) (logs a).

(** *** TelegramNotifier (lines 19-62) *)

Definition TelegramNotifier_init (env : Env) : TelegramNotifier :=
  mkTelegram (TG_BOT_TOKEN env) (TG_CHAT_ID env)
             (truthy (TG_BOT_TOKEN env) && truthy (TG_CHAT_ID env)).

Definition send_message (message : string) : M W bool :=
  emit (EvSendMessage message);;
  a <- get_self;;
  let t := telegram a in
  if negb (enabled t) then ret false
  else
    try_except
      (let url := "https://api.telegram.org/bot" +:+ str_opt (bot_token t)
                  +:+ "/sendMessage" in
       let data := [("chat_id", str_opt (chat_id t)); ("text", message);
                    ("parse_mode", "HTML")] in
       code <- call (EvPost url data None) (requests_post url data None 30);;
       ret (code =? 200)%Z)
      (λ e, print ("发送消息失败: " +:+ e);; ret false).

Definition send_photo (photo_path caption : string) : M W bool :=
  emit (EvSendPhoto photo_path caption);;
  a <- get_self;;
  w <- get_world;;
  let t := telegram a in
  if negb (enabled t) || negb (os_path_exists photo_path w) then ret false
  else
    try_except
      (let url := "https://api.telegram.org/bot" +:+ str_opt (bot_token t)
                  +:+ "/sendPhoto" in
       call (EvOpenRead photo_path) (open_rb photo_path);;
       let data := [("chat_id", str_opt (chat_id t));
                    ("caption", py_take 1024 caption)] in
       code <- call (EvPost url data (Some photo_path))
                    (requests_post url data (Some photo_path) 60);;
       ret (code =? 200)%Z)
      (λ e, print ("发送图片失败: " +:+ e);; ret false).

(** *** AutoLogin (lines 65-355) *)

Definition AutoLogin_init (env : Env) : AutoLogin :=
  mkAutoLogin (GH_USERNAME env) (GH_PASSWORD env) 0 []
              (TelegramNotifier_init env) [].

Definition icon (level : Level) : string :=
  match level with
  | INFO => "ℹ️"
  | SUCCESS => "✅"
  | ERROR => "❌"
  | WARN => "⚠️"
  | STEP => "🔹"
  end.

Definition log (message : string) (level : Level) : M W unit :=
  let log_line := icon level +:+ " " +:+ message in
  print log_line;;
  a <- get_self;;
  set_self (with_logs a (logs a ++ [log_line])).

Definition screenshot (name : string) : M W string :=
  a <- get_self;;
  set_self (with_count a (screenshot_count a + 1));;
  a <- get_self;;
  let filename := fmt_02d (screenshot_count a) +:+ "_" +:+ name +:+ ".png" in
  call (EvScreenshot filename) (page_screenshot filename);;
  a <- get_self;;
  set_self (with_screenshots a (screenshots a ++ [filename]));;
  log ("截图: " +:+ filename) INFO;;
  ret filename.

Definition validate_credentials : M W bool :=
  a <- get_self;;
  if negb (truthy (username a)) then
    log "错误：未设置 GH_USERNAME" ERROR;; ret false
  else if negb (truthy (password a)) then
    log "错误：未设置 GH_PASSWORD" ERROR;; ret false
  else
    log ("用户名: " +:+ str_opt (username a)) INFO;;
    log ("密码: " +:+ str_repeat "*" (py_len (str_opt (password a)))) INFO;;
    ret true.

(** One turn of the loop of [find_and_click] (lines 113-120). *)
Definition try_selector (description selector : string) : M W (option bool) :=
  try_bare
    (let element := mkLocator selector true in
     visible <- call (EvIsVisible element) (locator_is_visible element 3000);;
     if visible then
       call (EvClick element) (locator_click element);;
       log ("已点击: " +:+ description) SUCCESS;;
       ret (Some true)
     else ret None)
    (ret None).

Definition find_and_click (selectors : list string) (description : string)
    : M W bool :=
  r <- for_each selectors (try_selector description);;
  ret (match r with Some b => b | None => false end).

Definition flash_error : Locator :=
  mkLocator ".flash-error, .flash.flash-error" true.

Definition check_github_error : M W (option string) :=
  try_bare
    (visible <- call (EvIsVisible flash_error)
                     (locator_is_visible flash_error 2000);;
     if visible then
       text <- call (EvInnerText flash_error) (locator_inner_text flash_error);;
       ret (Some text)
     else ret None)
    (ret None).

Definition device_keywords : list string :=
  ["verify your device"; "device verification"; "check your email";
   "verification code"].

Definition check_device_verification : M W bool :=
  w <- get_world;;
  let url := lower (page_url w) in
  if py_in "verified-device" url || py_in "device-verification" url then
    ret true
  else
    c <- call EvContent page_content;;
    let content := lower c in
    ret (existsb (λ kw, py_in kw content) device_keywords).

Definition otp_input : Locator :=
  mkLocator ("input[name=" +:+ quoted "otp" +:+ "], input[name="
             +:+ quoted "app_otp" +:+ "]") false.

Definition check_2fa : M W bool :=
  w <- get_world;;
  if py_in "two-factor" (page_url w) then ret true
  else
    try_bare (call (EvIsVisible otp_input) (locator_is_visible otp_input 2000))
             (ret false).

Definition login_input : Locator :=
  mkLocator ("input[name=" +:+ quoted "login" +:+ "]") false.
Definition password_input : Locator :=
  mkLocator ("input[name=" +:+ quoted "password" +:+ "]") false.
Definition submit_button : Locator :=
  mkLocator ("input[type=" +:+ quoted "submit" +:+ "], button[type="
             +:+ quoted "submit" +:+ "]") true.

(** The test of lines 213, 254 and 420. *)
Definition on_github_login (url : string) : bool :=
  py_in "github.com/login" url || py_in "github.com/session" url.

(** Lines 191-223 of [login_github]: the page after the form was sent. *)
Definition login_github_classify (current_url : string) : M W bool :=
  error <- check_github_error;;
  if truthy error then
    log ("GitHub 错误: " +:+ str_opt error) ERROR;; ret false
  else
    device <- check_device_verification;;
    if device then
      log "需要设备验证！" ERROR;;
      log "GitHub 检测到新设备，已发送验证邮件" WARN;;
      log "请先手动登录一次完成验证" WARN;;
      screenshot "设备验证";;
      ret false
    else
      twofa <- check_2fa;;
      if twofa then
        log "需要两步验证！" ERROR;;
        log "此脚本无法自动处理 2FA" WARN;;
        screenshot "两步验证";;
        ret false
      else if on_github_login current_url then
        content <- call EvContent page_content;;
        if py_in "Incorrect username or password" content then
          log "用户名或密码错误！" ERROR;; ret false
        else if py_in "too many" (lower content) then
          log "登录次数过多，已被限制" ERROR;; ret false
        else
          log "仍在登录页面，继续等待..." WARN;; ret true
      else ret true.

(** Lines 154-189 of [login_github]: fill in the form and send it.  The
    result is [None] where the source returns [False], and the URL kept
    in [current_url] otherwise. *)
Definition login_github_submit : M W (option string) :=
  log "正在登录 GitHub..." STEP;;
  screenshot "github_登录页";;
  a <- get_self;;
  filled <- try_except
    (call (EvFill login_input (username a))
          (locator_fill login_input (username a));;
     log "已输入用户名" INFO;; ret true)
    (λ e, log ("输入用户名失败: " +:+ e) ERROR;; ret false);;
  if negb filled then ret None
  else
    filled <- try_except
      (call (EvFill password_input (password a))
            (locator_fill password_input (password a));;
       log "已输入密码" INFO;; ret true)
      (λ e, log ("输入密码失败: " +:+ e) ERROR;; ret false);;
    if negb filled then ret None
    else
      screenshot "github_已填写";;
      clicked <- try_except
        (call (EvClick submit_button) (locator_click submit_button);;
         log "已点击登录按钮" INFO;; ret true)
        (λ e, log ("点击登录失败: " +:+ e) ERROR;; ret false);;
      if negb clicked then ret None
      else
        call_total (EvSleep 3) (time_sleep 3);;
        call EvWaitLoad (page_wait_for_load_state "networkidle" 30000);;
        screenshot "github_登录后";;
        w <- get_world;;
        let current_url := page_url w in
        log ("当前页面: " +:+ current_url) INFO;;
        ret (Some current_url).

Definition login_github : M W bool :=
  submitted <- login_github_submit;;
  match submitted with
  | None => ret false
  | Some current_url => login_github_classify current_url
  end.

Definition oauth_selectors : list string :=
  ["button[name=" +:+ quoted "authorize" +:+ "]";
   "button:has-text(" +:+ quoted "Authorize" +:+ ")";
   "#js-oauth-authorize-btn"].

Definition handle_oauth : M W bool :=
  w <- get_world;;
  when_ (py_in "github.com/login/oauth/authorize" (page_url w))
    (log "处理 OAuth 授权..." STEP;;
     screenshot "oauth_授权页";;
     find_and_click oauth_selectors "授权按钮";;
     call_total (EvSleep 3) (time_sleep 3);;
     call EvWaitLoad (page_wait_for_load_state "networkidle" 30000));;
  ret true.

(** The success test of line 249 (and of lines 275-281). *)
Definition on_claw_cloud (url : string) : bool :=
  py_in "claw.cloud" url && negb (py_in "signin" (lower url)).

(** Lines 258-264: what an iteration does when it does not return. *)
Definition wait_redirect_continue (i : nat) (current_url : string)
    : M W unit :=
  when_ (py_in "github.com/login/oauth/authorize" current_url)
    (handle_oauth;; ret tt);;
  call_total (EvSleep 1) (time_sleep 1);;
  when_ (i mod 10 =? 0)%nat
    (log ("  等待中... (" +:+ str_of_nat i +:+ "秒)") INFO).

(** Lines 246-264: the body of the loop, for the index [i]. *)
Definition wait_redirect_body (i : nat) : M W (option bool) :=
  w <- get_world;;
  let current_url := page_url w in
  if on_claw_cloud current_url then
    log "成功重定向到 ClawCloud！" SUCCESS;; ret (Some true)
  else if (15 <? i)%nat && on_github_login current_url then
    log "卡在 GitHub 页面" ERROR;; ret (Some false)
  else
    wait_redirect_continue i current_url;; ret None.

Definition wait_redirect (max_wait : nat) : M W bool :=
  emit (EvWaitRedirect max_wait);;
  log ("等待重定向（最多 " +:+ str_of_nat max_wait +:+ " 秒）...") STEP;;
  r <- for_each (seq 0 max_wait) wait_redirect_body;;
  match r with
  | Some b => ret b
  | None => log "重定向超时" ERROR;; ret false
  end.

(** ['claw' in c.get('domain', '')]; the test raises [TypeError] on a
    value that is not a string (the message depends on the interpreter). *)
Definition type_error : exn := "TypeError".

Definition claw_in_domain (c : Cookie) : exn + bool :=
  match c !! "domain" with
  | None => inr (py_in "claw" "")
  | Some (JStr d) => inr (py_in "claw" d)
  | Some _ => inl type_error
  end.

(** The list comprehension of line 285. *)
Fixpoint claw_filter (cookies : list Cookie) : exn + list Cookie :=
  match cookies with
  | [] => inr []
  | c :: cs =>
      match claw_in_domain c with
      | inl e => inl e
      | inr keep =>
          match claw_filter cs with
          | inl e => inl e
          | inr rest => inr (if keep then c :: rest else rest)
          end
      end
  end.

Definition lift {A} (r : exn + A) : M W A :=
  λ s, (match r with inl e => Raise e | inr a => Ok a end, s).

Definition verify_login : M W bool :=
  w <- get_world;;
  let current_url := page_url w in
  log ("最终页面: " +:+ current_url) INFO;;
  title <- call EvTitle page_title;;
  log ("页面标题: " +:+ title) INFO;;
  if negb (py_in "claw.cloud" current_url) then
    log "不在 ClawCloud！" ERROR;; ret false
  else if py_in "signin" (lower current_url) then
    log "仍在登录页！" ERROR;; ret false
  else
    cookies <- call EvCookies context_cookies;;
    claw_cookies <- lift (claw_filter cookies);;
    match claw_cookies with
    | [] => log "未获取到 cookies！" ERROR;; ret false
    | _ :: _ =>
        log ("获取到 " +:+ str_of_nat (length claw_cookies) +:+ " 个 cookies")
            SUCCESS;;
        call (EvDump "cookies.json" claw_cookies)
             (json_dump_to "cookies.json" claw_cookies);;
        ret true
    end.

Definition keepalive_pages : list (string * string) :=
  [(CLAW_CLOUD_URL +:+ "/", "控制台"); (CLAW_CLOUD_URL +:+ "/apps", "应用")].

(** One turn of the loop of [keepalive] (lines 308-319). *)
Definition keepalive_visit (p : string * string) : M W (option bool) :=
  let '(url, name) := p in
  try_except
    (call (EvGoto url) (page_goto url 30000);;
     call EvWaitLoad (page_wait_for_load_state "networkidle" 15000);;
     w <- get_world;;
     if py_in "signin" (lower (page_url w)) then
       log ("访问 " +:+ name +:+ " 被重定向到登录页！") ERROR;;
       ret (Some false)
     else
       log ("已访问: " +:+ name) SUCCESS;;
       call_total (EvSleep 2) (time_sleep 2);;
       ret None)
    (λ e, log ("访问 " +:+ name +:+ " 失败: " +:+ e) WARN;; ret None).

Definition keepalive : M W bool :=
  log "访问页面保持活跃..." STEP;;
  r <- for_each keepalive_pages keepalive_visit;;
  match r with
  | Some b => ret b
  | None => screenshot "保活完成";; ret true
  end.

(** Lines 329-338: the message before the log lines are added. *)
Definition notification_head (a : AutoLogin) (now : string)
    (success : bool) (error_msg : string) : string :=
  let status := if success then "✅ 成功" else "❌ 失败" in
  let message :=
    "<b>🤖 ClawCloud 自动登录</b>" +:+ nl +:+ nl
    +:+ "<b>状态:</b> " +:+ status +:+ nl
    +:+ "<b>用户:</b> " +:+ str_opt (username a) +:+ nl
    +:+ "<b>时间:</b> " +:+ now in
  match error_msg with
  | EmptyString => message
  | _ => message +:+ nl +:+ "<b>错误:</b> " +:+ error_msg
  end.

(** Lines 340-343. *)
Definition notification_text (a : AutoLogin) (now : string)
    (success : bool) (error_msg : string) : string :=
  let message := notification_head a now success error_msg in
  let recent := last_n 8 (logs a) in
  match recent with
  | [] => message
  | _ :: _ =>
      message +:+ nl +:+ nl +:+ "<b>日志:</b>" +:+ nl +:+ String.concat nl recent
  end.

Fixpoint send_photos (paths : list string) : M W unit :=
  match paths with
  | [] => ret tt
  | ss :: rest => send_photo ss ss;; send_photos rest
  end.

Definition send_notification (success : bool) (error_msg : string)
    : M W unit :=
  emit (EvNotify success error_msg);;
  a <- get_self;;
  if negb (enabled (telegram a)) then ret tt
  else
    w <- get_world;;
    let message :=
      notification_text a (time_strftime "%Y-%m-%d %H:%M:%S" w) success
                        error_msg in
    send_message message;;
    match screenshots a with
    | [] => ret tt
    | first :: others =>
        if negb success then send_photos (screenshots a)
        else send_photo (List.last others first) "最终截图";; ret tt
    end.

(** *** The main flow (lines 357-466) *)

Definition github_selectors : list string :=
  ["button:has-text(" +:+ quoted "GitHub" +:+ ")";
   "a:has-text(" +:+ quoted "GitHub" +:+ ")";
   "button:has-text(" +:+ quoted "Continue with GitHub" +:+ ")";
   "[data-provider=" +:+ quoted "github" +:+ "]"].

(** Lines 381-386. *)
Definition run_step1 : M W unit :=
  log "步骤1: 打开 ClawCloud" STEP;;
  call (EvGoto SIGNIN_URL) (page_goto SIGNIN_URL 60000);;
  call EvWaitLoad (page_wait_for_load_state "networkidle" 30000);;
  call_total (EvSleep 2) (time_sleep 2);;
  screenshot "clawcloud_首页";;
  ret tt.

(** Lines 388-395; the result tells whether [run] returned here. *)
Definition run_already_logged_in : M W bool :=
  w <- get_world;;
  if negb (py_in "signin" (lower (page_url w))) then
    log "已经登录！" SUCCESS;;
    verified <- verify_login;;
    if verified then
      keepalive;;
      send_notification true "";;
      print (nl +:+ "✅ 成功！" +:+ nl);;
      ret true
    else ret false
  else ret false.

(** Lines 397-415. *)
Definition run_step2 : M W unit :=
  log "步骤2: 点击 GitHub 登录" STEP;;
  clicked <- find_and_click github_selectors "GitHub 按钮";;
  when_ (negb clicked)
    (log "找不到 GitHub 按钮" ERROR;;
     screenshot "找不到按钮";;
     send_notification false "找不到 GitHub 登录按钮";;
     sys_exit 1);;
  call_total (EvSleep 3) (time_sleep 3);;
  call EvWaitLoad (page_wait_for_load_state "networkidle" 30000);;
  screenshot "点击后";;
  ret tt.

(** Lines 417-425. *)
Definition run_step3 : M W unit :=
  log "步骤3: GitHub 登录" STEP;;
  w <- get_world;;
  when_ (on_github_login (page_url w))
    (logged_in <- login_github;;
     when_ (negb logged_in)
       (screenshot "登录失败";;
        send_notification false "GitHub 登录失败";;
        print (nl +:+ "❌ GitHub 登录失败！" +:+ nl);;
        sys_exit 1)).

(** Lines 427-436. *)
Definition run_step4 : M W unit :=
  log "步骤4: 等待重定向" STEP;;
  redirected <- wait_redirect 45;;
  when_ (negb redirected)
    (screenshot "重定向失败";;
     send_notification false "重定向失败";;
     print (nl +:+ "❌ 重定向失败！" +:+ nl);;
     sys_exit 1);;
  screenshot "重定向成功";;
  ret tt.

(** Lines 438-445. *)
Definition run_step5 : M W unit :=
  log "步骤5: 验证登录" STEP;;
  verified <- verify_login;;
  when_ (negb verified)
    (screenshot "验证失败";;
     send_notification false "验证失败";;
     print (nl +:+ "❌ 验证失败！" +:+ nl);;
     sys_exit 1).

(** Lines 447-455. *)
Definition run_step6 : M W unit :=
  log "步骤6: 保活" STEP;;
  keepalive;;
  send_notification true "";;
  print (nl +:+ str_repeat "=" 50);;
  print "✅ 自动登录成功！";;
  print (str_repeat "=" 50 +:+ nl).

Definition run_from_step4 : M W unit := run_step4;; run_step5;; run_step6.
Definition run_from_step3 : M W unit := run_step3;; run_from_step4.

(** The [try] suite, lines 381-455. *)
Definition run_try : M W unit :=
  run_step1;;
  returned <- run_already_logged_in;;
  if returned then ret tt else run_step2;; run_from_step3.

(** The [except Exception] suite, lines 457-463; [traceback.print_exc]
    writes to the standard error stream, which is not modelled. *)
Definition run_except (e : exn) : M W unit :=
  log ("异常: " +:+ e) ERROR;;
  screenshot "异常";;
  send_notification false e;;
  sys_exit 1.

(** [try: body  except Exception as e: ...  finally: browser.close()]. *)
Definition run_guarded (body : M W unit) : M W unit :=
  try_finally (try_except body run_except) (call_total EvClose browser_close).

(** Lines 359-378: the header, the check of the credentials and the start
    of the browser.  The context manager [sync_playwright] of line 367 has
    no event of its own; the launch of the browser is the start of the
    session. *)
Definition run_setup : M W unit :=
  print (nl +:+ str_repeat "=" 50);;
  print "🚀 ClawCloud 自动登录";;
  print (str_repeat "=" 50 +:+ nl);;
  valid <- validate_credentials;;
  when_ (negb valid)
    (send_notification false "凭据未配置";; sys_exit 1);;
  call EvLaunch chromium_launch;;
  call EvNewContext browser_new_context;;
  call EvNewPage context_new_page.

Definition run : M W unit := run_setup;; run_guarded run_try.

(** Lines 469-471: [AutoLogin()] and then [run()]. *)
Definition init_state (env : Env) (w : W) : St W :=
  let login := AutoLogin_init env in
  mkSt w login []
       (if enabled (telegram login) then [] else ["⚠️ Telegram 通知未配置"]).

Definition main (env : Env) (w : W) : Res unit * St W :=
  run (init_state env w).
End Script.

(** ** Notions the properties are stated with *)

(** Events of a notification: the entry of [send_notification], the calls of
    the notifier and what these do outside the script. *)
Definition is_notification (e : Event) : bool :=
  match e with
  | EvNotify _ _ | EvSendMessage _ | EvSendPhoto _ _ | EvOpenRead _
  | EvPost _ _ _ => true
  | _ => false
  end.

(** Events that leave the page alone: screenshots, notifications and the
    closing of the browser. *)
Definition is_passive (e : Event) : bool :=
  is_notification e
  || match e with
     | EvScreenshot _ | EvClose => true
     | _ => false
     end.

Definition is_wait_redirect (e : Event) : bool :=
  match e with
  | EvWaitRedirect _ => true
  | _ => false
  end.

Definition not_wait_redirect (e : Event) : bool := negb (is_wait_redirect e).

Definition is_launch (e : Event) : bool :=
  match e with
  | EvLaunch => true
  | _ => false
  end.

(** The [time.sleep(1)] that ends an iteration of the redirect-wait loop. *)
Definition is_poll_sleep (e : Event) : bool :=
  match e with
  | EvSleep n => (n =? 1)%Z
  | _ => false
  end.

Definition any_event (e : Event) : bool := true.

(** Iterations of the redirect-wait loop that ran to their end. *)
Definition polls (evs : list Event) : nat :=
  length (List.filter is_poll_sleep evs).

(** The photos handed to [send_photo], in order. *)
Fixpoint photos_sent (evs : list Event) : list (string * string) :=
  match evs with
  | [] => []
  | EvSendPhoto path caption :: rest => (path, caption) :: photos_sent rest
  | _ :: rest => photos_sent rest
  end.

(** The texts handed to [send_message], in order. *)
Fixpoint messages_sent (evs : list Event) : list string :=
  match evs with
  | [] => []
  | EvSendMessage text :: rest => text :: messages_sent rest
  | _ :: rest => messages_sent rest
  end.

(** ['claw' in c.get('domain', '')] where it does not raise. *)
Definition has_claw (c : Cookie) : bool :=
  match c !! "domain" with
  | Some (JStr d) => py_in "claw" d
  | _ => false
  end.

(** The domain of a cookie is a string when the key is there, as the
    TypedDict of the browser library has it. *)
Definition domain_is_str (c : Cookie) : Prop :=
  ∀ v, c !! "domain" = Some v → ∃ d, v = JStr d.

Fixpoint str_suffix (suffix s : string) : bool :=
  String.eqb suffix s
  || match s with
     | EmptyString => false
     | String _ s' => str_suffix suffix s'
     end.

(** The filter in the words of the specification: a cookie is scoped to
    the target domain when its domain is [claw.cloud], with or without the
    leading dot, or a subdomain of it. *)
Definition spec_scoped_to_target (c : Cookie) : bool :=
  match c !! "domain" with
  | Some (JStr d) => String.eqb d "claw.cloud" || str_suffix ".claw.cloud" d
  | _ => false
  end.

Section Notions.
Context {W : Type} `{Browser W}.

(** The state in which [wait_redirect] starts its loop. *)
Definition wait_redirect_entry (max_wait : nat) (s : St W) : St W :=
  snd ((emit (EvWaitRedirect max_wait);;
        log ("等待重定向（最多 " +:+ str_of_nat max_wait +:+ " 秒）...") STEP) s).

(** [poll_from i n s]: the state after [n] iterations, the first with
    index [i] and started in [s], none of which returned or raised. *)
Fixpoint poll_from (i n : nat) (s : St W) : option (St W) :=
  match n with
  | O => Some s
  | S n' =>
      match wait_redirect_continue i (page_url (world s)) s with
      | (Ok _, s1) => poll_from (S i) n' s1
      | _ => None
      end
  end.

(** The URL that iteration [i] of [wait_redirect max_wait] reads when the
    iterations before it went on to the next one. *)
Definition url_seen (max_wait i : nat) (s : St W) : option string :=
  match poll_from 0 i (wait_redirect_entry max_wait s) with
  | Some si => Some (page_url (world si))
  | None => None
  end.

(** Neither test of an iteration with index [i] fires on [url]. *)
Definition goes_on (i : nat) (url : string) : bool :=
  negb (on_claw_cloud url) && negb ((15 <? i)%nat && on_github_login url).

(** [tried w sels w']: in the world [w] every candidate of [sels] fails in
    turn (it is not visible, or asking or clicking raises), which leaves
    the world [w']. *)
Inductive tried : W → list string → W → Prop :=
  | tried_nil w : tried w [] w
  | tried_hidden w sel sels w1 w2 :
      locator_is_visible (mkLocator sel true) 3000 w = (w1, inr false) →
      tried w1 sels w2 →
      tried w (sel :: sels) w2
  | tried_visible_raises w sel sels w1 w2 e :
      locator_is_visible (mkLocator sel true) 3000 w = (w1, inl e) →
      tried w1 sels w2 →
      tried w (sel :: sels) w2
  | tried_click_raises w sel sels w1 w2 w3 e :
      locator_is_visible (mkLocator sel true) 3000 w = (w1, inr true) →
      locator_click (mkLocator sel true) w1 = (w2, inl e) →
      tried w2 sels w3 →
      tried w (sel :: sels) w3.

(** [clicked w sels sel w']: [sel] is the first candidate of [sels] that is
    visible and takes the click, which leaves the world [w']. *)
Definition clicked (w : W) (sels : list string) (sel : string) (w' : W)
    : Prop :=
  ∃ (before after : list string) (w1 w2 : W),
    sels = (before ++ sel :: after)%list
    ∧ tried w before w1
    ∧ locator_is_visible (mkLocator sel true) 3000 w1 = (w2, inr true)
    ∧ locator_click (mkLocator sel true) w2 = (w', inr tt).

(** [emits P m]: whatever [m] does, it only adds events to the trace, and
    each of them satisfies [P]. *)
Definition emits {A} (P : Event → bool) (m : M W A) : Prop :=
  ∀ s r s', m s = (r, s') →
    ∃ evs, trace s' = (trace s ++ evs)%list ∧ forallb P evs = true.

(** [total m]: [m] returns a value from every state; it neither raises
    nor leaves the process. *)
Definition total {A} (m : M W A) : Prop :=
  ∀ s, ∃ a s', m s = (Ok a, s').

(** The ways in which the [try] suite of [run] can end that make the
    process end with a status other than 0. *)
Definition failed (r : Res unit) : Prop :=
  match r with
  | Ok _ => False
  | Raise _ => True
  | SysExit code => code ≠ 0%Z
  end.
End Notions.

(** ** A simulated browser

    The page shows [sim_url]; every [time.sleep] moves it to the next URL
    of [sim_later]; [page.goto] lands on [sim_goto] when that is set and on
    the requested URL otherwise.  Notifications are accepted and files can
    be written. *)

Record Sim : Type := mkSim {
  sim_url : string;
  sim_later : list string;
  sim_goto : option string;
  sim_visible : list string;
  sim_unclickable : list string;
  sim_flash : string;
  sim_content : string;
  sim_cookies : list Cookie
}.

Definition sim_mem (x : string) (l : list string) : bool :=
  existsb (String.eqb x) l.

Definition sim_move (url : string) (later : list string) (w : Sim) : Sim :=
  mkSim url later (sim_goto w) (sim_visible w) (sim_unclickable w)
        (sim_flash w) (sim_content w) (sim_cookies w).

Definition sim_sleep (w : Sim) : Sim :=
  match sim_later w with
  | [] => w
  | url :: later => sim_move url later w
  end.

Definition sim_click (l : Locator) (w : Sim) : Sim * (exn + unit) :=
  if sim_mem (loc_selector l) (sim_unclickable w)
  then (w, inl "Timeout 30000ms exceeded.")
  else (w, inr tt).

#[global] Instance sim_browser : Browser Sim := {|
  chromium_launch w := (w, inr tt);
  browser_new_context w := (w, inr tt);
  context_new_page w := (w, inr tt);
  browser_close w := w;
  page_url := sim_url;
  page_goto url _ w :=
    (sim_move (default url (sim_goto w)) (sim_later w) w, inr tt);
  page_wait_for_load_state _ _ w := (w, inr tt);
  page_screenshot _ w := (w, inr tt);
  page_content w := (w, inr (sim_content w));
  page_title w := (w, inr "ClawCloud Run");
  locator_is_visible l _ w := (w, inr (sim_mem (loc_selector l) (sim_visible w)));
  locator_click := sim_click;
  locator_fill _ _ w := (w, inr tt);
  locator_inner_text _ w := (w, inr (sim_flash w));
  context_cookies w := (w, inr (sim_cookies w));
  time_sleep _ := sim_sleep;
  time_strftime _ _ := "2025-01-01 00:00:00";
  os_path_exists _ _ := true;
  open_rb _ w := (w, inr tt);
  requests_post _ _ _ _ w := (w, inr 200%Z);
  json_dump_to _ _ w := (w, inr tt)
|}.

(** A page that stays on [url]. *)
Definition sim_page (url : string) : Sim :=
  mkSim url [] None [] [] EmptyString EmptyString [].

Definition sim_env : Env :=
  mkEnv (Some "octocat") (Some "hunter2") (Some "123:abc") (Some "42").

(** A state of the script in the middle of a run, in the world [w]. *)
Definition sim_state (w : Sim) : St Sim :=
  mkSt w (AutoLogin_init sim_env) [] [].

(** The GitHub form after a wrong password: the page stays on the session
    URL and shows the error banner. *)
Definition sim_wrong_password : Sim :=
  mkSim "https://github.com/session" [] None
        [".flash-error, .flash.flash-error"] []
        "Incorrect username or password." EmptyString [].

Section Challenges.
Context {W : Type} `{Browser W}.


End Challenges.


Section FirstEvent.
Context {W : Type}.

(** [starts_with ev m]: whatever [m] does, the first event it adds to the
    trace is [ev]. *)
Definition starts_with {A} (ev : Event) (m : M W A) : Prop :=
  ∀ s r s', m s = (r, s') → ∃ evs, trace s' = (trace s ++ ev :: evs)%list.
End FirstEvent.


(** The session did not stick: the console was reached, but every later
    navigation falls back to the sign-in page. *)
Definition sim_session_lost : Sim :=
  mkSim (CLAW_CLOUD_URL +:+ "/") [] (Some SIGNIN_URL) [] [] EmptyString
        EmptyString [{[ "domain" := JStr ".claw.cloud" ]}].

Definition not_launch (e : Event) : bool := negb (is_launch e).

(** An environment with the password but not the user name. *)
Definition sim_env_no_username : Env :=
  mkEnv None (Some "hunter2") (Some "123:abc") (Some "42").

(** A run that has logged ten lines and taken three screenshots. *)
Definition sim_long_run : St Sim :=
  mkSt (sim_page SIGNIN_URL)
       (mkAutoLogin (Some "octocat") (Some "hunter2") 3
          ["01_a.png"; "02_b.png"; "03_c.png"]
          (TelegramNotifier_init sim_env)
          ["l1"; "l2"; "l3"; "l4"; "l5"; "l6"; "l7"; "l8"; "l9"; "l10"])
       [] [].

(** A page whose first button is visible but cannot be clicked (something
    covers it), next to a second one that can. *)
Definition sim_covered_button : Sim :=
  mkSim SIGNIN_URL [] None ["#first"; "#second"] ["#first"] EmptyString
        EmptyString [].

Definition cookie_claw : Cookie :=
  {[ "name" := JStr "session"; "domain" := JStr ".claw.cloud" ]}.
Definition cookie_github : Cookie :=
  {[ "name" := JStr "user_session"; "domain" := JStr "github.com" ]}.
Definition cookie_foreign : Cookie :=
  {[ "name" := JStr "_ga"; "domain" := JStr ".clawhammer.example.com" ]}.

(** Logged in at the console, with the cookies of the console and of
    GitHub in the browser. *)
Definition sim_logged_in : Sim :=
  mkSim (CLAW_CLOUD_URL +:+ "/") [] None [] [] EmptyString EmptyString
        [cookie_github; cookie_claw].

(** The same, with one more cookie: it belongs to another site, whose name
    happens to contain the letters of the filter. *)
Definition sim_foreign_cookie : Sim :=
  mkSim (CLAW_CLOUD_URL +:+ "/") [] None [] [] EmptyString EmptyString
        [cookie_github; cookie_claw; cookie_foreign].

Definition not_poll_sleep (e : Event) : bool := negb (is_poll_sleep e).

(** GitHub never answers: the page stays on the login form. *)
Definition sim_stuck : Sim := sim_page "https://github.com/login".

(** The login form of GitHub in an OAuth flow: the address names the
    application to return to. *)
Definition sim_login_with_return : Sim :=
  sim_page ("https://github.com/login?return_to="
            +:+ "https%3A%2F%2Feu-central-1.run.claw.cloud%2Fcallback").

(** GitHub answers late: the login form for the first 17 readings of the
    URL, the console from the 18th on. *)
Definition sim_late_redirect : Sim :=
  mkSim "https://github.com/login"
        (replicate 16 "https://github.com/login" ++ [CLAW_CLOUD_URL +:+ "/"])
        None [] [] EmptyString EmptyString [].

(** GitHub answers in time: sign-in page, login form, console. *)
Definition sim_redirect : Sim :=
  mkSim SIGNIN_URL ["https://github.com/session"; CLAW_CLOUD_URL +:+ "/"]
        None [] [] EmptyString EmptyString [].

(** GitHub answers one reading later than the grace period of 15 iterations
    would allow: the login form for the first 16 readings of the URL, the
    console at the 17th. *)
Definition sim_redirect_at_17th : Sim :=
  mkSim "https://github.com/login"
        (replicate 15 "https://github.com/login" ++ [CLAW_CLOUD_URL +:+ "/"])
        None [] [] EmptyString EmptyString [].

Definition sim_github_button : string :=
  "button:has-text(" +:+ quoted "GitHub" +:+ ")".

(** A whole run with a wrong password: sign-in page, GitHub button, login
    form, and the error banner after the form was sent. *)
Definition sim_run_wrong_password : Sim :=
  mkSim SIGNIN_URL
        [SIGNIN_URL; "https://github.com/login"; "https://github.com/session"]
        None [sim_github_button; ".flash-error, .flash.flash-error"] []
        "Incorrect username or password." EmptyString [].

(** A whole run that logs in, after which the console falls back to the
    sign-in page on every navigation. *)
Definition sim_run_session_lost : Sim :=
  mkSim SIGNIN_URL
        [SIGNIN_URL; "https://github.com/login"; CLAW_CLOUD_URL +:+ "/"]
        (Some SIGNIN_URL) [sim_github_button] [] EmptyString EmptyString
        [cookie_github; cookie_claw].

(** [line] is one of [lines]. *)
Definition mentions (line : string) (lines : list string) : bool :=
  existsb (String.eqb line) lines.

(** ** A simulated browser that fails on request

    [flaky_page] behaves as above; an operation whose name is in
    [flaky_fails] raises instead (["status"] makes the notification service
    answer 500, ["exists"] makes every file missing). *)

Record Flaky : Type := mkFlaky {
  flaky_page : Sim;
  flaky_fails : list string
}.

Definition flaky_op {A : Type} (name : string)
    (op : Sim → Sim * (exn + A)) (w : Flaky) : Flaky * (exn + A) :=
  if sim_mem name (flaky_fails w) then (w, inl (name +:+ " failed"))
  else
    match op (flaky_page w) with
    | (page, r) => (mkFlaky page (flaky_fails w), r)
    end.

#[global] Instance flaky_browser : Browser Flaky := {|
  chromium_launch := flaky_op "launch" chromium_launch;
  browser_new_context := flaky_op "new_context" browser_new_context;
  context_new_page := flaky_op "new_page" context_new_page;
  browser_close w := w;
  page_url w := sim_url (flaky_page w);
  page_goto url timeout := flaky_op "goto" (page_goto url timeout);
  page_wait_for_load_state state timeout :=
    flaky_op "wait" (page_wait_for_load_state state timeout);
  page_screenshot path := flaky_op "screenshot" (page_screenshot path);
  page_content := flaky_op "content" page_content;
  page_title := flaky_op "title" page_title;
  locator_is_visible l timeout :=
    flaky_op "is_visible" (locator_is_visible l timeout);
  locator_click l := flaky_op "click" (locator_click l);
  locator_fill l text :=
    flaky_op ("fill " +:+ loc_selector l) (locator_fill l text);
  locator_inner_text l := flaky_op "inner_text" (locator_inner_text l);
  context_cookies := flaky_op "cookies" context_cookies;
  time_sleep seconds w :=
    mkFlaky (time_sleep seconds (flaky_page w)) (flaky_fails w);
  time_strftime format w := time_strftime format (flaky_page w);
  os_path_exists path w := negb (sim_mem "exists" (flaky_fails w));
  open_rb path := flaky_op "open" (open_rb path);
  requests_post url data file timeout w :=
    if sim_mem "status" (flaky_fails w) then (w, inr 500%Z)
    else flaky_op "post" (requests_post url data file timeout) w;
  json_dump_to path cookies := flaky_op "dump" (json_dump_to path cookies)
|}.

Definition flaky_state (page : Sim) (fails : list string) : St Flaky :=
  mkSt (mkFlaky page fails) (AutoLogin_init sim_env) [] [].

(** The addresses and the forms the notifier posts (lines 36-41, 54-57). *)
Definition telegram_url (t : TelegramNotifier) (method : string) : string :=
  "https://api.telegram.org/bot" +:+ str_opt (bot_token t) +:+ "/" +:+ method.

Definition message_form (t : TelegramNotifier) (message : string)
    : list (string * string) :=
  [("chat_id", str_opt (chat_id t)); ("text", message); ("parse_mode", "HTML")].

Definition photo_form (t : TelegramNotifier) (caption : string)
    : list (string * string) :=
  [("chat_id", str_opt (chat_id t)); ("caption", py_take 1024 caption)].


(** ** Relations between the states of a run *)

Section Steps.
Context {W : Type}.

(** The status with which a computation left the process, if it did. *)
Definition exits {A} (r : Res A) : option Z :=
  match r with
  | SysExit c => Some c
  | _ => None
  end.

(** [steps R m]: however [m] ends, [R] relates the state it started in,
    the status of its [sys.exit] if it ended so, and the state it left. *)
Definition steps {A} (R : St W → option Z → St W → Prop) (m : M W A)
    : Prop :=
  ∀ s r s', m s = (r, s') → R s (exits r) s'.

(** [returns_with G m]: when [m] returns [a], the events it added
    satisfy [G a]. *)
Definition returns_with {A} (G : A → list Event → Prop) (m : M W A) : Prop :=
  ∀ s a s', m s = (Ok a, s') →
    ∃ evs, trace s' = (trace s ++ evs)%list ∧ G a evs.
End Steps.

(** What may happen to the object [self] between two points of a run: the
    credentials and the notifier stay, the log and the list of screenshots
    are only added to, and the counter grows at least by the number of
    screenshots taken. *)
Definition account_kept (a a' : AutoLogin) : Prop :=
  username a' = username a ∧ password a' = password a
  ∧ telegram a' = telegram a
  ∧ (∃ lines, logs a' = (logs a ++ lines)%list)
  ∧ (∃ files, screenshots a' = (screenshots a ++ files)%list
              ∧ (screenshot_count a + length files
                 ≤ screenshot_count a')%nat).

Definition is_digit (c : ascii) : bool :=
  let n := nat_of_ascii c in (48 <=? n)%nat && (n <=? 57)%nat.

(** The number that the digits at the start of a string spell, read on
    from [acc]. *)
Fixpoint read_number (acc : nat) (s : string) : nat :=
  match s with
  | EmptyString => acc
  | String c s' =>
      if is_digit c then read_number (10 * acc + (nat_of_ascii c - 48)) s'
      else acc
  end.

Definition leading_number (s : string) : nat := read_number 0 s.

(** The screenshots so far have names of their own, numbered up to the
    counter. *)
Definition shots_ok (a : AutoLogin) : Prop :=
  NoDup (screenshots a)
  ∧ Forall (λ f, (leading_number f ≤ screenshot_count a)%nat) (screenshots a).

(** Calls of the notifier and what these do outside the script. *)
Definition is_telegram_call (e : Event) : bool :=
  match e with
  | EvSendMessage _ | EvSendPhoto _ _ | EvOpenRead _ | EvPost _ _ _ => true
  | _ => false
  end.

Definition not_telegram_call (e : Event) : bool := negb (is_telegram_call e).

Definition not_notification (e : Event) : bool := negb (is_notification e).

(** [send_notification(False, ...)] was entered. *)
Definition is_failure_notice (e : Event) : bool :=
  match e with
  | EvNotify false _ => true
  | _ => false
  end.

Definition is_close (e : Event) : bool :=
  match e with
  | EvClose => true
  | _ => false
  end.

Definition not_close (e : Event) : bool := negb (is_close e).

(** A cookie file with at least one cookie was written. *)
Definition wrote_cookies (evs : list Event) : Prop :=
  ∃ before cookies after,
    evs = (before ++ EvDump "cookies.json" cookies :: after)%list
    ∧ cookies ≠ [].

(** [send_notification(True)] was entered. *)
Definition notified_success (evs : list Event) : Prop :=
  ∃ before after, evs = (before ++ EvNotify true EmptyString :: after)%list.

(** First the one, later the other. *)
Definition verified_then_notified (evs : list Event) : Prop :=
  ∃ before cookies between after,
    evs = (before ++ EvDump "cookies.json" cookies
             :: between ++ EvNotify true EmptyString :: after)%list
    ∧ cookies ≠ [].

Section Invariants.
Context {W : Type}.

(** The relations on the states of a run that the invariants below are
    about. *)
Definition keeps_account (s : St W) (o : option Z) (s' : St W) : Prop :=
  account_kept (self s) (self s').

Definition keeps_self (s : St W) (o : option Z) (s' : St W) : Prop :=
  self s' = self s.

Definition keeps_shots (s : St W) (o : option Z) (s' : St W) : Prop :=
  shots_ok (self s) → shots_ok (self s').

(** With the notifier switched off, nothing of it is called. *)
Definition silent_if_disabled (s : St W) (o : option Z) (s' : St W) : Prop :=
  telegram (self s') = telegram (self s)
  ∧ (enabled (telegram (self s)) = false →
     ∃ evs, trace s' = (trace s ++ evs)%list
            ∧ forallb not_telegram_call evs = true).

(** A step that stays in the process and notifies nobody. *)
Definition quiet (s : St W) (o : option Z) (s' : St W) : Prop :=
  o = None
  ∧ ∃ evs, trace s' = (trace s ++ evs)%list
           ∧ forallb not_notification evs = true.

(** A step leaves the process exactly when it has notified a failure, and
    then with the status 1. *)
Definition notified_exit (s : St W) (o : option Z) (s' : St W) : Prop :=
  ∃ evs, trace s' = (trace s ++ evs)%list
         ∧ match o with
           | Some c => c = 1%Z ∧ existsb is_failure_notice evs = true
           | None => existsb is_failure_notice evs = false
           end.
End Invariants.

(** An environment without the token of the notification bot. *)
Definition sim_env_no_token : Env :=
  mkEnv (Some "octocat") (Some "hunter2") None (Some "42").

(** * Properties *)

Section Proofs.
Context {W : Type} `{Browser W}.
Implicit Types (s : St W) (P : Event → bool).

(** ** The trace only grows *)

Lemma emits_ret {A} P (a : A) : emits P (@ret W A a).
Proof.
  intros s r s' E. injection E as <- <-. exists [].
  by rewrite app_nil_r.
Qed.

Lemma emits_sys_exit {A} P c : emits P (@sys_exit W A c).
Proof.
  intros s r s' E. injection E as <- <-. exists [].
  by rewrite app_nil_r.
Qed.

Lemma emits_get_self P : emits P (@get_self W).
Proof.
  intros s r s' E. injection E as <- <-. exists [].
  by rewrite app_nil_r.
Qed.

Lemma emits_get_world P : emits P (@get_world W).
Proof.
  intros s r s' E. injection E as <- <-. exists [].
  by rewrite app_nil_r.
Qed.

Lemma emits_set_self P a : emits P (@set_self W a).
Proof.
  intros s r s' E. injection E as <- <-. exists [].
  by rewrite app_nil_r.
Qed.

Lemma emits_print P line : emits P (@print W line).
Proof.
  intros s r s' E. injection E as <- <-. exists [].
  by rewrite app_nil_r.
Qed.

Lemma emits_lift {A} P (x : exn + A) : emits P (@lift W A x).
Proof.
  intros s r s' E. injection E as <- <-. exists [].
  by rewrite app_nil_r.
Qed.

Lemma emits_emit P ev : P ev = true → emits P (@emit W ev).
Proof.
  intros HP s r s' E. injection E as <- <-. exists [ev].
  cbn. by rewrite HP.
Qed.

Lemma emits_call {A} P ev (f : W → W * (exn + A)) :
  P ev = true → emits P (call ev f).
Proof.
  intros HP s r s' E. unfold call in E.
  destruct (f (world s)) as [w' x]. injection E as <- <-. exists [ev].
  cbn. by rewrite HP.
Qed.

Lemma emits_call_total P ev (f : W → W) :
  P ev = true → emits P (call_total ev f).
Proof.
  intros HP s r s' E. injection E as <- <-. exists [ev].
  cbn. by rewrite HP.
Qed.

Lemma emits_bind {A B} P (m : M W A) (k : A → M W B) :
  emits P m → (∀ a, emits P (k a)) → emits P (bind m k).
Proof.
  intros Hm Hk s r s' E. unfold bind in E.
  destruct (m s) as [[a|e|c] s1] eqn:Em;
    destruct (Hm _ _ _ Em) as (evs1 & T1 & F1).
  - destruct (Hk a _ _ _ E) as (evs2 & T2 & F2).
    exists (evs1 ++ evs2)%list.
    by rewrite T2, T1, app_assoc, forallb_app, F1, F2.
  - injection E as <- <-. by exists evs1.
  - injection E as <- <-. by exists evs1.
Qed.

Lemma emits_try_except {A} P (m : M W A) (h : exn → M W A) :
  emits P m → (∀ e, emits P (h e)) → emits P (try_except m h).
Proof.
  intros Hm Hh s r s' E. unfold try_except in E.
  destruct (m s) as [[a|e|c] s1] eqn:Em;
    destruct (Hm _ _ _ Em) as (evs1 & T1 & F1).
  - injection E as <- <-. by exists evs1.
  - destruct (Hh e _ _ _ E) as (evs2 & T2 & F2).
    exists (evs1 ++ evs2)%list.
    by rewrite T2, T1, app_assoc, forallb_app, F1, F2.
  - injection E as <- <-. by exists evs1.
Qed.

Lemma emits_try_bare {A} P (m h : M W A) :
  emits P m → emits P h → emits P (try_bare m h).
Proof.
  intros Hm Hh s r s' E. unfold try_bare in E.
  destruct (m s) as [[a|e|c] s1] eqn:Em;
    destruct (Hm _ _ _ Em) as (evs1 & T1 & F1).
  - injection E as <- <-. by exists evs1.
  - destruct (Hh _ _ _ E) as (evs2 & T2 & F2).
    exists (evs1 ++ evs2)%list.
    by rewrite T2, T1, app_assoc, forallb_app, F1, F2.
  - destruct (Hh _ _ _ E) as (evs2 & T2 & F2).
    exists (evs1 ++ evs2)%list.
    by rewrite T2, T1, app_assoc, forallb_app, F1, F2.
Qed.

Lemma emits_try_finally {A} P (m : M W A) (fin : M W unit) :
  emits P m → emits P fin → emits P (try_finally m fin).
Proof.
  intros Hm Hf s r s' E. unfold try_finally in E.
  destruct (m s) as [r1 s1] eqn:Em.
  destruct (Hm _ _ _ Em) as (evs1 & T1 & F1).
  destruct (fin s1) as [r2 s2] eqn:Ef.
  destruct (Hf _ _ _ Ef) as (evs2 & T2 & F2).
  exists (evs1 ++ evs2)%list.
  assert (s' = s2) as -> by (destruct r2; by injection E).
  by rewrite T2, T1, app_assoc, forallb_app, F1, F2.
Qed.

Lemma emits_when P c (m : M W unit) : emits P m → emits P (when_ c m).
Proof. intros Hm. destruct c; [done | apply emits_ret]. Qed.

Lemma emits_for_each {X A} P (xs : list X) (body : X → M W (option A)) :
  (∀ x, emits P (body x)) → emits P (for_each xs body).
Proof.
  intros Hb. induction xs as [|x xs IH]; cbn [for_each].
  - apply emits_ret.
  - apply emits_bind; [apply Hb |].
    intros [a|]; [apply emits_ret | apply IH].
Qed.

Lemma emits_weaken {A} P Q (m : M W A) :
  (∀ e, P e = true → Q e = true) → emits P m → emits Q m.
Proof.
  intros HPQ Hm s r s' E. destruct (Hm _ _ _ E) as (evs & T & F).
  exists evs. split; [done |].
  rewrite forallb_forall in *. auto.
Qed.

Ltac emits_side := solve [reflexivity | auto].

Ltac emits_step :=
  cbv beta;
  lazymatch goal with
  | |- emits _ (bind _ _) => apply emits_bind; [| intros ?]
  | |- emits _ (ret _) => apply emits_ret
  | |- emits _ (sys_exit _) => apply emits_sys_exit
  | |- emits _ get_self => apply emits_get_self
  | |- emits _ get_world => apply emits_get_world
  | |- emits _ (set_self _) => apply emits_set_self
  | |- emits _ (print _) => apply emits_print
  | |- emits _ (lift _) => apply emits_lift
  | |- emits _ (emit _) => apply emits_emit; emits_side
  | |- emits _ (call _ _) => apply emits_call; emits_side
  | |- emits _ (call_total _ _) => apply emits_call_total; emits_side
  | |- emits _ (try_except _ _) => apply emits_try_except; [| intros ?]
  | |- emits _ (try_bare _ _) => apply emits_try_bare
  | |- emits _ (try_finally _ _) => apply emits_try_finally
  | |- emits _ (when_ _ _) => apply emits_when
  | |- emits _ (for_each _ _) => apply emits_for_each; intros ?
  | |- emits _ (if ?c then _ else _) => destruct c
  | |- emits _ (match ?x with _ => _ end) => destruct x
  end.

Ltac emits_unfold :=
  lazymatch goal with
  | |- emits _ (log _ _) => unfold log
  | |- emits _ (screenshot _) => unfold screenshot
  | |- emits _ (send_message _) => unfold send_message
  | |- emits _ (send_photo _ _) => unfold send_photo
  | |- emits _ (try_selector _ _) => unfold try_selector
  | |- emits _ (find_and_click _ _) => unfold find_and_click
  | |- emits _ handle_oauth => unfold handle_oauth
  | |- emits _ (wait_redirect_continue _ _) => unfold wait_redirect_continue
  | |- emits _ (wait_redirect_body _) => unfold wait_redirect_body
  | |- emits _ verify_login => unfold verify_login
  | |- emits _ (keepalive_visit _) => unfold keepalive_visit
  | |- emits _ keepalive => unfold keepalive
  | |- emits _ check_github_error => unfold check_github_error
  | |- emits _ check_device_verification => unfold check_device_verification
  | |- emits _ check_2fa => unfold check_2fa
  | |- emits _ (login_github_classify _) => unfold login_github_classify
  | |- emits _ login_github_submit => unfold login_github_submit
  | |- emits _ login_github => unfold login_github
  | |- emits _ (wait_redirect _) => unfold wait_redirect
  end.

Ltac emits_tac := repeat first [emits_step | emits_unfold].

Lemma emits_log P message level : emits P (@log W message level).
Proof. emits_tac. Qed.

Lemma emits_screenshot P name :
  (∀ e, is_passive e = true → P e = true) → emits P (screenshot name).
Proof. intros HP. emits_tac. Qed.

Lemma emits_send_photos P paths :
  (∀ e, is_notification e = true → P e = true) →
  emits P (send_photos paths).
Proof.
  intros HP. induction paths as [|ss rest IH]; cbn [send_photos].
  - apply emits_ret.
  - apply emits_bind; [emits_tac | intros _; apply IH].
Qed.

Lemma emits_send_notification P success error_msg :
  (∀ e, is_notification e = true → P e = true) →
  emits P (send_notification success error_msg).
Proof.
  intros HP. unfold send_notification.
  apply emits_bind; [emits_tac | intros _].
  apply emits_bind; [emits_tac | intros a].
  destruct (negb (enabled (telegram a))); [apply emits_ret |].
  apply emits_bind; [emits_tac | intros w].
  apply emits_bind; [emits_tac | intros _].
  destruct (screenshots a); [apply emits_ret |].
  destruct (negb success); [by apply emits_send_photos | emits_tac].
Qed.

Lemma passive_of_notification e :
  is_notification e = true → is_passive e = true.
Proof. unfold is_passive. by intros ->. Qed.

(** ** Notifications never fail *)

Lemma log_eq message level s :
  @log W message level s
  = (Ok tt,
     mkSt (world s)
          (with_logs (self s)
                     (logs (self s) ++ [icon level +:+ " " +:+ message]))
          (trace s) (stdout s ++ [icon level +:+ " " +:+ message])).
Proof. reflexivity. Qed.

Lemma send_message_total message : total (send_message message).
Proof.
  intros s. unfold send_message, bind, emit, get_self, try_except, call, ret.
  cbn. destruct (negb _); [eauto |].
  destruct (requests_post _ _ _ _ _) as [w' [e|code]]; cbn; eauto.
Qed.

Lemma send_photo_total path caption : total (send_photo path caption).
Proof.
  intros s.
  unfold send_photo, bind, emit, get_self, get_world, try_except, call, ret.
  cbn. destruct (_ || _); [eauto |].
  destruct (open_rb _ _) as [w' [e|[]]]; cbn; eauto.
  destruct (requests_post _ _ _ _ _) as [w'' [e|code]]; cbn; eauto.
Qed.

Lemma send_photos_total paths : total (send_photos paths).
Proof.
  induction paths as [|ss rest IH]; intros s; cbn [send_photos].
  - unfold ret. eauto.
  - unfold bind at 1.
    destruct (send_photo_total ss ss s) as (b & s1 & ->).
    apply IH.
Qed.

Lemma send_notification_total success error_msg :
  total (send_notification success error_msg).
Proof.
  intros s. unfold send_notification.
  unfold bind at 1, emit at 1. unfold bind at 1, get_self at 1. cbn [self].
  destruct (negb _); [unfold ret; eauto |].
  unfold bind at 1, get_world at 1. unfold bind at 1.
  match goal with
  | |- context [send_message ?m ?s0] =>
      destruct (send_message_total m s0) as (b & s1 & ->)
  end.
  destruct (screenshots _) as [|first others]; [unfold ret; eauto |].
  destruct (negb success).
  - apply send_photos_total.
  - unfold bind at 1.
    match goal with
    | |- context [send_photo ?p ?c ?s0] =>
        destruct (send_photo_total p c s0) as (b' & s2 & ->)
    end.
    unfold ret. eauto.
Qed.

(** ** Sequencing *)

Lemma bind_ok {A B} (m : M W A) (k : A → M W B) s a s1 :
  m s = (Ok a, s1) → bind m k s = k a s1.
Proof. intros E. unfold bind. by rewrite E. Qed.

Lemma bind_raise {A B} (m : M W A) (k : A → M W B) s e s1 :
  m s = (Raise e, s1) → bind m k s = (Raise e, s1).
Proof. intros E. unfold bind. by rewrite E. Qed.

Lemma bind_exit {A B} (m : M W A) (k : A → M W B) s c s1 :
  m s = (SysExit c, s1) → bind m k s = (SysExit c, s1).
Proof. intros E. unfold bind. by rewrite E. Qed.

Lemma bind_assoc {A B C} (m : M W A) (f : A → M W B) (g : B → M W C) s :
  bind (bind m f) g s = bind m (λ a, bind (f a) g) s.
Proof. unfold bind. by destruct (m s) as [[a|e|c] s1]. Qed.

Lemma bind_failed (m : M W unit) (k : unit → M W unit) s r s1 :
  m s = (r, s1) → failed r → bind m k s = (r, s1).
Proof. intros E F. unfold bind. rewrite E. by destruct r. Qed.

Lemma failed_exit_code r : failed r → exit_code r ≠ 0%Z.
Proof. by destruct r. Qed.

(** ** The guard around the main flow *)

(** The handler of [run] never returns: it raises again when its
    screenshot fails, and leaves with status 1 otherwise. *)
Lemma run_except_failed e s :
  ∃ r s' evs,
    run_except e s = (r, s') ∧ failed r
    ∧ trace s' = (trace s ++ evs)%list ∧ forallb is_passive evs = true.
Proof.
  destruct (run_except e s) as [r s'] eqn:E.
  assert (emits is_passive (run_except e)) as Hev.
  { unfold run_except.
    apply emits_bind; [apply emits_log | intros _].
    apply emits_bind; [by apply emits_screenshot | intros _].
    apply emits_bind; [| intros _; apply emits_sys_exit].
    apply emits_send_notification, passive_of_notification. }
  destruct (Hev _ _ _ E) as (evs & T & F).
  exists r, s', evs. repeat split; try done.
  unfold run_except in E. rewrite bind_ok with (1 := log_eq _ _ _) in E.
  unfold bind at 1 in E.
  destruct (screenshot _ _) as [[f|e'|c] s1] eqn:Es.
  - unfold bind at 1 in E.
    destruct (send_notification_total false e s1) as ([] & s2 & E2).
    rewrite E2 in E. by injection E as <- <-.
  - by injection E as <- <-.
  - exfalso. clear E. revert Es.
    unfold screenshot, bind, get_self, set_self, call, ret. cbn.
    by destruct (page_screenshot _ _) as [w' [e'|[]]].
Qed.

Lemma run_guarded_failed body s r s1 :
  body s = (r, s1) → failed r →
  ∃ out s' evs,
    run_guarded body s = (out, s') ∧ exit_code out ≠ 0%Z
    ∧ trace s' = (trace s1 ++ evs)%list ∧ forallb is_passive evs = true.
Proof.
  intros E F. unfold run_guarded, try_finally, try_except. rewrite E.
  destruct r as [[]|e|c]; [done | |].
  - destruct (run_except_failed e s1) as (r' & s2 & evs & -> & F' & T & Fp).
    cbn. eexists r', _, (evs ++ [EvClose])%list.
    split; [reflexivity |]. split; [by apply failed_exit_code |].
    cbn. by rewrite T, app_assoc, forallb_app, Fp.
  - cbn. eexists _, _, [EvClose]. repeat split; done.
Qed.

Lemma run_guarded_ok body s s1 :
  body s = (Ok tt, s1) →
  run_guarded body s
  = (Ok tt, mkSt (browser_close (world s1)) (self s1)
                 (trace s1 ++ [EvClose]) (stdout s1)).
Proof.
  intros E. unfold run_guarded, try_finally, try_except. by rewrite E.
Qed.


(** ** Giving up: screenshot, notification, exit *)

Lemma screenshot_cases name s :
  (∃ f s', screenshot name s = (Ok f, s'))
  ∨ (∃ e s', screenshot name s = (Raise e, s')).
Proof.
  unfold screenshot, bind, get_self, set_self, call, ret. cbn.
  destruct (page_screenshot _ _) as [w' [e|[]]]; cbn; eauto.
Qed.

Lemma abort_failed name msg line s :
  ∃ r s' evs,
    (screenshot name;; send_notification false msg;; print line;;
     sys_exit 1) s = (r : Res unit, s')
    ∧ failed r
    ∧ trace s' = (trace s ++ evs)%list ∧ forallb is_passive evs = true.
Proof.
  match goal with |- ∃ _ _ _, ?m s = _ ∧ _ => set (tail := m) end.
  destruct (tail s) as [r s'] eqn:E.
  assert (emits is_passive tail) as Hev.
  { subst tail.
    apply emits_bind; [by apply emits_screenshot | intros _].
    apply emits_bind;
      [apply emits_send_notification, passive_of_notification | intros _].
    apply emits_bind; [apply emits_print | intros _; apply emits_sys_exit]. }
  destruct (Hev _ _ _ E) as (evs & T & F).
  exists r, s', evs. repeat split; try done.
  subst tail. unfold bind at 1 in E.
  destruct (screenshot_cases name s) as [(f & s1 & Es)|(e & s1 & Es)];
    rewrite Es in E.
  - unfold bind at 1 in E.
    destruct (send_notification_total false msg s1) as ([] & s2 & E2).
    rewrite E2 in E. by injection E as <- <-.
  - by injection E as <- <-.
Qed.

(** When [login_github] does not return [True], the run ends with a
    status other than 0, and from there on it only takes screenshots,
    notifies and closes the browser. *)
Lemma login_failure_is_fatal s r s2 :
  on_github_login (page_url (world s)) = true →
  (log "步骤3: GitHub 登录" STEP;; login_github) s = (r, s2) →
  r = Ok false ∨ (∃ e, r = Raise e) →
  ∃ out s3 evs,
    run_guarded run_from_step3 s = (out, s3) ∧ exit_code out ≠ 0%Z
    ∧ trace s3 = (trace s2 ++ evs)%list ∧ forallb is_passive evs = true.
Proof.
  intros Hurl Hlogin Hr.
  rewrite bind_ok with (1 := log_eq _ _ _) in Hlogin.
  assert (∃ r' s2' evs',
            run_from_step3 s = (r', s2') ∧ failed r'
            ∧ trace s2' = (trace s2 ++ evs')%list
            ∧ forallb is_passive evs' = true) as (r' & s2' & evs' & E & F & T & Fp).
  { unfold run_from_step3, run_step3.
    destruct Hr as [-> | [e ->]].
    - destruct (abort_failed "登录失败" "GitHub 登录失败"
                  (nl +:+ "❌ GitHub 登录失败！" +:+ nl) s2)
        as (r' & s2' & evs' & E & F & T & Fp).
      exists r', s2', evs'. repeat split; try done.
      apply bind_failed; [| done].
      rewrite bind_ok with (1 := log_eq _ _ _).
      unfold bind at 1, get_world at 1. cbn [world]. rewrite Hurl.
      cbn [when_]. rewrite bind_ok with (1 := Hlogin). exact E.
    - exists (Raise e), s2, []. rewrite app_nil_r. repeat split; try done.
      apply bind_failed; [| done].
      rewrite bind_ok with (1 := log_eq _ _ _).
      unfold bind at 1, get_world at 1. cbn [world]. rewrite Hurl.
      cbn [when_]. by rewrite bind_raise with (1 := Hlogin). }
  destruct (run_guarded_failed _ _ _ _ E F) as (out & s3 & evs & E3 & Hc & T3 & Fp3).
  exists out, s3, (evs' ++ evs)%list. repeat split; try done.
  - by rewrite T3, T, app_assoc.
  - by rewrite forallb_app, Fp, Fp3.
Qed.

Lemma passive_not_wait_redirect evs :
  forallb is_passive evs = true → forallb not_wait_redirect evs = true.
Proof.
  rewrite !forallb_forall. intros Hp e He. specialize (Hp e He).
  by destruct e.
Qed.

(** ** The error banner of GitHub *)

(** C3.  The run stands at step 3 on a GitHub login or session URL, the
    credentials are sent, and the page then shows the error banner with
    a text that is not empty (such as the text for wrong credentials).
    Then [login_github] returns [False], the run ends with a status other
    than 0, and no event of the run from step 3 on is an entry of the
    redirect-wait loop. *)
Theorem github_error_banner_is_fatal s url s1 w2 w3 text :
  on_github_login (page_url (world s)) = true →
  (log "步骤3: GitHub 登录" STEP;; login_github_submit) s
  = (Ok (Some url), s1) →
  locator_is_visible flash_error 2000 (world s1) = (w2, inr true) →
  locator_inner_text flash_error w2 = (w3, inr text) →
  text ≠ EmptyString →
  ∃ s2 out s3 evs,
    (log "步骤3: GitHub 登录" STEP;; login_github) s = (Ok false, s2)
    ∧ run_guarded run_from_step3 s = (out, s3)
    ∧ exit_code out ≠ 0%Z
    ∧ trace s3 = (trace s ++ evs)%list
    ∧ forallb not_wait_redirect evs = true.
Proof.
  intros Hurl Hsubmit Hvisible Htext Hne.
  assert (∃ s2, (log "步骤3: GitHub 登录" STEP;; login_github) s
                = (Ok false, s2)) as [s2 Hlogin].
  { unfold login_github. rewrite <- bind_assoc.
    rewrite bind_ok with (1 := Hsubmit).
    unfold login_github_classify, check_github_error.
    unfold bind at 1, try_bare, bind at 1, call at 1.
    rewrite Hvisible. cbn [world]. unfold bind at 1, call at 1. cbn [world].
    rewrite Htext. cbn [ret].
    destruct text as [|c text]; [done |]. cbn [truthy].
    rewrite bind_ok with (1 := log_eq _ _ _). unfold ret. eauto. }
  assert (emits not_wait_redirect
            (log "步骤3: GitHub 登录" STEP;; login_github)) as Hev
    by emits_tac.
  destruct (Hev _ _ _ Hlogin) as (evs0 & T0 & F0).
  destruct (login_failure_is_fatal s (Ok false) s2 Hurl Hlogin)
    as (out & s3 & evs & E & Hc & T & Fp); [by left |].
  exists s2, out, s3, (evs0 ++ evs)%list. repeat split; try done.
  - by rewrite T, T0, app_assoc.
  - by rewrite forallb_app, F0, (passive_not_wait_redirect _ Fp).
Qed.

(** ** Challenges of GitHub *)




(** ** The first event of a computation *)

Lemma starts_with_emit {A} ev (k : unit → M W A) :
  (∀ a, emits any_event (k a)) → starts_with ev (bind (emit ev) k).
Proof.
  intros Hk s r s' E. unfold bind at 1, emit at 1 in E.
  destruct (Hk tt _ _ _ E) as (evs & T & _).
  exists evs. rewrite T. cbn [trace]. by rewrite <- app_assoc.
Qed.







(** ** Still on the login page *)


(** ** Notifications, as the trace shows them *)

Lemma send_notification_starts success error_msg :
  starts_with (EvNotify success error_msg)
              (send_notification success error_msg).
Proof.
  unfold send_notification. apply starts_with_emit. intros _.
  apply emits_bind; [emits_tac | intros a].
  destruct (negb (enabled (telegram a))); [apply emits_ret |].
  apply emits_bind; [emits_tac | intros w].
  apply emits_bind; [emits_tac | intros _].
  destruct (screenshots a); [apply emits_ret |].
  destruct (negb success); [by apply emits_send_photos | emits_tac].
Qed.

Lemma send_notification_run success error_msg s :
  ∃ s' evs,
    send_notification success error_msg s = (Ok tt, s')
    ∧ trace s' = (trace s ++ EvNotify success error_msg :: evs)%list
    ∧ forallb is_notification evs = true.
Proof.
  destruct (send_notification_total success error_msg s) as ([] & s' & E).
  destruct (send_notification_starts success error_msg _ _ _ E) as (evs & T).
  assert (emits is_notification (send_notification success error_msg)) as Hev
    by by apply emits_send_notification.
  destruct (Hev _ _ _ E) as (evs0 & T0 & F0).
  exists s', evs. repeat split; try done.
  rewrite T in T0. apply app_inv_head in T0. subst evs0.
  exact F0.
Qed.

(** ** The result of keepalive *)

(** C9.  [keepalive] returns [False] (a page fell back to the sign-in
    path), at line 449 or at line 392.  In both places the run goes on as
    after [True]: the next event is the entry of [send_notification] with
    the success flag, and the run ends with status 0. *)
Theorem keepalive_result_is_ignored :
  (∀ s s1,
     (log "步骤6: 保活" STEP;; keepalive) s = (Ok false, s1) →
     ∃ out s2 evs,
       run_guarded run_step6 s = (out, s2)
       ∧ exit_code out = 0%Z
       ∧ trace s2 = (trace s1 ++ EvNotify true EmptyString :: evs)%list)
  ∧ (∀ s s1 s2 (rest : M W unit),
       py_in "signin" (lower (page_url (world s))) = false →
       (log "已经登录！" SUCCESS;; verify_login) s = (Ok true, s1) →
       keepalive s1 = (Ok false, s2) →
       ∃ out s3 evs,
         run_guarded (returned <- run_already_logged_in;;
                      if returned then ret tt else rest) s = (out, s3)
         ∧ exit_code out = 0%Z
         ∧ trace s3 = (trace s2 ++ EvNotify true EmptyString :: evs)%list).
Proof.
  split.
  - intros s s1 Hkeep.
    rewrite bind_ok with (1 := log_eq _ _ _) in Hkeep.
    destruct (send_notification_run true EmptyString s1)
      as (s2 & evs & Hnotify & T & _).
    eexists (Ok tt), _, (evs ++ [EvClose])%list. split; [| split].
    + apply run_guarded_ok. unfold run_step6.
      rewrite bind_ok with (1 := log_eq _ _ _).
      rewrite bind_ok with (1 := Hkeep).
      rewrite bind_ok with (1 := Hnotify). reflexivity.
    + reflexivity.
    + cbn [trace]. rewrite T. by rewrite <- app_assoc.
  - intros s s1 s2 rest Hurl Hverify Hkeep.
    rewrite bind_ok with (1 := log_eq _ _ _) in Hverify.
    destruct (send_notification_run true EmptyString s2)
      as (s3 & evs & Hnotify & T & _).
    eexists (Ok tt), _, (evs ++ [EvClose])%list. split; [| split].
    + apply run_guarded_ok. unfold run_already_logged_in.
      unfold bind at 1. unfold bind at 1, get_world at 1. cbn [world].
      rewrite Hurl. cbn [negb].
      rewrite bind_ok with (1 := log_eq _ _ _).
      rewrite bind_ok with (1 := Hverify).
      rewrite bind_ok with (1 := Hkeep).
      rewrite bind_ok with (1 := Hnotify). reflexivity.
    + reflexivity.
    + cbn [trace]. rewrite T. by rewrite <- app_assoc.
Qed.

(** ** Missing credentials *)

Lemma validate_credentials_missing s :
  truthy (username (self s)) = false ∨ truthy (password (self s)) = false →
  ∃ s', @validate_credentials W s = (Ok false, s') ∧ trace s' = trace s.
Proof.
  intros Hmissing. unfold validate_credentials.
  unfold bind at 1, get_self at 1.
  destruct (truthy (username (self s))) eqn:Hu; cbn [negb].
  - destruct Hmissing as [? | Hp]; [done |]. rewrite Hp. cbn [negb].
    rewrite bind_ok with (1 := log_eq _ _ _). unfold ret. eauto.
  - rewrite bind_ok with (1 := log_eq _ _ _). unfold ret. eauto.
Qed.

Lemma notification_not_launch evs :
  forallb is_notification evs = true → forallb not_launch evs = true.
Proof.
  rewrite !forallb_forall. intros Hn e He. specialize (Hn e He).
  by destruct e.
Qed.

(** C6.  One of the two credentials is absent from the environment (or is
    the empty string, which the script treats alike; [truthy None] is
    [false]).  Then [validate_credentials] returns [False], the first
    event of the run is the entry of [send_notification] for a failure,
    all its events are those of that notification, so the browser is never
    launched, and the process ends with status 1. *)
Theorem missing_credentials_is_fatal env (w : W) :
  truthy (GH_USERNAME env) = false ∨ truthy (GH_PASSWORD env) = false →
  ∃ s0 s' evs,
    @validate_credentials W (init_state env w) = (Ok false, s0)
    ∧ main env w = (SysExit 1, s')
    ∧ exit_code (fst (main env w)) = 1%Z
    ∧ trace s' = EvNotify false "凭据未配置" :: evs
    ∧ forallb is_notification evs = true
    ∧ forallb not_launch (trace s') = true.
Proof.
  intros Hmissing.
  destruct (validate_credentials_missing (init_state env w) Hmissing)
    as (s0 & Hvalid & T0).
  assert (∃ s' evs,
            main env w = (SysExit 1, s')
            ∧ trace s' = EvNotify false "凭据未配置" :: evs
            ∧ forallb is_notification evs = true)
    as (s' & evs & Hmain & T & F).
  { assert (∃ s' evs,
              run_setup (init_state env w) = (SysExit 1, s')
              ∧ trace s' = EvNotify false "凭据未配置" :: evs
              ∧ forallb is_notification evs = true)
      as (s' & evs & Hsetup & T & F).
    { unfold run_setup.
      unfold bind at 1, print at 1. unfold bind at 1, print at 1.
      unfold bind at 1, print at 1.
      match goal with
      | |- context [bind validate_credentials _ ?st] =>
          destruct (validate_credentials_missing st Hmissing)
            as (s1 & Hvalid1 & T1)
      end.
      rewrite bind_ok with (1 := Hvalid1). cbn [negb when_].
      destruct (send_notification_run false "凭据未配置" s1)
        as (s2 & evs & Hnotify & T2 & F2).
      unfold bind at 1. unfold bind at 1. rewrite Hnotify.
      exists s2, evs. repeat split; try done.
      rewrite T2, T1. reflexivity. }
    exists s', evs. split; [| done].
    unfold main, run. by rewrite bind_exit with (1 := Hsetup). }
  exists s0, s', evs. repeat split; try done.
  - by rewrite Hmain.
  - rewrite T. by apply (notification_not_launch (_ :: _)).
Qed.

(** ** What a notification carries *)

Lemma photos_sent_app evs1 evs2 :
  photos_sent (evs1 ++ evs2) = (photos_sent evs1 ++ photos_sent evs2)%list.
Proof.
  induction evs1 as [|e evs1 IH]; [done |].
  destruct e; cbn; by rewrite ?IH.
Qed.

Lemma messages_sent_app evs1 evs2 :
  messages_sent (evs1 ++ evs2)
  = (messages_sent evs1 ++ messages_sent evs2)%list.
Proof.
  induction evs1 as [|e evs1 IH]; [done |].
  destruct e; cbn; by rewrite ?IH.
Qed.

Lemma send_message_run message s :
  ∃ b s' evs,
    send_message message s = (Ok b, s')
    ∧ trace s' = (trace s ++ EvSendMessage message :: evs)%list
    ∧ photos_sent evs = [] ∧ messages_sent evs = [].
Proof.
  unfold send_message, bind, emit, get_self, try_except, call, ret, print.
  cbn. destruct (negb _).
  - eexists _, _, []. by rewrite <- ?app_assoc.
  - destruct (requests_post _ _ _ _ _) as [w' [e|code]]; cbn;
      eexists _, _, [_]; by rewrite <- ?app_assoc.
Qed.

Lemma send_photo_run path caption s :
  ∃ b s' evs,
    send_photo path caption s = (Ok b, s')
    ∧ trace s' = (trace s ++ EvSendPhoto path caption :: evs)%list
    ∧ photos_sent evs = [] ∧ messages_sent evs = [].
Proof.
  unfold send_photo, bind, emit, get_self, get_world, try_except, call, ret,
    print.
  cbn. destruct (_ || _).
  - eexists _, _, []. by rewrite <- ?app_assoc.
  - destruct (open_rb _ _) as [w' [e|[]]]; cbn.
    + eexists _, _, [_]. by rewrite <- ?app_assoc.
    + destruct (requests_post _ _ _ _ _) as [w'' [e|code]]; cbn;
        eexists _, _, [_; _]; by rewrite <- ?app_assoc.
Qed.

Lemma send_photos_run paths s :
  ∃ s' evs,
    send_photos paths s = (Ok tt, s')
    ∧ trace s' = (trace s ++ evs)%list
    ∧ photos_sent evs = map (λ ss, (ss, ss)) paths
    ∧ messages_sent evs = [].
Proof.
  revert s. induction paths as [|ss rest IH]; intros s; cbn [send_photos].
  - exists s, []. by rewrite app_nil_r.
  - destruct (send_photo_run ss ss s) as (b & s1 & evs1 & E1 & T1 & P1 & M1).
    destruct (IH s1) as (s2 & evs2 & E2 & T2 & P2 & M2).
    exists s2, (EvSendPhoto ss ss :: evs1 ++ evs2)%list.
    rewrite bind_ok with (1 := E1). split; [done |].
    split; [by rewrite T2, T1, <- app_assoc |].
    cbn. by rewrite photos_sent_app, messages_sent_app, P1, P2, M1, M2.
Qed.

Lemma list_last_default {A} (l : list A) (z x y : A) :
  List.last (z :: l) x = List.last (z :: l) y.
Proof.
  revert z. induction l as [|a l IH]; intros z; [done |].
  change (List.last (a :: l) x = List.last (a :: l) y). apply IH.
Qed.

Lemma last_cons_default {A} (x : A) (l : list A) :
  last (x :: l) = Some (List.last l x).
Proof.
  revert x. induction l as [|y l IH]; intros x; [done |].
  rewrite last_cons_cons, IH. f_equal.
  destruct l as [|z l]; [done |].
  change (List.last (z :: l) y = List.last (z :: l) x).
  apply list_last_default.
Qed.

Lemma last_n_split {A} (n : nat) (l : list A) :
  l = (take (length l - n) l ++ last_n n l)%list
  ∧ length (last_n n l) = Nat.min n (length l).
Proof.
  unfold last_n. split; [by rewrite take_drop |].
  rewrite length_drop. lia.
Qed.

(** C7.  With the notifier configured, [send_notification] sends one
    message: the head (status, user, time, error) followed by the last
    lines of the log, at most 8 of them and all of them when there are
    fewer.  It then hands photos to the notifier: every screenshot, in
    order, when the run failed, and only the last one when it succeeded.
    Without a configured notifier nothing is sent. *)
Theorem notification_contents success error_msg s :
  ∃ s' evs older recent,
    send_notification success error_msg s = (Ok tt, s')
    ∧ trace s' = (trace s ++ EvNotify success error_msg :: evs)%list
    ∧ logs (self s) = (older ++ recent)%list
    ∧ length recent = Nat.min 8 (length (logs (self s)))
    ∧ if enabled (telegram (self s)) then
        messages_sent evs
        = [match recent with
           | [] => notification_head (self s)
                     (time_strftime "%Y-%m-%d %H:%M:%S" (world s)) success
                     error_msg
           | _ :: _ =>
               notification_head (self s)
                 (time_strftime "%Y-%m-%d %H:%M:%S" (world s)) success
                 error_msg
               +:+ nl +:+ nl +:+ "<b>日志:</b>" +:+ nl
               +:+ String.concat nl recent
           end]
        ∧ photos_sent evs
          = (if success then
               match last (screenshots (self s)) with
               | Some ss => [(ss, "最终截图")]
               | None => []
               end
             else map (λ ss, (ss, ss)) (screenshots (self s)))
      else evs = [].
Proof.
  destruct (last_n_split 8 (logs (self s))) as [Hsplit Hlen].
  unfold send_notification.
  unfold bind at 1, emit at 1. unfold bind at 1, get_self at 1. cbn [self].
  destruct (enabled (telegram (self s))) eqn:Henabled; cbn [negb].
  2: { eexists _, [], _, _. unfold ret. cbn [trace]. by repeat split. }
  unfold bind at 1, get_world at 1. cbn [world].
  match goal with
  | |- context [bind (send_message ?m) _ ?s0] =>
      destruct (send_message_run m s0) as (b & s1 & evs1 & E1 & T1 & P1 & M1)
  end.
  rewrite bind_ok with (1 := E1). cbn [trace] in T1.
  assert (∀ text, messages_sent (EvSendMessage text :: evs1) = [text]) as Hm
    by (intros text; cbn; by rewrite M1).
  destruct (screenshots (self s)) as [|first others] eqn:Hshots.
  - eexists _, _, _, _. unfold ret.
    split; [reflexivity |]. split; [by rewrite T1, <- app_assoc |].
    split; [exact Hsplit |]. split; [exact Hlen |].
    rewrite Hm. unfold notification_text.
    split; [by destruct (last_n 8 _) | by destruct success].
  - destruct success; cbn [negb].
    + destruct (send_photo_run (List.last others first) "最终截图" s1)
        as (b2 & s2 & evs2 & E2 & T2 & P2 & M2).
      rewrite bind_ok with (1 := E2).
      eexists _, (EvSendMessage _ :: evs1 ++ EvSendPhoto _ _ :: evs2)%list, _, _.
      unfold ret. split; [reflexivity |].
      split; [by rewrite T2, T1, <- !app_assoc |].
      split; [exact Hsplit |]. split; [exact Hlen |].
      cbn [messages_sent photos_sent].
      rewrite messages_sent_app, photos_sent_app, P1, M1. cbn.
      rewrite P2, M2, last_cons_default. unfold notification_text.
      split; [by destruct (last_n 8 _) | done].
    + destruct (send_photos_run (first :: others) s1)
        as (s2 & evs2 & E2 & T2 & P2 & M2).
      rewrite E2.
      eexists _, (EvSendMessage _ :: evs1 ++ evs2)%list, _, _.
      split; [reflexivity |].
      split; [by rewrite T2, T1, <- !app_assoc |].
      split; [exact Hsplit |]. split; [exact Hlen |].
      cbn [messages_sent photos_sent].
      rewrite messages_sent_app, photos_sent_app, P1, M1, P2, M2.
      unfold notification_text.
      split; [by destruct (last_n 8 _) | done].
Qed.

(** ** The click helper *)

Lemma try_selector_cases description sel s :
  (∃ s', try_selector description sel s = (Ok None, s')
         ∧ ∀ sels w, tried (world s') sels w → tried (world s) (sel :: sels) w)
  ∨ (∃ s' w1, try_selector description sel s = (Ok (Some true), s')
              ∧ locator_is_visible (mkLocator sel true) 3000 (world s)
                = (w1, inr true)
              ∧ locator_click (mkLocator sel true) w1 = (world s', inr tt)).
Proof.
  destruct (try_selector description sel s) as [r s'] eqn:E.
  unfold try_selector, try_bare in E.
  unfold bind at 1, call at 1 in E.
  destruct (locator_is_visible _ _ _) as [w1 [e|[|]]] eqn:Hv; cbn [world] in E.
  - injection E as <- <-. left. eexists. split; [reflexivity |].
    cbn [world]. intros sels w Ht. by eapply tried_visible_raises.
  - unfold bind at 1, call at 1 in E. cbn [world] in E.
    destruct (locator_click _ _) as [w2 [e|[]]] eqn:Hc; cbn [world] in E.
    + injection E as <- <-. left. eexists. split; [reflexivity |].
      cbn [world]. intros sels w Ht. by eapply tried_click_raises.
    + rewrite bind_ok with (1 := log_eq _ _ _) in E. injection E as <- <-.
      right. eexists _, w1. by repeat split.
  - injection E as <- <-. left. eexists. split; [reflexivity |].
    cbn [world]. intros sels w Ht. by eapply tried_hidden.
Qed.

Lemma find_and_click_loop description sels s :
  ∃ r s',
    for_each sels (try_selector description) s = (Ok r, s')
    ∧ match r with
      | Some b => b = true ∧ ∃ sel, clicked (world s) sels sel (world s')
      | None => tried (world s) sels (world s')
      end.
Proof.
  revert s. induction sels as [|sel sels IH]; intros s; cbn [for_each].
  - exists None, s. split; [done | constructor].
  - destruct (try_selector_cases description sel s)
      as [(s1 & E1 & Hfail) | (s1 & w1 & E1 & Hv & Hc)].
    + rewrite bind_ok with (1 := E1).
      destruct (IH s1) as (r & s' & E & Hr). exists r, s'. split; [done |].
      destruct r as [b|]; [| by apply Hfail].
      destruct Hr as (-> & sel' & before & after & wa & wb & -> & Ht & Hv & Hc).
      split; [done |]. exists sel', (sel :: before), after, wa, wb.
      repeat split; try done. by apply Hfail.
    + rewrite bind_ok with (1 := E1). exists (Some true), s1.
      split; [done |]. split; [done |].
      exists sel, [], sels, (world s), w1. repeat split; try done.
      constructor.
Qed.

(** C8, as the code has it.  For every list of candidates
    [find_and_click] returns and never raises.  It goes through the
    candidates in order and passes over one that is not visible, or whose
    visibility test or click raises; it returns [True] after the click on
    the first candidate that is visible and takes the click, and [False]
    when every candidate was passed over. *)
Theorem find_and_click_first_clickable sels description s :
  ∃ b s',
    find_and_click sels description s = (Ok b, s')
    ∧ if b then ∃ sel, clicked (world s) sels sel (world s')
      else tried (world s) sels (world s').
Proof.
  destruct (find_and_click_loop description sels s) as (r & s' & E & Hr).
  unfold find_and_click. rewrite bind_ok with (1 := E).
  destruct r as [b|].
  - destruct Hr as [-> Hclicked]. by exists true, s'.
  - by exists false, s'.
Qed.

(** ** The cookies that are kept *)

Lemma claw_in_domain_str c :
  domain_is_str c → claw_in_domain c = inr (has_claw c).
Proof.
  intros Hstr. unfold claw_in_domain, has_claw.
  destruct (c !! "domain") as [v|] eqn:Hd; [| done].
  destruct (Hstr v Hd) as [d ->]. done.
Qed.

Lemma claw_filter_str cookies :
  Forall domain_is_str cookies →
  claw_filter cookies = inr (List.filter has_claw cookies).
Proof.
  induction 1 as [|c cookies Hc _ IH]; [done |].
  cbn [claw_filter List.filter].
  rewrite (claw_in_domain_str c Hc), IH. by destruct (has_claw c).
Qed.

(** C1, as the code has it.  The final URL passes the test of the code for
    the target domain off the sign-in path, the browser hands out its
    cookies, and the domain of each is a string.  Then the cookies kept are
    exactly those whose domain contains [claw], in the order of the
    browser.  When none is kept [verify_login] returns [False] and writes
    no file; otherwise it writes the kept cookies, and nothing else, to
    [cookies.json] and returns [True] (or raises what the writing
    raises). *)
Theorem verify_login_keeps_claw_cookies s w1 title w2 cookies w3 written :
  on_claw_cloud (page_url (world s)) = true →
  page_title (world s) = (w1, inr title) →
  context_cookies w1 = (w2, inr cookies) →
  Forall domain_is_str cookies →
  json_dump_to "cookies.json" (List.filter has_claw cookies) w2
  = (w3, written) →
  ∃ s' evs,
    trace s' = (trace s ++ [EvTitle; EvCookies] ++ evs)%list
    ∧ match List.filter has_claw cookies with
      | [] => verify_login s = (Ok false, s') ∧ evs = []
      | kept =>
          verify_login s
          = (match written with inl e => Raise e | inr _ => Ok true end, s')
          ∧ evs = [EvDump "cookies.json" kept]
      end.
Proof.
  intros Hurl Htitle Hcookies Hstr Hdump.
  apply andb_prop in Hurl as [Hclaw Hsignin].
  apply negb_true_iff in Hsignin.
  destruct (verify_login s) as [r s'] eqn:E.
  unfold verify_login in E.
  unfold bind at 1, get_world at 1 in E.
  rewrite bind_ok with (1 := log_eq _ _ _) in E.
  unfold bind at 1, call at 1 in E. cbn [world] in E. rewrite Htitle in E.
  rewrite bind_ok with (1 := log_eq _ _ _) in E.
  rewrite Hclaw, Hsignin in E. cbn [negb] in E.
  unfold bind at 1, call at 1 in E. cbn [world] in E. rewrite Hcookies in E.
  unfold bind at 1, lift at 1 in E. rewrite (claw_filter_str _ Hstr) in E.
  destruct (List.filter has_claw cookies) as [|c kept] eqn:Hkept.
  - rewrite bind_ok with (1 := log_eq _ _ _) in E. injection E as <- <-.
    eexists _, []. split; [| by split].
    cbn [trace]. by rewrite <- app_assoc.
  - rewrite bind_ok with (1 := log_eq _ _ _) in E.
    unfold bind at 1, call at 1 in E. cbn [world] in E. rewrite Hdump in E.
    eexists s', [_]. split; [| split; [| reflexivity]].
    + destruct written as [e|[]]; injection E as <- <-;
        cbn [trace]; by rewrite <- !app_assoc.
    + destruct written as [e|[]]; by injection E as <- <-.
Qed.

(** ** The redirect-wait loop *)

Local Open Scope nat_scope.

Lemma polls_app evs1 evs2 : polls (evs1 ++ evs2) = polls evs1 + polls evs2.
Proof. unfold polls. by rewrite List.filter_app, length_app. Qed.

Lemma polls_none evs : forallb not_poll_sleep evs = true → polls evs = 0.
Proof.
  unfold polls, not_poll_sleep. induction evs as [|e evs IH]; [done |].
  cbn. intros [He Hevs]%andb_prop.
  apply negb_true_iff in He. rewrite He. by apply IH.
Qed.

Lemma handle_oauth_no_poll : emits not_poll_sleep (handle_oauth;; @ret W unit tt).
Proof. emits_tac. Qed.

Lemma wait_redirect_continue_run i url s r s' :
  wait_redirect_continue i url s = (r, s') →
  ∃ evs, trace s' = (trace s ++ evs)%list
         ∧ polls evs ≤ 1 ∧ (r = Ok tt → polls evs = 1).
Proof.
  unfold wait_redirect_continue. intros E. unfold bind at 1 in E.
  destruct (when_ _ _ s) as [r1 s1] eqn:E1.
  assert (∃ evs1, trace s1 = (trace s ++ evs1)%list ∧ polls evs1 = 0)
    as (evs1 & T1 & P1).
  { assert (emits not_poll_sleep
              (when_ (py_in "github.com/login/oauth/authorize" url)
                     (handle_oauth;; @ret W unit tt))) as Hev
      by (apply emits_when, handle_oauth_no_poll).
    destruct (Hev _ _ _ E1) as (evs1 & T1 & F1).
    exists evs1. split; [done | by apply polls_none]. }
  destruct r1 as [[]|e|c].
  - unfold bind at 1, call_total at 1 in E.
    assert (r = Ok tt ∧ trace s' = (trace s1 ++ [EvSleep 1])%list) as [-> T].
    { destruct (i mod 10 =? 0)%nat; cbn [when_] in E.
      - rewrite log_eq in E. by injection E as <- <-.
      - by injection E as <- <-. }
    exists (evs1 ++ [EvSleep 1])%list.
    rewrite T, T1, polls_app, P1, app_assoc. cbn. by repeat split.
  - injection E as <- <-. exists evs1. rewrite P1. repeat split; [done | lia | done].
  - injection E as <- <-. exists evs1. rewrite P1. repeat split; [done | lia | done].
Qed.

Lemma wait_redirect_body_success i s :
  on_claw_cloud (page_url (world s)) = true →
  ∃ s', wait_redirect_body i s = (Ok (Some true), s') ∧ trace s' = trace s.
Proof.
  intros Hurl. unfold wait_redirect_body. unfold bind at 1, get_world at 1.
  rewrite Hurl, bind_ok with (1 := log_eq _ _ _). unfold ret. eauto.
Qed.

Lemma wait_redirect_body_stuck i s :
  on_claw_cloud (page_url (world s)) = false →
  15 < i →
  on_github_login (page_url (world s)) = true →
  ∃ s', wait_redirect_body i s = (Ok (Some false), s')
        ∧ trace s' = trace s
        ∧ last (logs (self s')) = Some "❌ 卡在 GitHub 页面".
Proof.
  intros Hurl Hi Hgithub. unfold wait_redirect_body.
  unfold bind at 1, get_world at 1. rewrite Hurl, Hgithub.
  apply Nat.ltb_lt in Hi. rewrite Hi. cbn [andb].
  rewrite bind_ok with (1 := log_eq _ _ _). unfold ret.
  eexists. repeat split. cbn [self logs with_logs]. by rewrite last_snoc.
Qed.

Lemma wait_redirect_body_goes_on i s :
  goes_on i (page_url (world s)) = true →
  wait_redirect_body i s
  = (wait_redirect_continue i (page_url (world s));; ret None) s.
Proof.
  unfold goes_on. intros [Hurl Hstuck]%andb_prop.
  apply negb_true_iff in Hurl, Hstuck.
  unfold wait_redirect_body. unfold bind at 1, get_world at 1.
  by rewrite Hurl, Hstuck.
Qed.

Lemma wait_redirect_body_run i s r s' :
  wait_redirect_body i s = (r, s') →
  ∃ evs, trace s' = (trace s ++ evs)%list ∧ polls evs ≤ 1.
Proof.
  intros E. unfold wait_redirect_body in E.
  unfold bind at 1, get_world at 1 in E.
  destruct (on_claw_cloud _).
  { rewrite bind_ok with (1 := log_eq _ _ _) in E. injection E as <- <-.
    exists []. rewrite app_nil_r. split; [done | cbn; lia]. }
  destruct (_ && _).
  { rewrite bind_ok with (1 := log_eq _ _ _) in E. injection E as <- <-.
    exists []. rewrite app_nil_r. split; [done | cbn; lia]. }
  unfold bind at 1 in E.
  destruct (wait_redirect_continue _ _ _) as [r1 s1] eqn:E1.
  destruct (wait_redirect_continue_run _ _ _ _ _ E1) as (evs & T & Hle & _).
  exists evs. split; [| done].
  by destruct r1; injection E as <- <-.
Qed.

(** The loop runs at most as many iterations as it was given. *)
Lemma wait_redirect_loop_bound n i s r s' :
  for_each (seq i n) wait_redirect_body s = (r, s') →
  ∃ evs, trace s' = (trace s ++ evs)%list ∧ polls evs ≤ n.
Proof.
  revert i s. induction n as [|n IH]; intros i s E; cbn [seq for_each] in E.
  - injection E as <- <-. exists []. rewrite app_nil_r. split; [done | cbn; lia].
  - unfold bind at 1 in E.
    destruct (wait_redirect_body i s) as [r1 s1] eqn:E1.
    destruct (wait_redirect_body_run _ _ _ _ E1) as (evs1 & T1 & P1).
    destruct r1 as [[b|]|e|c].
    + injection E as <- <-. exists evs1. split; [done | lia].
    + destruct (IH _ _ E) as (evs & T & P).
      exists (evs1 ++ evs)%list. rewrite T, T1, app_assoc, polls_app.
      split; [done | lia].
    + injection E as <- <-. exists evs1. split; [done | lia].
    + injection E as <- <-. exists evs1. split; [done | lia].
Qed.

(** As long as no test fires and nothing raises, the loop goes from one
    iteration to the next. *)
Lemma wait_redirect_loop_goes_on k :
  ∀ n i s sk,
    poll_from i k s = Some sk →
    k ≤ n →
    (∀ j sj, j < k → poll_from i j s = Some sj →
             goes_on (i + j) (page_url (world sj)) = true) →
    for_each (seq i n) wait_redirect_body s
    = for_each (seq (i + k) (n - k)) wait_redirect_body sk
    ∧ ∃ evs, trace sk = (trace s ++ evs)%list ∧ polls evs = k.
Proof.
  induction k as [|k IH]; intros n i s sk Hp Hle Hgo.
  - injection Hp as <-. rewrite Nat.add_0_r, Nat.sub_0_r.
    split; [done |]. exists []. by rewrite app_nil_r.
  - destruct n as [|n]; [lia |]. cbn [poll_from] in Hp.
    destruct (wait_redirect_continue i _ s) as [[[]|e|c] s1] eqn:Ec;
      try done.
    assert (goes_on i (page_url (world s)) = true) as Hg0.
    { rewrite <- (Nat.add_0_r i). apply Hgo; [lia | done]. }
    destruct (IH n (S i) s1 sk Hp) as [Eloop (evs & T & Hpolls)]; [lia | |].
    { intros j sj Hj Hpj. replace (S i + j) with (i + S j) by lia.
      apply Hgo; [lia |]. cbn [poll_from]. by rewrite Ec. }
    split.
    + cbn [seq for_each]. unfold bind at 1.
      rewrite (wait_redirect_body_goes_on _ _ Hg0).
      rewrite bind_ok with (1 := Ec). unfold ret. rewrite Eloop.
      by replace (S i + k) with (i + S k) by lia.
    + destruct (wait_redirect_continue_run _ _ _ _ _ Ec)
        as (evs1 & T1 & _ & H1).
      exists (evs1 ++ evs)%list.
      rewrite T, T1, app_assoc, polls_app, H1, Hpolls; done.
Qed.

Lemma wait_redirect_eq max_wait s :
  wait_redirect max_wait s
  = (r <- for_each (seq 0 max_wait) wait_redirect_body;;
     match r with
     | Some b => ret b
     | None => log "重定向超时" ERROR;; ret false
     end) (wait_redirect_entry max_wait s).
Proof. reflexivity. Qed.

Lemma wait_redirect_entry_trace max_wait s :
  trace (wait_redirect_entry max_wait s)
  = (trace s ++ [EvWaitRedirect max_wait])%list.
Proof. reflexivity. Qed.

Lemma url_seen_goes_on max_wait k s :
  (∀ j, j < k → ∃ url, url_seen max_wait j s = Some url
                        ∧ goes_on j url = true) →
  ∀ j sj, j < k →
    poll_from 0 j (wait_redirect_entry max_wait s) = Some sj →
    goes_on (0 + j) (page_url (world sj)) = true.
Proof.
  intros Hseen j sj Hj Hp. destruct (Hseen j Hj) as (url & Hu & Hg).
  unfold url_seen in Hu. rewrite Hp in Hu. by injection Hu as <-.
Qed.

Lemma for_each_returns {X A} (body : X → M W (option A)) x xs s a s' :
  body x s = (Ok (Some a), s') →
  for_each (x :: xs) body s = (Ok (Some a), s').
Proof. intros E. cbn [for_each]. by rewrite bind_ok with (1 := E). Qed.

Lemma url_seen_state max_wait i s url :
  url_seen max_wait i s = Some url →
  ∃ si, poll_from 0 i (wait_redirect_entry max_wait s) = Some si
        ∧ page_url (world si) = url.
Proof.
  unfold url_seen. destruct (poll_from _ _ _) as [si|]; [| done].
  intros [= <-]. by exists si.
Qed.

(** C2, as the code has it.  The URLs that the iterations with the indices
    0 to 16 read are all on the login or session paths of GitHub, and none
    of them passes the success test of the code.  Then the iterations 0 to
    15 run to their end, the test for a stuck login being off for them, and
    the iteration with index 16 returns [False]: 16 of the 45 iterations
    were used. *)
Theorem wait_redirect_stuck_on_github s :
  (∀ i, i ≤ 16 →
        ∃ url, url_seen 45 i s = Some url
               ∧ on_github_login url = true ∧ on_claw_cloud url = false) →
  ∃ s' evs,
    wait_redirect 45 s = (Ok false, s')
    ∧ trace s' = (trace s ++ evs)%list
    ∧ polls evs = 16
    ∧ polls evs < 45
    ∧ last (logs (self s')) = Some "❌ 卡在 GitHub 页面".
Proof.
  intros Hseen.
  destruct (Hseen 16 (le_n _)) as (url & Hu & Hgithub & Hclaw).
  destruct (url_seen_state _ _ _ _ Hu) as (s16 & Hp & <-).
  destruct (wait_redirect_loop_goes_on 16 45 0 _ s16 Hp) as [Eloop (evs & T & P)].
  { lia. }
  { apply url_seen_goes_on. intros j Hj.
    destruct (Hseen j) as (u & Hj1 & _ & Hj3); [lia |].
    exists u. split; [done |]. unfold goes_on. rewrite Hj3.
    assert ((15 <? j) = false) as -> by (apply Nat.ltb_ge; lia). done. }
  destruct (wait_redirect_body_stuck 16 s16 Hclaw) as (s' & E & T' & Hlog);
    [lia | done |].
  exists s', (EvWaitRedirect 45 :: evs)%list.
  split; [| split; [| split; [| split]]].
  - rewrite wait_redirect_eq, bind_ok with (a := Some false) (s1 := s');
      [done |].
    rewrite Eloop. change (seq (0 + 16) (45 - 16)) with (16 :: seq 17 28).
    by apply for_each_returns.
  - rewrite T', T, wait_redirect_entry_trace. by rewrite <- app_assoc.
  - change (polls (EvWaitRedirect 45 :: evs)) with (polls evs). exact P.
  - change (polls (EvWaitRedirect 45 :: evs)) with (polls evs). lia.
  - exact Hlog.
Qed.

(** C4, as the code has it.  [wait_redirect] is a total function, and
    whatever it returns or raises, it has run at most 45 iterations to
    their end.  When the iteration with index [k < 45] reads a URL that
    passes the success test, and the iterations before it neither pass it
    nor find the login stuck (a login or session URL of GitHub at an index
    above 15) nor raise, the loop returns [True] after [k] full
    iterations.  When all 45 iterations go on in this way, it logs the
    timeout and returns [False]. *)
Theorem wait_redirect_bounded s :
  (∀ r s', wait_redirect 45 s = (r, s') →
           ∃ evs, trace s' = (trace s ++ evs)%list ∧ polls evs ≤ 45)
  ∧ (∀ k, k < 45 →
          (∀ j, j < k → ∃ url, url_seen 45 j s = Some url
                               ∧ goes_on j url = true) →
          (∃ url, url_seen 45 k s = Some url ∧ on_claw_cloud url = true) →
          ∃ s' evs,
            wait_redirect 45 s = (Ok true, s')
            ∧ trace s' = (trace s ++ evs)%list
            ∧ polls evs = k)
  ∧ ((∀ j, j < 45 → ∃ url, url_seen 45 j s = Some url
                            ∧ goes_on j url = true) →
     is_Some (url_seen 45 45 s) →
     ∃ s' evs,
       wait_redirect 45 s = (Ok false, s')
       ∧ trace s' = (trace s ++ evs)%list
       ∧ polls evs = 45
       ∧ last (logs (self s')) = Some "❌ 重定向超时").
Proof.
  split; [| split].
  - intros r s' E. rewrite wait_redirect_eq in E. unfold bind at 1 in E.
    destruct (for_each _ _ _) as [r1 s1] eqn:E1.
    destruct (wait_redirect_loop_bound _ _ _ _ _ E1) as (evs & T & P).
    rewrite wait_redirect_entry_trace in T.
    exists (EvWaitRedirect 45 :: evs)%list.
    change (polls (EvWaitRedirect 45 :: evs)) with (polls evs).
    split; [| done].
    assert (trace s' = trace s1) as ->; [| by rewrite T, <- app_assoc].
    destruct r1 as [[b|]|e|c]; by injection E as <- <-.
  - intros k Hk Hseen (url & Hu & Hclaw).
    destruct (url_seen_state _ _ _ _ Hu) as (sk & Hp & <-).
    destruct (wait_redirect_loop_goes_on k 45 0 _ sk Hp)
      as [Eloop (evs & T & P)]; [lia | by apply url_seen_goes_on |].
    destruct (wait_redirect_body_success (0 + k) sk Hclaw) as (s' & E & T').
    exists s', (EvWaitRedirect 45 :: evs)%list.
    split; [| split].
    + rewrite wait_redirect_eq, bind_ok with (a := Some true) (s1 := s');
        [done |].
      rewrite Eloop. destruct (45 - k) as [|m] eqn:Hm; [lia |].
      cbn [seq]. by apply for_each_returns.
    + rewrite T', T, wait_redirect_entry_trace. by rewrite <- app_assoc.
    + exact P.
  - intros Hseen [url Hu].
    destruct (url_seen_state _ _ _ _ Hu) as (s45 & Hp & _).
    destruct (wait_redirect_loop_goes_on 45 45 0 _ s45 Hp)
      as [Eloop (evs & T & P)]; [lia | by apply url_seen_goes_on |].
    eexists _, (EvWaitRedirect 45 :: evs)%list.
    split; [| split; [| split]].
    + rewrite wait_redirect_eq, bind_ok with (a := None) (s1 := s45).
      * rewrite bind_ok with (1 := log_eq _ _ _). reflexivity.
      * rewrite Eloop. by rewrite Nat.sub_diag.
    + cbn [trace]. rewrite T, wait_redirect_entry_trace.
      by rewrite <- app_assoc.
    + exact P.
    + cbn [self logs with_logs]. by rewrite last_snoc.
Qed.

(** * Further properties of the script *)

(** ** The notifier (lines 19-62) *)

(** X1.  With the notifier configured, [send_message] never raises and
    leaves the script's own state alone; it returns [True] exactly when
    the request is answered with status 200.  An exception of the HTTP
    client, or another status, gives [False]. *)
Theorem send_message_result message s :
  enabled (telegram (self s)) = true →
  ∃ b s',
    send_message message s = (Ok b, s')
    ∧ self s' = self s
    ∧ (b = true ↔
       ∃ w', requests_post (telegram_url (telegram (self s)) "sendMessage")
               (message_form (telegram (self s)) message) None 30 (world s)
             = (w', inr 200%Z)).
Proof.
  intros Henabled.
  unfold send_message, bind, emit, get_self, try_except, call, ret, print.
  cbn [self world]. rewrite Henabled. cbn [negb].
  change ("https://api.telegram.org/bot" +:+ str_opt (bot_token (telegram (self s)))
          +:+ "/sendMessage")
    with (telegram_url (telegram (self s)) "sendMessage").
  change [("chat_id", str_opt (chat_id (telegram (self s)))); ("text", message);
          ("parse_mode", "HTML")]
    with (message_form (telegram (self s)) message).
  destruct (requests_post _ _ _ _ _) as [w' [e|code]] eqn:Hpost; cbn.
  - eexists _, _. repeat split; try done. by intros (w'' & [=]).
  - eexists _, _. repeat split; try done.
    + intros Hcode. apply Z.eqb_eq in Hcode. subst code. by exists w'.
    + intros (w'' & [= _ ->]). reflexivity.
Qed.

(** X2.  With the notifier configured, [send_photo] never raises and leaves
    the script's own state alone.  It returns [True] exactly when the file
    exists, can be opened, and the request is answered with status 200;
    for a missing file it returns [False] without opening or posting
    anything. *)
Theorem send_photo_result path caption s :
  enabled (telegram (self s)) = true →
  ∃ b s',
    send_photo path caption s = (Ok b, s')
    ∧ self s' = self s
    ∧ (b = true ↔
       os_path_exists path (world s) = true
       ∧ ∃ w1 w2,
           open_rb path (world s) = (w1, inr tt)
           ∧ requests_post (telegram_url (telegram (self s)) "sendPhoto")
               (photo_form (telegram (self s)) caption) (Some path) 60 w1
             = (w2, inr 200%Z))
    ∧ (os_path_exists path (world s) = false →
       trace s' = (trace s ++ [EvSendPhoto path caption])%list
       ∧ world s' = world s).
Proof.
  intros Henabled.
  unfold send_photo, bind, emit, get_self, get_world, try_except, call, ret,
    print.
  cbn [self world]. rewrite Henabled. cbn [negb orb].
  change ("https://api.telegram.org/bot" +:+ str_opt (bot_token (telegram (self s)))
          +:+ "/sendPhoto")
    with (telegram_url (telegram (self s)) "sendPhoto").
  change [("chat_id", str_opt (chat_id (telegram (self s))));
          ("caption", py_take 1024 caption)]
    with (photo_form (telegram (self s)) caption).
    destruct (os_path_exists path (world s)) eqn:Hexists; cbn [negb self world].
    2: { eexists _, _. split; [done |]. split; [done |]. split; [| done].
       split; [done |]. by intros [? _]. }
  destruct (open_rb path (world s)) as [w1 [e|[]]] eqn:Hopen; cbn.
  { eexists _, _. split; [done |]. split; [done |]. split; [| done].
    split; [done |]. by intros (_ & w1' & w2 & [=] & _). }
  destruct (requests_post _ _ _ _ w1) as [w2 [e|code]] eqn:Hpost; cbn.
  - eexists _, _. split; [done |]. split; [done |]. split; [| done].
    split; [done |].
    intros (_ & w1' & w2' & [= <-] & Hp). by rewrite Hpost in Hp.
  - eexists _, _. split; [done |]. split; [done |]. split; [| done].
    split.
    + intros Hcode. apply Z.eqb_eq in Hcode. subst code.
      split; [done |]. by exists w1, w2.
        + intros (_ & w1' & w2' & [= <-] & Hp). rewrite Hpost in Hp.
      by simplify_eq.
Qed.


(** X4.  [send_notification] never raises, whatever the HTTP client and the
    file system do, and it leaves the script's own state (log, screenshots,
    credentials) as it was. *)
Theorem send_notification_is_safe success error_msg s :
  ∃ s', send_notification success error_msg s = (Ok tt, s')
        ∧ self s' = self s.
Proof.
  assert (∀ message s0, ∃ b s1,
            send_message message s0 = (Ok b, s1) ∧ self s1 = self s0)
    as Hmessage.
  { intros message s0.
    unfold send_message, bind, emit, get_self, try_except, call, ret, print.
    cbn. destruct (negb _); [eauto |].
    destruct (requests_post _ _ _ _ _) as [w' [e|code]]; cbn; eauto. }
  assert (∀ path caption s0, ∃ b s1,
            send_photo path caption s0 = (Ok b, s1) ∧ self s1 = self s0)
    as Hphoto.
  { intros path caption s0.
    unfold send_photo, bind, emit, get_self, get_world, try_except, call,
      ret, print.
    cbn. destruct (_ || _); [eauto |].
    destruct (open_rb _ _) as [w' [e|[]]]; cbn; eauto.
    destruct (requests_post _ _ _ _ _) as [w'' [e|code]]; cbn; eauto. }
  assert (∀ paths s0, ∃ s1,
            send_photos paths s0 = (Ok tt, s1) ∧ self s1 = self s0)
    as Hphotos.
  { induction paths as [|ss rest IH]; intros s0; cbn [send_photos].
    - by exists s0.
    - destruct (Hphoto ss ss s0) as (b & s1 & E1 & Hs1).
      rewrite bind_ok with (1 := E1).
      destruct (IH s1) as (s2 & E2 & Hs2). exists s2. by rewrite E2, Hs2. }
  unfold send_notification.
  unfold bind at 1, emit at 1. unfold bind at 1, get_self at 1. cbn [self].
  destruct (negb _); [by eexists |].
  unfold bind at 1, get_world at 1. cbn [world].
  match goal with
  | |- context [bind (send_message ?m) _ ?s0] =>
      destruct (Hmessage m s0) as (b & s1 & E1 & Hs1)
  end.
  rewrite bind_ok with (1 := E1). cbn [self] in Hs1.
  destruct (screenshots (self s)) as [|first others]; [by exists s1 |].
  destruct (negb success).
  - destruct (Hphotos (first :: others) s1) as (s2 & E2 & Hs2).
    exists s2. by rewrite E2, Hs2.
  - destruct (Hphoto (List.last others first) "最终截图" s1)
      as (b2 & s2 & E2 & Hs2).
    rewrite bind_ok with (1 := E2). exists s2. by rewrite Hs2.
Qed.

(** ** The classifiers of the page (lines 123-150) *)

(** X5.  [check_github_error] never raises and changes nothing of the
    script's own state.  It returns a text exactly when the banner is
    visible and its text can be read; an exception while asking counts as
    no banner. *)
Theorem check_github_error_never_raises s :
  ∃ r s',
    check_github_error s = (Ok r, s')
    ∧ self s' = self s
    ∧ ∀ text,
        r = Some text ↔
        ∃ w1 w2,
          locator_is_visible flash_error 2000 (world s) = (w1, inr true)
          ∧ locator_inner_text flash_error w1 = (w2, inr text).
Proof.
  unfold check_github_error, try_bare, bind, call, ret.
  destruct (locator_is_visible flash_error 2000 (world s))
    as [w1 [e|[|]]] eqn:Hv; cbn [world self].
  - eexists _, _. split; [done |]. split; [done |].
    intros text. split; [done | by intros (? & ? & [=] & _)].
  - destruct (locator_inner_text flash_error w1) as [w2 [e|text']] eqn:Ht;
      cbn [world self].
    + eexists _, _. split; [done |]. split; [done |].
      intros text. split; [done |].
      intros (? & ? & [= <-] & Ht'). by rewrite Ht in Ht'.
    + eexists _, _. split; [done |]. split; [done |].
      intros text. split.
      * intros [= <-]. by exists w1, w2.
      * intros (? & ? & [= <-] & Ht'). rewrite Ht in Ht'. by simplify_eq.
  - eexists _, _. split; [done |]. split; [done |].
    intros text. split; [done | by intros (? & ? & [=] & _)].
Qed.

(** X6.  [check_2fa] never raises.  It returns [True] exactly when the URL,
    as it is written, contains [two-factor], or else the one-time-password
    input is reported visible; with the marker in the URL the page is not
    asked at all. *)
Theorem check_2fa_never_raises s :
  ∃ b s',
    check_2fa s = (Ok b, s')
    ∧ self s' = self s
    ∧ (b = true ↔
       py_in "two-factor" (page_url (world s)) = true
       ∨ ∃ w', locator_is_visible otp_input 2000 (world s) = (w', inr true))
    ∧ (py_in "two-factor" (page_url (world s)) = true → s' = s).
Proof.
  unfold check_2fa, try_bare, bind, get_world, call, ret.
  destruct (py_in "two-factor" (page_url (world s))) eqn:Hurl.
  { exists true, s. repeat split; auto. }
  destruct (locator_is_visible otp_input 2000 (world s))
    as [w1 [e|[|]]] eqn:Hv; cbn [world self].
  - eexists _, _. split; [done |]. split; [done |]. split; [| done].
    split; [done | by intros [? | (? & [=])]].
  - eexists _, _. split; [done |]. split; [done |]. split; [| done].
    split; [intros _; right; by exists w1 | done].
  - eexists _, _. split; [done |]. split; [done |]. split; [| done].
    split; [done | by intros [? | (? & [=])]].
Qed.


(** ** The GitHub form (lines 152-223) *)

Ltac script_cbn :=
  cbn [self world trace stdout screenshot_count screenshots logs username
       password telegram with_logs with_count with_screenshots negb].

(** X8.  When filling the user name, filling the password or clicking the
    submit button raises, [login_github] logs the error and returns
    [False] at once: the failed action is the last thing it does on the
    page. *)
Theorem login_github_stops_at_failed_action s w1 :
  page_screenshot
    (fmt_02d (screenshot_count (self s) + 1) +:+ "_" +:+ "github_登录页" +:+ ".png")
    (world s) = (w1, inr tt) →
  (∀ w2 e,
     locator_fill login_input (username (self s)) w1 = (w2, inl e) →
     ∃ s' shot,
       login_github s = (Ok false, s')
       ∧ trace s'
         = (trace s
            ++ [EvScreenshot shot; EvFill login_input (username (self s))])%list
       ∧ last (logs (self s')) = Some ("❌ 输入用户名失败: " +:+ e))
  ∧ (∀ w2 w3 e,
       locator_fill login_input (username (self s)) w1 = (w2, inr tt) →
       locator_fill password_input (password (self s)) w2 = (w3, inl e) →
       ∃ s' shot,
         login_github s = (Ok false, s')
         ∧ trace s'
           = (trace s
              ++ [EvScreenshot shot; EvFill login_input (username (self s));
                  EvFill password_input (password (self s))])%list
         ∧ last (logs (self s')) = Some ("❌ 输入密码失败: " +:+ e))
  ∧ (∀ w2 w3 w4 w5 e,
       locator_fill login_input (username (self s)) w1 = (w2, inr tt) →
       locator_fill password_input (password (self s)) w2 = (w3, inr tt) →
       page_screenshot
         (fmt_02d (screenshot_count (self s) + 1 + 1) +:+ "_" +:+ "github_已填写"
          +:+ ".png") w3 = (w4, inr tt) →
       locator_click submit_button w4 = (w5, inl e) →
       ∃ s' shot1 shot2,
         login_github s = (Ok false, s')
         ∧ trace s'
           = (trace s
              ++ [EvScreenshot shot1; EvFill login_input (username (self s));
                  EvFill password_input (password (self s));
                  EvScreenshot shot2; EvClick submit_button])%list
         ∧ last (logs (self s')) = Some ("❌ 点击登录失败: " +:+ e)).
Proof.
  intros Hshot.
  split; [| split].
  - intros w2 e Hfill. unfold login_github, login_github_submit.
    unfold screenshot, log, bind, get_self, set_self, print, call,
      try_except, ret.
    script_cbn. rewrite Hshot. script_cbn. rewrite Hfill. script_cbn.
    eexists _, _. split; [reflexivity |]. split.
    + script_cbn. by rewrite <- !app_assoc.
    + script_cbn. apply last_snoc.
  - intros w2 w3 e Hfill Hfill2. unfold login_github, login_github_submit.
    unfold screenshot, log, bind, get_self, set_self, print, call,
      try_except, ret.
    script_cbn. rewrite Hshot. script_cbn. rewrite Hfill. script_cbn.
    rewrite Hfill2. script_cbn.
    eexists _, _. split; [reflexivity |]. split.
    + script_cbn. by rewrite <- !app_assoc.
    + script_cbn. apply last_snoc.
  - intros w2 w3 w4 w5 e Hfill Hfill2 Hshot2 Hclick.
    unfold login_github, login_github_submit.
    unfold screenshot, log, bind, get_self, set_self, print, call,
      try_except, ret.
    script_cbn. rewrite Hshot. script_cbn. rewrite Hfill. script_cbn.
    rewrite Hfill2. script_cbn. rewrite Hshot2. script_cbn.
    rewrite Hclick. script_cbn.
    eexists _, _, _. split; [reflexivity |]. split.
    + script_cbn. by rewrite <- !app_assoc.
    + script_cbn. apply last_snoc.
Qed.


(** ** The OAuth prompt (lines 225-239) *)

(** X10.  Off the authorisation page [handle_oauth] does nothing and
    returns [True].  On it, the result of the click helper is not looked
    at: whether or not a button was clicked, [handle_oauth] waits for the
    page and returns [True]. *)
Theorem handle_oauth_ignores_the_click s :
  (py_in "github.com/login/oauth/authorize" (page_url (world s)) = false →
   handle_oauth s = (Ok true, s))
  ∧ (py_in "github.com/login/oauth/authorize" (page_url (world s)) = true →
     ∀ shot s1 b s2 w3,
       (log "处理 OAuth 授权..." STEP;; screenshot "oauth_授权页") s
       = (Ok shot, s1) →
       find_and_click oauth_selectors "授权按钮" s1 = (Ok b, s2) →
       page_wait_for_load_state "networkidle" 30000 (time_sleep 3 (world s2))
       = (w3, inr tt) →
       ∃ s3, handle_oauth s = (Ok true, s3) ∧ world s3 = w3).
Proof.
      unfold handle_oauth. split.
  - intros Hurl. unfold bind at 1, get_world at 1. cbv beta iota.
    by rewrite Hurl.
  - intros Hurl shot s1 b s2 w3 Hshot Hclick Hwait.
    unfold bind at 1, get_world at 1. cbv beta iota. rewrite Hurl.
    cbn [when_].
        rewrite bind_ok with (1 := log_eq _ _ _) in Hshot.
    rewrite bind_assoc, bind_ok with (1 := log_eq _ _ _).
    rewrite bind_assoc, bind_ok with (1 := Hshot).
    rewrite bind_assoc, bind_ok with (1 := Hclick).
    unfold bind, call_total, call, ret. cbn [world]. rewrite Hwait.
    by eexists.
Qed.

(** ** The redirect-wait loop, for every budget (lines 241-267) *)

Lemma wait_redirect_loop_success n i s s' :
  for_each (seq i n) wait_redirect_body s = (Ok (Some true), s') →
  on_claw_cloud (page_url (world s')) = true.
Proof.
  revert i s. induction n as [|n IH]; intros i s E; cbn [seq for_each] in E.
  - discriminate E.
  - unfold bind at 1 in E.
    destruct (wait_redirect_body i s) as [r1 s1] eqn:E1.
    destruct r1 as [[b|]|e|c]; try discriminate E.
    + injection E as -> <-. unfold wait_redirect_body in E1.
      unfold bind at 1, get_world at 1 in E1.
      destruct (on_claw_cloud (page_url (world s))) eqn:Hurl.
      * rewrite bind_ok with (1 := log_eq _ _ _) in E1.
        by injection E1 as <-.
      * destruct (_ && _).
        -- rewrite bind_ok with (1 := log_eq _ _ _) in E1. discriminate E1.
        -- unfold bind at 1 in E1.
           by destruct (wait_redirect_continue _ _ _) as [[[]|?|?] ?].
    + by apply (IH _ _ E).
Qed.

(** X11.  For every budget [max_wait], [wait_redirect] runs at most
    [max_wait] iterations to their end; it returns [True] only in a state
    whose URL passes the success test; and with a budget of 0 it reads no
    URL, touches nothing and returns [False]. *)
Theorem wait_redirect_budget max_wait s r s' :
  wait_redirect max_wait s = (r, s') →
  (∃ evs, trace s' = (trace s ++ evs)%list ∧ polls evs ≤ max_wait)
  ∧ (r = Ok true → on_claw_cloud (page_url (world s')) = true)
  ∧ (max_wait = 0 → r = Ok false ∧ world s' = world s).
Proof.
  intros E. rewrite wait_redirect_eq in E. unfold bind at 1 in E.
  destruct (for_each _ _ _) as [r1 s1] eqn:E1.
  destruct (wait_redirect_loop_bound _ _ _ _ _ E1) as (evs & T & P).
  rewrite wait_redirect_entry_trace in T.
  split; [| split].
  - exists (EvWaitRedirect max_wait :: evs)%list.
    change (polls (EvWaitRedirect max_wait :: evs)) with (polls evs).
    split; [| done].
    assert (trace s' = trace s1) as ->; [| by rewrite T, <- app_assoc].
    destruct r1 as [[b|]|e|c]; by injection E as <- <-.
    - intros ->. destruct r1 as [[[|]|]|e|c]; try discriminate E.
    injection E as <-. by apply wait_redirect_loop_success in E1.
  - intros ->. cbn [seq for_each] in E1. injection E1 as <- <-.
    rewrite bind_ok with (1 := log_eq _ _ _) in E. by injection E as <- <-.
Qed.

(** ** Verification of the login (lines 269-296) *)

(** X12.  On a URL that fails the test of the code (it has no
    [claw.cloud] in it, or it has [signin] in it, in any case of the
    letters) [verify_login] returns [False] after asking for the title:
    it does not read the cookies and writes no file. *)
Theorem verify_login_refuses_other_pages s w1 title :
  on_claw_cloud (page_url (world s)) = false →
  page_title (world s) = (w1, inr title) →
  ∃ s', verify_login s = (Ok false, s')
        ∧ trace s' = (trace s ++ [EvTitle])%list.
Proof.
  intros Hurl Htitle. unfold verify_login.
  unfold bind at 1, get_world at 1.
  rewrite bind_ok with (1 := log_eq _ _ _).
  unfold bind at 1, call at 1. cbn [world]. rewrite Htitle.
  rewrite bind_ok with (1 := log_eq _ _ _).
  unfold on_claw_cloud in Hurl.
  destruct (py_in "claw.cloud" (page_url (world s))); cbn [negb].
  - cbn [andb] in Hurl. apply negb_false_iff in Hurl. rewrite Hurl.
    rewrite bind_ok with (1 := log_eq _ _ _). by eexists.
  - rewrite bind_ok with (1 := log_eq _ _ _). by eexists.
Qed.

Lemma py_in_app_r (needle prefix hay : string) :
  py_in needle hay = true → py_in needle (prefix +:+ hay) = true.
Proof.
    intros Hin. induction prefix as [|c prefix IH]; [done |].
  change (str_prefix needle (String c (prefix +:+ hay))
          || py_in needle (prefix +:+ hay) = true).
  rewrite IH. apply orb_true_r.
Qed.

Lemma str_suffix_app (suffix hay : string) :
  str_suffix suffix hay = true → ∃ prefix, hay = prefix +:+ suffix.
Proof.
  induction hay as [|c hay IH]; cbn.
  - rewrite orb_false_r. intros ->%String.eqb_eq. by exists EmptyString.
  - intros [->%String.eqb_eq | Hs]%orb_prop.
    + by exists EmptyString.
    + destruct (IH Hs) as [prefix ->]. by exists (String c prefix).
Qed.

(** X13.  The filter of line 285 never loses a cookie of the target: a
    cookie whose domain is [claw.cloud] or ends in [.claw.cloud] is among
    the cookies kept. *)
Theorem claw_cloud_cookies_are_kept (cookies : list Cookie) c :
  In c cookies →
  spec_scoped_to_target c = true →
  In c (List.filter has_claw cookies).
Proof.
  intros Hin Hscoped. apply filter_In. split; [done |].
  unfold spec_scoped_to_target, has_claw in *.
  destruct (c !! "domain") as [[d| | |]|]; try done.
  apply orb_prop in Hscoped as [->%String.eqb_eq | Hs]; [done |].
  destruct (str_suffix_app _ _ Hs) as [prefix ->].
  by apply py_in_app_r.
Qed.

(** ** Keepalive (lines 298-322) *)

(** X14.  Errors of navigation do not fail [keepalive]: when both
    [page.goto] raise, each is logged as a warning, the screenshot is
    taken and [keepalive] returns [True]. *)
Theorem keepalive_survives_navigation_errors s w1 e1 w2 e2 w3 :
  page_goto (CLAW_CLOUD_URL +:+ "/") 30000 (world s) = (w1, inl e1) →
  page_goto (CLAW_CLOUD_URL +:+ "/apps") 30000 w1 = (w2, inl e2) →
  page_screenshot
    (fmt_02d (screenshot_count (self s) + 1) +:+ "_" +:+ "保活完成" +:+ ".png") w2
  = (w3, inr tt) →
  ∃ s' shot,
    keepalive s = (Ok true, s')
    ∧ trace s'
      = (trace s
         ++ [EvGoto (CLAW_CLOUD_URL +:+ "/");
             EvGoto (CLAW_CLOUD_URL +:+ "/apps"); EvScreenshot shot])%list
    ∧ mentions ("⚠️ 访问 控制台 失败: " +:+ e1) (logs (self s')) = true
    ∧ mentions ("⚠️ 访问 应用 失败: " +:+ e2) (logs (self s')) = true.
Proof.
  intros Hgoto1 Hgoto2 Hshot.
  unfold keepalive, keepalive_pages, keepalive_visit. cbn [for_each].
  unfold screenshot, log, bind, get_self, set_self, get_world, print, call,
    try_except, ret.
  script_cbn. rewrite Hgoto1. script_cbn. rewrite Hgoto2. script_cbn.
  rewrite Hshot. script_cbn.
  eexists _, _. split; [reflexivity |]. split; [| split].
  - script_cbn. by rewrite <- !app_assoc.
  - script_cbn. unfold mentions. rewrite !existsb_app. cbn [existsb].
    rewrite String.eqb_refl. by rewrite !orb_true_r.
  - script_cbn. unfold mentions. rewrite !existsb_app. cbn [existsb].
    rewrite String.eqb_refl. by rewrite !orb_true_r.
Qed.

(** X15.  When the first page of [keepalive] ends on the sign-in path, it
    returns [False] at once: the second page is not visited and no
    screenshot is taken. *)
Theorem keepalive_stops_at_signin s w1 w2 :
  page_goto (CLAW_CLOUD_URL +:+ "/") 30000 (world s) = (w1, inr tt) →
  page_wait_for_load_state "networkidle" 15000 w1 = (w2, inr tt) →
  py_in "signin" (lower (page_url w2)) = true →
  ∃ s',
    keepalive s = (Ok false, s')
    ∧ trace s' = (trace s ++ [EvGoto (CLAW_CLOUD_URL +:+ "/"); EvWaitLoad])%list
    ∧ screenshots (self s') = screenshots (self s).
Proof.
  intros Hgoto Hwait Hsignin.
  unfold keepalive, keepalive_pages, keepalive_visit. cbn [for_each].
  unfold log, bind, get_self, set_self, get_world, print, call, try_except,
    ret.
  script_cbn. rewrite Hgoto. script_cbn. rewrite Hwait. script_cbn.
  rewrite Hsignin. script_cbn.
  eexists. split; [reflexivity |]. split; [| done].
  script_cbn. by rewrite <- !app_assoc.
Qed.

(** * Invariants of a run *)

(** ** Relations that every step keeps *)

Section StepRules.
Variable R : St W → option Z → St W → Prop.
Hypothesis Rret : ∀ s, R s None s.
Hypothesis Rseq : ∀ s s1 o s2, R s None s1 → R s1 o s2 → R s o s2.
Hypothesis Rbare : ∀ s c s1 o s2, R s (Some c) s1 → R s1 o s2 → R s o s2.
Hypothesis Rfin : ∀ s o s1 s2, R s o s1 → R s1 None s2 → R s o s2.
Hypothesis Rprint : ∀ s line,
  R s None (mkSt (world s) (self s) (trace s) (stdout s ++ [line])).
Hypothesis Revent : ∀ s w ev,
  is_notification ev = false →
  R s None (mkSt w (self s) (trace s ++ [ev]) (stdout s)).
Hypothesis Rany : ∀ s w ev,
  R s None (mkSt w (self s) (trace s ++ [ev]) (stdout s)).
Hypothesis Rexit : ∀ s c, R s (Some c) s.
Hypothesis Rlog : ∀ message level, steps R (@log W message level).
Hypothesis Rshot : ∀ name, steps R (screenshot name).

Lemma steps_ret {A} (a : A) : steps R (@ret W A a).
Proof. intros s r s' E. injection E as <- <-. apply Rret. Qed.

Lemma steps_sys_exit {A} c : steps R (@sys_exit W A c).
Proof. intros s r s' E. injection E as <- <-. apply Rexit. Qed.

Lemma steps_get_self : steps R (@get_self W).
Proof. intros s r s' E. injection E as <- <-. apply Rret. Qed.

Lemma steps_get_world : steps R (@get_world W).
Proof. intros s r s' E. injection E as <- <-. apply Rret. Qed.

Lemma steps_lift {A} (x : exn + A) : steps R (@lift W A x).
Proof. intros s r s' E. injection E as <- <-. destruct x; apply Rret. Qed.

Lemma steps_print line : steps R (@print W line).
Proof. intros s r s' E. injection E as <- <-. apply Rprint. Qed.

Lemma steps_emit ev : is_notification ev = false → steps R (@emit W ev).
Proof. intros Hev s r s' E. injection E as <- <-. by apply Revent. Qed.

Lemma steps_call {A} ev (f : W → W * (exn + A)) :
  is_notification ev = false → steps R (call ev f).
Proof.
  intros Hev s r s' E. unfold call in E.
  destruct (f (world s)) as [w' [e|a]]; injection E as <- <-;
    by apply Revent.
Qed.

Lemma steps_call_total ev (f : W → W) :
  is_notification ev = false → steps R (call_total ev f).
Proof. intros Hev s r s' E. injection E as <- <-. by apply Revent. Qed.

Lemma steps_emit_any ev : steps R (@emit W ev).
Proof. intros s r s' E. injection E as <- <-. apply Rany. Qed.

Lemma steps_call_any {A} ev (f : W → W * (exn + A)) : steps R (call ev f).
Proof.
  intros s r s' E. unfold call in E.
  destruct (f (world s)) as [w' [e|a]]; injection E as <- <-; apply Rany.
Qed.

Lemma steps_bind {A B} (m : M W A) (k : A → M W B) :
  steps R m → (∀ a, steps R (k a)) → steps R (bind m k).
Proof.
  intros Hm Hk s r s' E. unfold bind in E.
  destruct (m s) as [[a|e|c] s1] eqn:Em.
  - exact (Rseq _ _ _ _ (Hm _ _ _ Em) (Hk a _ _ _ E)).
  - injection E as <- <-. exact (Hm _ _ _ Em).
  - injection E as <- <-. exact (Hm _ _ _ Em).
Qed.

Lemma steps_try_except {A} (m : M W A) (h : exn → M W A) :
  steps R m → (∀ e, steps R (h e)) → steps R (try_except m h).
Proof.
  intros Hm Hh s r s' E. unfold try_except in E.
  destruct (m s) as [[a|e|c] s1] eqn:Em.
  - injection E as <- <-. exact (Hm _ _ _ Em).
  - exact (Rseq _ _ _ _ (Hm _ _ _ Em) (Hh e _ _ _ E)).
  - injection E as <- <-. exact (Hm _ _ _ Em).
Qed.

Lemma steps_try_bare {A} (m h : M W A) :
  steps R m → steps R h → steps R (try_bare m h).
Proof.
  intros Hm Hh s r s' E. unfold try_bare in E.
  destruct (m s) as [[a|e|c] s1] eqn:Em.
  - injection E as <- <-. exact (Hm _ _ _ Em).
  - exact (Rseq _ _ _ _ (Hm _ _ _ Em) (Hh _ _ _ E)).
  - exact (Rbare _ _ _ _ _ (Hm _ _ _ Em) (Hh _ _ _ E)).
Qed.

(** The [finally] suite of [run] is a call that does not raise. *)
Lemma steps_try_finally {A} (m : M W A) ev (f : W → W) :
  is_notification ev = false →
  steps R m → steps R (try_finally m (call_total ev f)).
Proof.
  intros Hev Hm s r s' E. unfold try_finally, call_total in E.
  destruct (m s) as [r1 s1] eqn:Em. injection E as <- <-.
  eapply Rfin; [exact (Hm _ _ _ Em) | by apply Revent].
Qed.

Lemma steps_when c (m : M W unit) : steps R m → steps R (when_ c m).
Proof. intros Hm. destruct c; [done | apply steps_ret]. Qed.

Lemma steps_for_each {X A} (xs : list X) (body : X → M W (option A)) :
  (∀ x, steps R (body x)) → steps R (for_each xs body).
Proof.
  intros Hb. induction xs as [|x xs IH]; cbn [for_each].
  - apply steps_ret.
  - apply steps_bind; [apply Hb |].
    intros [a|]; [apply steps_ret | apply IH].
Qed.

Ltac steps_step :=
  cbv beta;
  lazymatch goal with
  | |- steps _ (bind _ _) => apply steps_bind; [| intros ?]
  | |- steps _ (ret _) => apply steps_ret
  | |- steps _ get_self => apply steps_get_self
  | |- steps _ get_world => apply steps_get_world
  | |- steps _ (print _) => apply steps_print
  | |- steps _ (lift _) => apply steps_lift
  | |- steps _ (emit _) => apply steps_emit; reflexivity
  | |- steps _ (call _ _) => apply steps_call; reflexivity
  | |- steps _ (call_total _ _) => apply steps_call_total; reflexivity
  | |- steps _ (try_except _ _) => apply steps_try_except; [| intros ?]
  | |- steps _ (try_bare _ _) => apply steps_try_bare
  | |- steps _ (try_finally _ _) => apply steps_try_finally; [reflexivity |]
  | |- steps _ (when_ _ _) => apply steps_when
  | |- steps _ (for_each _ _) => apply steps_for_each; intros ?
  | |- steps _ (log _ _) => apply Rlog
  | |- steps _ (screenshot _) => apply Rshot
  | |- steps _ (if ?c then _ else _) => destruct c
  | |- steps _ (match ?x with _ => _ end) => destruct x
  end.

Ltac steps_tac := repeat steps_step.

(** The notifier, for a relation that puts up with every event. *)
Lemma steps_send_message message : steps R (send_message message).
Proof.
  unfold send_message.
  apply steps_bind; [apply steps_emit_any | intros _].
  apply steps_bind; [apply steps_get_self | intros a].
  destruct (negb _); [apply steps_ret |].
  apply steps_try_except; [| intros e; steps_tac].
  apply steps_bind; [apply steps_call_any | intros code; apply steps_ret].
Qed.

Lemma steps_send_photo path caption : steps R (send_photo path caption).
Proof.
  unfold send_photo.
  apply steps_bind; [apply steps_emit_any | intros _].
  apply steps_bind; [apply steps_get_self | intros a].
  apply steps_bind; [apply steps_get_world | intros w].
  destruct (_ || _); [apply steps_ret |].
  apply steps_try_except; [| intros e; steps_tac].
  apply steps_bind; [apply steps_call_any | intros _].
  apply steps_bind; [apply steps_call_any | intros code; apply steps_ret].
Qed.

Lemma steps_send_photos paths : steps R (send_photos paths).
Proof.
  induction paths as [|ss rest IH]; cbn [send_photos].
  - apply steps_ret.
  - apply steps_bind; [apply steps_send_photo | intros _; apply IH].
Qed.

Lemma steps_send_notification success error_msg :
  steps R (send_notification success error_msg).
Proof.
  unfold send_notification.
  apply steps_bind; [apply steps_emit_any | intros _].
  apply steps_bind; [apply steps_get_self | intros a].
  destruct (negb _); [apply steps_ret |].
  apply steps_bind; [apply steps_get_world | intros w].
  apply steps_bind; [apply steps_send_message | intros _].
  destruct (screenshots a); [apply steps_ret |].
  destruct (negb success); [apply steps_send_photos |].
  apply steps_bind; [apply steps_send_photo | intros _; apply steps_ret].
Qed.

(** The methods of [AutoLogin] that [run] calls. *)
Lemma steps_find_and_click sels description :
  steps R (find_and_click sels description).
Proof. unfold find_and_click, try_selector. steps_tac. Qed.

Lemma steps_login_github : steps R login_github.
Proof.
  unfold login_github, login_github_submit, login_github_classify,
    check_github_error, check_device_verification, check_2fa.
  steps_tac.
Qed.

Lemma steps_handle_oauth : steps R handle_oauth.
Proof.
  unfold handle_oauth.
  apply steps_bind; [apply steps_get_world | intros w].
  apply steps_bind; [| intros _; apply steps_ret].
  apply steps_when.
  apply steps_bind; [apply Rlog | intros _].
  apply steps_bind; [apply Rshot | intros _].
  apply steps_bind; [apply steps_find_and_click | intros _].
  steps_tac.
Qed.

Lemma steps_wait_redirect max_wait : steps R (wait_redirect max_wait).
Proof.
  unfold wait_redirect.
  apply steps_bind; [steps_tac | intros _].
  apply steps_bind; [steps_tac | intros _].
  apply steps_bind; [| intros r; steps_tac].
  apply steps_for_each. intros i.
  unfold wait_redirect_body, wait_redirect_continue.
  apply steps_bind; [apply steps_get_world | intros w].
  destruct (on_claw_cloud _); [steps_tac |].
  destruct (_ && _); [steps_tac |].
  apply steps_bind; [| intros _; apply steps_ret].
  apply steps_bind; [| intros _; steps_tac].
  apply steps_when.
  apply steps_bind; [apply steps_handle_oauth | intros _; apply steps_ret].
Qed.

Lemma steps_verify_login : steps R verify_login.
Proof. unfold verify_login. steps_tac. Qed.

Lemma steps_keepalive : steps R keepalive.
Proof. unfold keepalive, keepalive_visit. steps_tac. Qed.

(** The main flow, from what its parts do.  The notification of a failure
    is taken together with the [sys.exit] that follows it. *)
Lemma steps_run_of :
  (∀ sels description, steps R (find_and_click sels description)) →
  steps R login_github →
  (∀ max_wait, steps R (wait_redirect max_wait)) →
  steps R verify_login →
  steps R keepalive →
  (∀ msg, steps R (send_notification false msg;; @sys_exit W unit 1)) →
  (∀ msg line,
     steps R (send_notification false msg;; print line;;
              @sys_exit W unit 1)) →
  steps R (send_notification true EmptyString) →
  steps R run.
Proof.
  intros Hfind Hlogin Hwait Hverify Hkeep Habort Habort_print Hsuccess.
  unfold run, run_setup, run_guarded, run_try, run_except, run_step1,
    run_already_logged_in, run_from_step3, run_from_step4, run_step2,
    run_step3, run_step4, run_step5, run_step6, validate_credentials.
  repeat first
    [ lazymatch goal with
      | |- steps _ (find_and_click _ _) => apply Hfind
      | |- steps _ login_github => apply Hlogin
      | |- steps _ (wait_redirect _) => apply Hwait
      | |- steps _ verify_login => apply Hverify
      | |- steps _ keepalive => apply Hkeep
      | |- steps _ (bind (send_notification false _) (λ _, sys_exit _)) =>
          apply Habort
      | |- steps _ (bind (send_notification false _)
                         (λ _, bind (print _) _)) =>
          apply Habort_print
      | |- steps _ (send_notification true _) => apply Hsuccess
      end
    | steps_step ].
Qed.

Lemma steps_run :
  (∀ success error_msg, steps R (send_notification success error_msg)) →
  steps R run.
Proof.
  intros Hnotify. apply steps_run_of.
  - apply steps_find_and_click.
  - apply steps_login_github.
  - apply steps_wait_redirect.
  - apply steps_verify_login.
  - apply steps_keepalive.
  - intros msg. apply steps_bind; [apply Hnotify | intros _].
    apply steps_sys_exit.
  - intros msg line. apply steps_bind; [apply Hnotify | intros _].
    apply steps_bind; [apply steps_print | intros _]. apply steps_sys_exit.
  - apply Hnotify.
Qed.
End StepRules.

Lemma steps_weaken {A} (R R' : St W → option Z → St W → Prop) (m : M W A) :
  (∀ s o s', R s o s' → R' s o s') → steps R m → steps R' m.
Proof. intros HR Hm s r s' E. exact (HR _ _ _ (Hm _ _ _ E)). Qed.

(** ** The object [self] *)

Lemma account_kept_refl a : account_kept a a.
Proof.
  unfold account_kept. split; [done |]. split; [done |]. split; [done |].
  split; exists []; rewrite app_nil_r; [done |].
  split; [done | cbn; lia].
Qed.

Lemma account_kept_trans a b c :
  account_kept a b → account_kept b c → account_kept a c.
Proof.
  intros (Hu1 & Hp1 & Ht1 & (l1 & Hl1) & (f1 & Hf1 & Hc1))
         (Hu2 & Hp2 & Ht2 & (l2 & Hl2) & (f2 & Hf2 & Hc2)).
  unfold account_kept.
  split; [congruence |]. split; [congruence |]. split; [congruence |].
  split.
  - exists (l1 ++ l2)%list. by rewrite Hl2, Hl1, app_assoc.
  - exists (f1 ++ f2)%list. split; [by rewrite Hf2, Hf1, app_assoc |].
    rewrite length_app. lia.
Qed.

Lemma log_keeps_account message level :
  steps keeps_account (@log W message level).
Proof.
  intros s r s' E. rewrite log_eq in E. injection E as <- <-.
  unfold keeps_account, account_kept. cbn.
  split; [done |]. split; [done |]. split; [done |].
  split; [by eexists |].
  exists []. rewrite app_nil_r. split; [done | cbn; lia].
Qed.

Lemma screenshot_keeps_account name : steps keeps_account (screenshot name).
Proof.
  intros s r s' E. revert E.
  unfold screenshot, log, bind, get_self, set_self, call, print, ret. cbn.
  destruct (page_screenshot _ _) as [w' [e|[]]]; cbn;
    intros E; injection E as <- <-;
    unfold keeps_account, account_kept; cbn;
    (split; [done |]); (split; [done |]); (split; [done |]).
  - split; exists []; rewrite app_nil_r; [done |].
    split; [done | cbn; lia].
  - split; [by eexists |].
    eexists. split; [reflexivity | cbn; lia].
Qed.

Lemma keeps_account_run : steps keeps_account (@run W _).
Proof.
  apply steps_run; unfold keeps_account; cbn.
  - intros s. apply account_kept_refl.
  - intros s s1 o s2. apply account_kept_trans.
  - intros s c s1 o s2. apply account_kept_trans.
  - intros s o s1 s2. apply account_kept_trans.
  - intros s line. apply account_kept_refl.
  - intros s w ev _. apply account_kept_refl.
  - intros s c. apply account_kept_refl.
  - apply log_keeps_account.
  - apply screenshot_keeps_account.
  - intros success error_msg. apply steps_send_notification; cbn.
    + intros s. apply account_kept_refl.
    + intros s s1 o s2. apply account_kept_trans.
    + intros s line. apply account_kept_refl.
    + intros s w ev. apply account_kept_refl.
Qed.

(** X16.  A run never changes the credentials or the settings of the
    notifier; it only adds to the log and to the list of screenshots, and
    the counter of the screenshots grows at least by the number of
    screenshots added (it also counts the ones that failed). *)
Theorem run_keeps_account s : account_kept (self s) (self (snd (run s))).
Proof.
  destruct (run s) as [r s'] eqn:E. exact (keeps_account_run _ _ _ E).
Qed.

(** ** The names of the screenshots *)

Lemma is_digit_digit d :
  d < 10 →
  is_digit (digit d) = true ∧ nat_of_ascii (digit d) - 48 = d.
Proof.
  intros Hd.
  do 10 (destruct d as [|d]; [by vm_compute |]). lia.
Qed.

Lemma dec_go_app fuel : ∀ n acc rest,
  dec_go fuel n acc +:+ rest = dec_go fuel n (acc +:+ rest).
Proof.
  induction fuel as [|f IH]; intros n acc rest; [done |].
  cbn [dec_go]. destruct (n / 10 =? 0); [done |]. by rewrite IH.
Qed.

Lemma read_number_dec_go fuel : ∀ n acc,
  n < fuel →
  ∃ k, ∀ v, read_number v (dec_go fuel n acc) = read_number (v * k + n) acc.
Proof.
  induction fuel as [|f IH]; intros n acc Hn; [lia |].
  cbn [dec_go].
  assert (n mod 10 < 10) as Hm by (apply Nat.mod_upper_bound; lia).
  destruct (is_digit_digit _ Hm) as [Hdigit Hvalue].
  pose proof (Nat.div_mod_eq n 10) as Hdiv.
  destruct (n / 10 =? 0) eqn:Hq.
  - apply Nat.eqb_eq in Hq. exists 10. intros v.
    cbn [read_number]. rewrite Hdigit, Hvalue. f_equal. lia.
  - apply Nat.eqb_neq in Hq.
    destruct (IH (n / 10) (String (digit (n mod 10)) acc)) as [k Hk]; [lia |].
    exists (10 * k). intros v. rewrite Hk.
    cbn [read_number]. rewrite Hdigit, Hvalue. f_equal. lia.
Qed.

(** The counter can be read back from the name of a screenshot. *)
Lemma leading_number_fmt_02d n rest :
  leading_number (fmt_02d n +:+ "_" +:+ rest) = n.
Proof.
  destruct (read_number_dec_go (S n) n ("_" +:+ rest)) as [k Hk]; [lia |].
  unfold leading_number, fmt_02d, str_of_nat.
  destruct (n <? 10).
  - change (read_number 0
              (dec_go (S n) n EmptyString +:+ "_" +:+ rest) = n).
    rewrite dec_go_app. change (EmptyString +:+ "_" +:+ rest)
      with ("_" +:+ rest). by rewrite Hk.
  - rewrite dec_go_app. change (EmptyString +:+ "_" +:+ rest)
      with ("_" +:+ rest). by rewrite Hk.
Qed.

Lemma log_keeps_shots message level :
  steps keeps_shots (@log W message level).
Proof.
  intros s r s' E. rewrite log_eq in E. injection E as <- <-.
  intros Hshots. exact Hshots.
Qed.

Lemma screenshot_keeps_shots name : steps keeps_shots (screenshot name).
Proof.
  intros s r s' E. revert E.
  unfold screenshot, log, bind, get_self, set_self, call, print, ret. cbn.
  destruct (page_screenshot _ _) as [w' [e|[]]]; cbn;
    intros E; injection E as <- <-;
    unfold keeps_shots, shots_ok; cbn; intros [Hnodup Hall].
  - split; [done |].
    eapply Forall_impl; [exact Hall |]. cbn. intros f Hf. lia.
  - assert (leading_number
              (fmt_02d (screenshot_count (self s) + 1) +:+ "_" +:+ name
               +:+ ".png") = screenshot_count (self s) + 1) as Hnew
      by apply leading_number_fmt_02d.
    split.
    + apply NoDup_app. split; [done |]. split; [| apply NoDup_singleton].
      intros f Hf Hf'. apply list_elem_of_singleton in Hf'. subst f.
      rewrite Forall_forall in Hall. specialize (Hall _ Hf). lia.
    + apply Forall_app. split.
      * eapply Forall_impl; [exact Hall |]. cbn. intros f Hf. lia.
      * apply Forall_singleton. lia.
Qed.

Lemma keeps_shots_run : steps keeps_shots (@run W _).
Proof.
  apply steps_run; unfold keeps_shots.
  - intros s Hs. exact Hs.
  - intros s s1 o s2 H1 H2 Hs. exact (H2 (H1 Hs)).
  - intros s c s1 o s2 H1 H2 Hs. exact (H2 (H1 Hs)).
  - intros s o s1 s2 H1 H2 Hs. exact (H2 (H1 Hs)).
  - intros s line Hs. exact Hs.
  - intros s w ev _ Hs. exact Hs.
  - intros s c Hs. exact Hs.
  - apply log_keeps_shots.
  - apply screenshot_keeps_shots.
  - intros success error_msg.
    apply steps_send_notification; unfold keeps_shots.
    + intros s Hs. exact Hs.
    + intros s s1 o s2 H1 H2 Hs. exact (H2 (H1 Hs)).
    + intros s line Hs. exact Hs.
    + intros s w ev Hs. exact Hs.
Qed.

(** X17.  No two screenshots of a run have the same file name, so none
    overwrites another: the counter in front of the name is different for
    each, whatever the labels are and however many are taken. *)
Theorem screenshots_have_distinct_names env (w : W) :
  NoDup (screenshots (self (snd (main env w)))).
Proof.
  unfold main. destruct (run (init_state env w)) as [r s'] eqn:E.
  apply (keeps_shots_run _ _ _ E). split; [apply NoDup_nil_2 | done].
Qed.

(** ** A notifier that is switched off *)

Lemma not_telegram_of_not_notification ev :
  is_notification ev = false → not_telegram_call ev = true.
Proof. by destruct ev. Qed.

Lemma silent_if_disabled_refl s o : silent_if_disabled s o s.
Proof.
  split; [done |]. intros _. exists []. by rewrite app_nil_r.
Qed.

Lemma silent_if_disabled_trans s o1 s1 o s2 :
  silent_if_disabled s o1 s1 → silent_if_disabled s1 o s2 →
  silent_if_disabled s o s2.
Proof.
  intros [Ht1 Hs1] [Ht2 Hs2]. split; [congruence |].
  intros Hoff. destruct (Hs1 Hoff) as (evs1 & T1 & F1).
  destruct Hs2 as (evs2 & T2 & F2); [congruence |].
  exists (evs1 ++ evs2)%list.
  by rewrite T2, T1, app_assoc, forallb_app, F1, F2.
Qed.

Lemma silent_if_disabled_event s w ev :
  not_telegram_call ev = true →
  silent_if_disabled s None (mkSt w (self s) (trace s ++ [ev]) (stdout s)).
Proof.
  intros Hev. split; [done |]. intros _. exists [ev]. cbn. by rewrite Hev.
Qed.

Lemma send_notification_keeps_self success error_msg :
  steps keeps_self (send_notification success error_msg).
Proof.
  apply steps_send_notification; unfold keeps_self; cbn; try done.
  intros s s1 o s2. congruence.
Qed.

Lemma send_notification_silent success error_msg :
  steps silent_if_disabled (send_notification success error_msg).
Proof.
  intros s r s' E. split.
  - by rewrite (send_notification_keeps_self _ _ _ _ _ E).
  - intros Hoff. revert E.
    unfold send_notification, bind, emit, get_self. cbn. rewrite Hoff. cbn.
    intros E. injection E as <- <-. by exists [EvNotify success error_msg].
Qed.

Lemma silent_if_disabled_run : steps silent_if_disabled (@run W _).
Proof.
  apply steps_run.
  - intros s. apply silent_if_disabled_refl.
  - intros s s1 o s2. apply silent_if_disabled_trans.
  - intros s c s1 o s2. apply silent_if_disabled_trans.
  - intros s o s1 s2. apply silent_if_disabled_trans.
  - intros s line. split; [done |]. intros _. exists []. cbn.
    by rewrite app_nil_r.
  - intros s w ev Hev.
    by apply silent_if_disabled_event, not_telegram_of_not_notification.
  - intros s c. apply silent_if_disabled_refl.
  - intros message level s r s' E. rewrite log_eq in E.
    injection E as <- <-. split; [done |]. intros _. exists []. cbn.
    by rewrite app_nil_r.
  - intros name s r s' E. revert E.
    unfold screenshot, log, bind, get_self, set_self, call, print, ret. cbn.
    destruct (page_screenshot _ _) as [w' [e|[]]]; cbn;
      intros E; injection E as <- <-;
      (split; [done |]); intros _; by eexists [_].
  - apply send_notification_silent.
Qed.

(** X18.  Without the token of the bot or without the chat id the notifier
    is switched off for the whole run: its methods are not called, no file
    is opened for it and no HTTP request is made. *)
Theorem disabled_notifier_is_silent env (w : W) :
  truthy (TG_BOT_TOKEN env) = false ∨ truthy (TG_CHAT_ID env) = false →
  forallb not_telegram_call (trace (snd (main env w))) = true.
Proof.
  intros Hmissing.
  assert (enabled (telegram (self (init_state env w))) = false) as Hoff.
  { cbn. destruct Hmissing as [-> | ->]; [done | apply andb_false_r]. }
  unfold main. destruct (run (init_state env w)) as [r s'] eqn:E. cbn [snd].
  destruct (silent_if_disabled_run _ _ _ E) as [_ Hsilent].
  destruct (Hsilent Hoff) as (evs & T & F). by rewrite T.
Qed.

(** ** Leaving the process *)

Lemma quiet_ret s : quiet s None s.
Proof. split; [done |]. exists []. by rewrite app_nil_r. Qed.

Lemma quiet_seq s s1 o s2 : quiet s None s1 → quiet s1 o s2 → quiet s o s2.
Proof.
  intros [_ (evs1 & T1 & F1)] [Ho (evs2 & T2 & F2)]. split; [done |].
  exists (evs1 ++ evs2)%list.
  by rewrite T2, T1, app_assoc, forallb_app, F1, F2.
Qed.

Lemma quiet_bare s c s1 o s2 :
  quiet s (Some c) s1 → quiet s1 o s2 → quiet s o s2.
Proof. by intros [? _]. Qed.

Lemma quiet_print s line :
  quiet s None (mkSt (world s) (self s) (trace s) (stdout s ++ [line])).
Proof. split; [done |]. exists []. cbn. by rewrite app_nil_r. Qed.

Lemma quiet_event s w ev :
  is_notification ev = false →
  quiet s None (mkSt w (self s) (trace s ++ [ev]) (stdout s)).
Proof.
  intros Hev. split; [done |]. exists [ev]. cbn.
  unfold not_notification. by rewrite Hev.
Qed.

Lemma quiet_log message level : steps quiet (@log W message level).
Proof.
  intros s r s' E. rewrite log_eq in E. injection E as <- <-.
  split; [done |]. exists []. cbn. by rewrite app_nil_r.
Qed.

Lemma quiet_screenshot name : steps quiet (screenshot name).
Proof.
  intros s r s' E. revert E.
  unfold screenshot, log, bind, get_self, set_self, call, print, ret. cbn.
  destruct (page_screenshot _ _) as [w' [e|[]]]; cbn;
    intros E; injection E as <- <-; (split; [done |]); by eexists [_].
Qed.

Ltac quiet_rules :=
  solve [ exact quiet_ret | exact quiet_seq | exact quiet_bare
        | exact quiet_print | exact quiet_event | exact quiet_log
        | exact quiet_screenshot ].

Lemma quiet_find_and_click sels description :
  steps quiet (find_and_click sels description).
Proof. apply steps_find_and_click; quiet_rules. Qed.

Lemma quiet_login_github : steps quiet (@login_github W _).
Proof. apply steps_login_github; quiet_rules. Qed.

Lemma quiet_wait_redirect max_wait : steps quiet (wait_redirect max_wait).
Proof. apply steps_wait_redirect; quiet_rules. Qed.

Lemma quiet_verify_login : steps quiet (@verify_login W _).
Proof. apply steps_verify_login; quiet_rules. Qed.

Lemma quiet_keepalive : steps quiet (@keepalive W _).
Proof. apply steps_keepalive; quiet_rules. Qed.

Lemma no_failure_notice evs :
  forallb not_notification evs = true →
  existsb is_failure_notice evs = false.
Proof.
  induction evs as [|ev evs IH]; [done |]. cbn.
  intros [Hev Hevs]%andb_prop. rewrite (IH Hevs), orb_false_r.
  by destruct ev.
Qed.

Lemma telegram_calls_no_failure_notice evs :
  forallb is_telegram_call evs = true →
  existsb is_failure_notice evs = false.
Proof.
  induction evs as [|ev evs IH]; [done |]. cbn.
  intros [Hev Hevs]%andb_prop. rewrite (IH Hevs), orb_false_r.
  by destruct ev.
Qed.

Lemma notified_exit_of_quiet s o s' : quiet s o s' → notified_exit s o s'.
Proof.
  intros [-> (evs & T & F)]. exists evs. split; [done |].
  by apply no_failure_notice.
Qed.

Lemma notified_exit_seq s s1 o s2 :
  notified_exit s None s1 → notified_exit s1 o s2 → notified_exit s o s2.
Proof.
  intros (evs1 & T1 & F1) (evs2 & T2 & F2).
  exists (evs1 ++ evs2)%list. split; [by rewrite T2, T1, app_assoc |].
  rewrite existsb_app, F1. exact F2.
Qed.

Lemma notified_exit_fin s o s1 s2 :
  notified_exit s o s1 → notified_exit s1 None s2 → notified_exit s o s2.
Proof.
  intros (evs1 & T1 & F1) (evs2 & T2 & F2).
  exists (evs1 ++ evs2)%list. split; [by rewrite T2, T1, app_assoc |].
  rewrite existsb_app, F2, orb_false_r. exact F1.
Qed.

Lemma emits_telegram_send_photos paths :
  emits is_telegram_call (send_photos paths).
Proof.
  induction paths as [|ss rest IH]; cbn [send_photos].
  - apply emits_ret.
  - apply emits_bind; [emits_tac | intros _; apply IH].
Qed.

(** A notification is its entry and then calls of the notifier only. *)
Lemma send_notification_calls success error_msg s :
  ∃ s' evs,
    send_notification success error_msg s = (Ok tt, s')
    ∧ trace s' = (trace s ++ EvNotify success error_msg :: evs)%list
    ∧ forallb is_telegram_call evs = true.
Proof.
  destruct (send_notification_total success error_msg s) as ([] & s' & E).
  exists s'. rewrite E. revert E. unfold send_notification.
  unfold bind at 1, emit at 1. intros E.
  lazymatch type of E with
  | ?m ?s0 = _ => assert (emits is_telegram_call m) as Hev
  end.
  { apply emits_bind; [emits_tac | intros a].
    destruct (negb (enabled (telegram a))); [apply emits_ret |].
    apply emits_bind; [emits_tac | intros w].
    apply emits_bind; [emits_tac | intros _].
    destruct (screenshots a); [apply emits_ret |].
    destruct (negb success); [apply emits_telegram_send_photos | emits_tac]. }
  destruct (Hev _ _ _ E) as (evs & T & F). cbn [trace] in T.
  exists evs. split; [done |]. split; [| done].
  by rewrite T, <- app_assoc.
Qed.

Lemma notified_exit_run : steps notified_exit (@run W _).
Proof.
  apply steps_run_of.
  - intros s. apply notified_exit_of_quiet, quiet_ret.
  - intros s s1 o s2. apply notified_exit_seq.
  - intros s o s1 s2. apply notified_exit_fin.
  - intros s line. apply notified_exit_of_quiet, quiet_print.
  - intros s w ev Hev. by apply notified_exit_of_quiet, quiet_event.
  - intros message level.
    apply (steps_weaken quiet); [apply notified_exit_of_quiet |].
    apply quiet_log.
  - intros name.
    apply (steps_weaken quiet); [apply notified_exit_of_quiet |].
    apply quiet_screenshot.
  - intros sels description.
    apply (steps_weaken quiet); [apply notified_exit_of_quiet |].
    apply quiet_find_and_click.
  - apply (steps_weaken quiet); [apply notified_exit_of_quiet |].
    apply quiet_login_github.
  - intros max_wait.
    apply (steps_weaken quiet); [apply notified_exit_of_quiet |].
    apply quiet_wait_redirect.
  - apply (steps_weaken quiet); [apply notified_exit_of_quiet |].
    apply quiet_verify_login.
  - apply (steps_weaken quiet); [apply notified_exit_of_quiet |].
    apply quiet_keepalive.
  - intros msg s r s' E.
    destruct (send_notification_calls false msg s) as (s1 & evs & E1 & T & F).
    rewrite bind_ok with (1 := E1) in E. injection E as <- <-.
    eexists. split; [exact T |]. by split.
  - intros msg line s r s' E.
    destruct (send_notification_calls false msg s) as (s1 & evs & E1 & T & F).
    rewrite bind_ok with (1 := E1) in E. injection E as <- <-.
    eexists. split; [exact T |]. by split.
  - intros s r s' E.
    destruct (send_notification_calls true EmptyString s)
      as (s1 & evs & E1 & T & F).
    rewrite E1 in E. injection E as <- <-.
    eexists. split; [exact T |]. cbn.
    by apply telegram_calls_no_failure_notice.
Qed.

(** X19.  A run leaves the process by [sys.exit] exactly when it has
    entered [send_notification] with the failure flag, and the status is
    then 1: no failure is notified without the exit that follows it, and
    there is no exit without the notification before it.  (A run that ends
    with an exception that nothing catches has notified no failure.) *)
Theorem failure_notice_iff_exit s :
  ∃ evs,
    trace (snd (run s)) = (trace s ++ evs)%list
    ∧ match fst (run s) with
      | SysExit c => c = 1%Z ∧ existsb is_failure_notice evs = true
      | _ => existsb is_failure_notice evs = false
      end.
Proof.
  destruct (run s) as [r s'] eqn:E.
  destruct (notified_exit_run _ _ _ E) as (evs & T & F).
  exists evs. split; [exact T |]. by destruct r.
Qed.

(** ** Returning normally *)

Ltac list_assoc := repeat (rewrite <- ?app_assoc; cbn [app]); reflexivity.

Lemma wrote_cookies_app_l e1 e2 : wrote_cookies e2 → wrote_cookies (e1 ++ e2).
Proof.
  intros (before & cookies & after & -> & Hc).
  exists (e1 ++ before)%list, cookies, after. split; [list_assoc | done].
Qed.

Lemma wrote_cookies_app_r e1 e2 : wrote_cookies e1 → wrote_cookies (e1 ++ e2).
Proof.
  intros (before & cookies & after & -> & Hc).
  exists before, cookies, (after ++ e2)%list. split; [list_assoc | done].
Qed.

Lemma notified_success_app_l e1 e2 :
  notified_success e2 → notified_success (e1 ++ e2).
Proof.
  intros (before & after & ->). exists (e1 ++ before)%list, after.
  list_assoc.
Qed.

Lemma notified_success_app_r e1 e2 :
  notified_success e1 → notified_success (e1 ++ e2).
Proof.
  intros (before & after & ->). exists before, (after ++ e2)%list.
  list_assoc.
Qed.

Lemma verified_then_notified_app_l e1 e2 :
  verified_then_notified e2 → verified_then_notified (e1 ++ e2).
Proof.
  intros (before & cookies & between & after & -> & Hc).
  exists (e1 ++ before)%list, cookies, between, after.
  split; [list_assoc | done].
Qed.

Lemma verified_then_notified_app_r e1 e2 :
  verified_then_notified e1 → verified_then_notified (e1 ++ e2).
Proof.
  intros (before & cookies & between & after & -> & Hc).
  exists before, cookies, between, (after ++ e2)%list.
  split; [list_assoc | done].
Qed.

Lemma wrote_then_notified e1 e2 :
  wrote_cookies e1 → notified_success e2 →
  verified_then_notified (e1 ++ e2).
Proof.
  intros (before & cookies & after & -> & Hc) (before' & after' & ->).
  exists before, cookies, (after ++ before')%list, after'.
  split; [list_assoc | done].
Qed.

Lemma bind_ok_inv {A B} (m : M W A) (k : A → M W B) s b s' :
  bind m k s = (Ok b, s') → ∃ a s1, m s = (Ok a, s1) ∧ k a s1 = (Ok b, s').
Proof.
  unfold bind. destruct (m s) as [[a|e|c] s1]; [eauto | done | done].
Qed.

Lemma bind_never_returns {A B} (m : M W A) (k : A → M W B) :
  (∀ a s b s', k a s ≠ (Ok b, s')) → ∀ s b s', bind m k s ≠ (Ok b, s').
Proof.
  intros Hk s b s' E. apply bind_ok_inv in E as (a & s1 & _ & E).
  exact (Hk _ _ _ _ E).
Qed.

Lemma sys_exit_never_returns {A} c s (a : A) s' :
  @sys_exit W A c s ≠ (Ok a, s').
Proof. done. Qed.

Ltac never_returns :=
  repeat (apply bind_never_returns; intros ?);
  apply sys_exit_never_returns.

Lemma returns_with_bind {A B} (G1 : A → list Event → Prop)
    (G2 : A → B → list Event → Prop) (G : B → list Event → Prop)
    (m : M W A) (k : A → M W B) :
  returns_with G1 m → (∀ a, returns_with (G2 a) (k a)) →
  (∀ a b e1 e2, G1 a e1 → G2 a b e2 → G b (e1 ++ e2)%list) →
  returns_with G (bind m k).
Proof.
  intros Hm Hk HG s b s' E. apply bind_ok_inv in E as (a & s1 & E1 & E2).
  destruct (Hm _ _ _ E1) as (e1 & T1 & H1).
  destruct (Hk a _ _ _ E2) as (e2 & T2 & H2).
  exists (e1 ++ e2)%list. split; [by rewrite T2, T1, app_assoc | eauto].
Qed.

Lemma returns_with_emits {A} (m : M W A) :
  emits any_event m → returns_with (λ _ _, True) m.
Proof.
  intros Hm s a s' E. destruct (Hm _ _ _ E) as (evs & T & _). by exists evs.
Qed.

Lemma returns_with_never {A} (G : A → list Event → Prop) (m : M W A) :
  (∀ s a s', m s ≠ (Ok a, s')) → returns_with G m.
Proof. intros Hm s a s' E. by destruct (Hm _ _ _ E). Qed.

Lemma returns_with_ret {A} (G : A → list Event → Prop) (a : A) :
  G a [] → returns_with G (@ret W A a).
Proof.
  intros HG s a' s' E. injection E as <- <-. exists [].
  by rewrite app_nil_r.
Qed.

Lemma returns_with_weaken {A} (G G' : A → list Event → Prop) (m : M W A) :
  (∀ a evs, G a evs → G' a evs) → returns_with G m → returns_with G' m.
Proof.
  intros HG Hm s a s' E. destruct (Hm _ _ _ E) as (evs & T & Hevs).
  exists evs. eauto.
Qed.

(** Something that may do anything, and then [k]. *)
Lemma returns_with_after {A B} (G : B → list Event → Prop)
    (m : M W A) (k : A → M W B) :
  emits any_event m → (∀ a, returns_with G (k a)) →
  (∀ b e1 e2, G b e2 → G b (e1 ++ e2)%list) →
  returns_with G (bind m k).
Proof.
  intros Hm Hk HG.
  apply returns_with_bind with (G1 := λ _ _, True) (G2 := λ _, G);
    [by apply returns_with_emits | done | eauto].
Qed.

(** [m], and then something that may do anything. *)
Lemma returns_with_before {A B} (G : list Event → Prop)
    (m : M W A) (k : A → M W B) :
  returns_with (λ _, G) m → (∀ a, emits any_event (k a)) →
  (∀ e1 e2, G e1 → G (e1 ++ e2)%list) →
  returns_with (λ _, G) (bind m k).
Proof.
  intros Hm Hk HG.
  apply returns_with_bind with (G1 := λ _, G) (G2 := λ _ _ _, True);
    [done | intros a; by apply returns_with_emits | eauto].
Qed.

Lemma returns_with_when_abort c (m : M W unit)
    (G : unit → list Event → Prop) :
  (∀ s a s', m s ≠ (Ok a, s')) → (c = false → G tt []) →
  returns_with G (when_ c m).
Proof.
  intros Hm HG. destruct c; cbn [when_].
  - by apply returns_with_never.
  - apply returns_with_ret. by apply HG.
Qed.

Ltac emits_any :=
  repeat first
    [ lazymatch goal with
      | |- emits _ (send_notification _ _) =>
          apply emits_send_notification; by intros
      | |- emits _ run_setup => unfold run_setup
      | |- emits _ validate_credentials => unfold validate_credentials
      | |- emits _ run_step1 => unfold run_step1
      | |- emits _ run_step2 => unfold run_step2
      | |- emits _ run_step3 => unfold run_step3
      | |- emits _ run_step4 => unfold run_step4
      end
    | emits_step
    | emits_unfold ].

Lemma verify_login_returns :
  returns_with (λ verified evs, verified = true → wrote_cookies evs)
               (@verify_login W _).
Proof.
  intros s verified s' E.
  assert (emits any_event (@verify_login W _)) as Hev by emits_any.
  destruct (Hev _ _ _ E) as (evs & T & _).
  exists evs. split; [exact T |]. intros ->.
  unfold verify_login in E.
  unfold bind at 1, get_world at 1 in E.
  rewrite bind_ok with (1 := log_eq _ _ _) in E.
  unfold bind at 1, call at 1 in E. cbn [world] in E.
  destruct (page_title (world s)) as [w1 [e|title]]; [done |].
  rewrite bind_ok with (1 := log_eq _ _ _) in E.
  destruct (negb (py_in "claw.cloud" (page_url (world s)))).
  { rewrite bind_ok with (1 := log_eq _ _ _) in E. done. }
  destruct (py_in "signin" (lower (page_url (world s)))).
  { rewrite bind_ok with (1 := log_eq _ _ _) in E. done. }
  unfold bind at 1, call at 1 in E. cbn [world] in E.
  destruct (context_cookies w1) as [w2 [e|cookies]]; [done |].
  unfold bind at 1, lift at 1 in E.
  destruct (claw_filter cookies) as [e|[|c kept]]; [done | |].
  { rewrite bind_ok with (1 := log_eq _ _ _) in E. done. }
  rewrite bind_ok with (1 := log_eq _ _ _) in E.
  unfold bind at 1, call at 1 in E. cbn [world] in E.
  destruct (json_dump_to _ _ w2) as [w3 [e|[]]]; [done |].
  injection E as <-. cbn [trace] in T.
  rewrite <- !app_assoc in T. apply app_inv_head in T. subst evs.
  by exists [EvTitle; EvCookies], (c :: kept), [].
Qed.

Lemma send_notification_returns :
  returns_with (λ _, notified_success)
               (@send_notification W _ true EmptyString).
Proof.
  intros s [] s' E.
  destruct (send_notification_calls true EmptyString s)
    as (s1 & evs & E1 & T & _).
  rewrite E1 in E. injection E as <-.
  eexists. split; [exact T |]. by exists [], evs.
Qed.

Lemma run_step5_returns : returns_with (λ _, wrote_cookies) (@run_step5 W _).
Proof.
  unfold run_step5.
  apply returns_with_after;
    [apply emits_log | intros _ | intros; by apply wrote_cookies_app_l].
  apply returns_with_bind
    with (G1 := λ verified evs, verified = true → wrote_cookies evs)
         (G2 := λ verified _ _, verified = true).
  - apply verify_login_returns.
  - intros verified.
    apply returns_with_when_abort; [never_returns | by destruct verified].
  - intros verified [] e1 e2 H1 H2. apply wrote_cookies_app_r. by apply H1.
Qed.

Lemma success_returns {A} (k : M W A) :
  emits any_event k →
  returns_with (λ _, notified_success)
               (keepalive;; send_notification true EmptyString;; k).
Proof.
  intros Hk.
  apply returns_with_after;
    [emits_any | intros _ | intros; by apply notified_success_app_l].
  apply returns_with_before;
    [apply send_notification_returns | done
    | intros; by apply notified_success_app_r].
Qed.

Lemma run_step6_returns :
  returns_with (λ _, notified_success) (@run_step6 W _).
Proof.
  unfold run_step6.
  apply returns_with_after;
    [apply emits_log | intros _ | intros; by apply notified_success_app_l].
  apply success_returns. emits_any.
Qed.

Lemma run_from_step3_returns :
  returns_with (λ _, verified_then_notified) (@run_from_step3 W _).
Proof.
  unfold run_from_step3, run_from_step4.
  apply returns_with_after;
    [emits_any | intros _ | intros; by apply verified_then_notified_app_l].
  apply returns_with_after;
    [emits_any | intros _ | intros; by apply verified_then_notified_app_l].
  apply returns_with_bind
    with (G1 := λ _, wrote_cookies) (G2 := λ _ _, notified_success).
  - apply run_step5_returns.
  - intros _. apply run_step6_returns.
  - intros _ _ e1 e2. apply wrote_then_notified.
Qed.

Lemma run_already_logged_in_returns :
  returns_with (λ returned evs, returned = true → verified_then_notified evs)
               (@run_already_logged_in W _).
Proof.
  unfold run_already_logged_in.
  apply returns_with_after; [emits_any | intros w |].
  2: { intros b e1 e2 Hb ->. by apply verified_then_notified_app_l, Hb. }
  destruct (negb _); [| by apply returns_with_ret].
  apply returns_with_after; [apply emits_log | intros _ |].
  2: { intros b e1 e2 Hb ->. by apply verified_then_notified_app_l, Hb. }
  apply returns_with_bind
    with (G1 := λ verified evs, verified = true → wrote_cookies evs)
         (G2 := λ verified returned evs,
                  returned = true → verified = true ∧ notified_success evs).
  - apply verify_login_returns.
  - intros [|]; [| by apply returns_with_ret].
    apply returns_with_weaken with (G := λ _, notified_success); [done |].
    apply success_returns. emits_any.
  - intros verified returned e1 e2 H1 H2 Hr.
    destruct (H2 Hr) as [Hv Hn]. by apply wrote_then_notified; [apply H1 |].
Qed.

Lemma run_try_returns :
  returns_with (λ _, verified_then_notified) (@run_try W _).
Proof.
  unfold run_try.
  apply returns_with_after;
    [emits_any | intros _ | intros; by apply verified_then_notified_app_l].
  apply returns_with_bind
    with (G1 := λ returned evs,
                  returned = true → verified_then_notified evs)
         (G2 := λ returned _ evs,
                  returned = false → verified_then_notified evs).
  - apply run_already_logged_in_returns.
  - intros [|]; [by apply returns_with_ret |].
    apply returns_with_weaken with (G := λ _, verified_then_notified);
      [done |].
    apply returns_with_after;
      [emits_any | intros _ | intros; by apply verified_then_notified_app_l].
    apply run_from_step3_returns.
  - intros [|] _ e1 e2 H1 H2.
    + by apply verified_then_notified_app_r, H1.
    + by apply verified_then_notified_app_l, H2.
Qed.

Lemma run_guarded_returns (G : list Event → Prop) (body : M W unit) :
  returns_with (λ _, G) body →
  (∀ e1 e2, G e1 → G (e1 ++ e2)%list) →
  returns_with (λ _, G) (run_guarded body).
Proof.
  intros Hbody HG s [] s' E.
  unfold run_guarded, try_finally, try_except in E.
  destruct (body s) as [[[]|e|c] s1] eqn:Eb.
  - unfold call_total in E. injection E as <-.
    destruct (Hbody _ _ _ Eb) as (evs & T & Hevs).
    exists (evs ++ [EvClose])%list. cbn [trace].
    split; [by rewrite T, app_assoc | by apply HG].
  - destruct (run_except_failed e s1) as (r & s2 & evs & Ee & F & _).
    rewrite Ee in E. unfold call_total in E. by destruct r.
  - unfold call_total in E. done.
Qed.

(** X20.  A run returns normally, which makes the status of the process 0,
    only after [verify_login] has written the file [cookies.json] with at
    least one cookie and, later, [send_notification] was entered with the
    success flag. *)
Theorem normal_return_means_verified s s' :
  run s = (Ok tt, s') →
  ∃ before cookies between after,
    trace s'
    = (trace s ++ before ++ EvDump "cookies.json" cookies
         :: between ++ EvNotify true EmptyString :: after)%list
    ∧ cookies ≠ [].
Proof.
  intros E.
  assert (returns_with (λ _, verified_then_notified) (@run W _)) as Hrun.
  { unfold run.
    apply returns_with_after;
      [emits_any | intros _ | intros; by apply verified_then_notified_app_l].
    apply run_guarded_returns;
      [apply run_try_returns | apply verified_then_notified_app_r]. }
  destruct (Hrun _ _ _ E)
    as (evs & T & before & cookies & between & after & -> & Hc).
  by exists before, cookies, between, after.
Qed.

(** ** The browser (lines 367-378 and 465-466) *)

Ltac emits_not_close :=
  repeat first
    [ lazymatch goal with
      | |- emits _ (send_notification _ _) =>
          apply emits_send_notification; intros ev; by destruct ev
      | |- emits _ run_try => unfold run_try
      | |- emits _ (run_except _) => unfold run_except
      | |- emits _ run_already_logged_in => unfold run_already_logged_in
      | |- emits _ run_from_step3 => unfold run_from_step3
      | |- emits _ run_from_step4 => unfold run_from_step4
      | |- emits _ run_step1 => unfold run_step1
      | |- emits _ run_step2 => unfold run_step2
      | |- emits _ run_step3 => unfold run_step3
      | |- emits _ run_step4 => unfold run_step4
      | |- emits _ run_step5 => unfold run_step5
      | |- emits _ run_step6 => unfold run_step6
      end
    | emits_step
    | emits_unfold ].

(** X21.  Once the browser, its context and its page are there, the
    browser is closed whatever happens next, whether the run returns,
    leaves by [sys.exit] or ends with an exception: [browser.close()] is
    the last thing the run does, and it is called once. *)
Theorem browser_is_closed_at_the_end s s1 :
  run_setup s = (Ok tt, s1) →
  ∃ r s' evs,
    run s = (r, s')
    ∧ trace s' = (trace s1 ++ evs ++ [EvClose])%list
    ∧ forallb not_close evs = true.
Proof.
  intros E. unfold run. rewrite bind_ok with (1 := E).
  unfold run_guarded, try_finally.
  destruct (try_except run_try run_except s1) as [r s2] eqn:Et.
  assert (emits not_close (try_except (@run_try W _) run_except)) as Hev
    by emits_not_close.
  destruct (Hev _ _ _ Et) as (evs & T & F).
  unfold call_total. eexists r, _, evs. split; [reflexivity |].
  cbn [trace]. split; [by rewrite T, app_assoc | exact F].
Qed.

Lemma validate_credentials_ok s :
  truthy (username (self s)) = true → truthy (password (self s)) = true →
  ∃ s', @validate_credentials W s = (Ok true, s')
        ∧ world s' = world s ∧ trace s' = trace s.
Proof.
  intros Hu Hp. unfold validate_credentials.
  unfold bind at 1, get_self at 1. rewrite Hu, Hp. cbn [negb].
  rewrite bind_ok with (1 := log_eq _ _ _).
  rewrite bind_ok with (1 := log_eq _ _ _). unfold ret. eauto.
Qed.

(** With the credentials set, [run] comes to the launch of the browser
    without having touched the world or the trace. *)
Lemma run_setup_valid s :
  truthy (username (self s)) = true → truthy (password (self s)) = true →
  ∃ s0, world s0 = world s ∧ trace s0 = trace s
        ∧ run_setup s
          = (call EvLaunch chromium_launch;;
             call EvNewContext browser_new_context;;
             call EvNewPage context_new_page) s0.
Proof.
  intros Hu Hp. unfold run_setup.
  unfold bind at 1, print at 1. unfold bind at 1, print at 1.
  unfold bind at 1, print at 1.
  match goal with
  | |- context [bind validate_credentials _ ?st] =>
      destruct (validate_credentials_ok st Hu Hp) as (s0 & Hvalid & Hw & Ht)
  end.
  rewrite bind_ok with (1 := Hvalid). cbn [negb when_].
  unfold bind at 1, ret at 1. by exists s0.
Qed.

(** X22.  The browser is started before the [try] statement, so an
    exception of [launch], [new_context] or [new_page] is not handled: the
    run ends with that exception, nothing is notified, and the script does
    not call [browser.close()], also when the browser was already
    launched. *)
Theorem setup_errors_are_not_handled s :
  truthy (username (self s)) = true → truthy (password (self s)) = true →
  (∀ w1 e,
     chromium_launch (world s) = (w1, inl e) →
     ∃ s', run s = (Raise e, s') ∧ trace s' = (trace s ++ [EvLaunch])%list)
  ∧ (∀ w1 w2 e,
       chromium_launch (world s) = (w1, inr tt) →
       browser_new_context w1 = (w2, inl e) →
       ∃ s', run s = (Raise e, s')
             ∧ trace s' = (trace s ++ [EvLaunch; EvNewContext])%list)
  ∧ (∀ w1 w2 w3 e,
       chromium_launch (world s) = (w1, inr tt) →
       browser_new_context w1 = (w2, inr tt) →
       context_new_page w2 = (w3, inl e) →
       ∃ s', run s = (Raise e, s')
             ∧ trace s'
               = (trace s ++ [EvLaunch; EvNewContext; EvNewPage])%list).
Proof.
  intros Hu Hp.
  destruct (run_setup_valid s Hu Hp) as (s0 & Hw & Ht & Hsetup).
  assert (run s
          = bind (call EvLaunch chromium_launch;;
                  call EvNewContext browser_new_context;;
                  call EvNewPage context_new_page)
                 (λ _, run_guarded run_try) s0) as Hrun.
  { unfold run. unfold bind at 1. rewrite Hsetup. reflexivity. }
  rewrite Hrun. clear Hrun Hsetup. split; [| split].
  - intros w1 e Hlaunch. unfold bind, call. rewrite Hw, Hlaunch.
    eexists. split; [reflexivity |]. cbn [trace]. by rewrite Ht.
  - intros w1 w2 e Hlaunch Hcontext. unfold bind, call.
    rewrite Hw, Hlaunch. cbn [world]. rewrite Hcontext.
    eexists. split; [reflexivity |]. cbn [trace].
    by rewrite Ht, <- app_assoc.
  - intros w1 w2 w3 e Hlaunch Hcontext Hpage. unfold bind, call.
    rewrite Hw, Hlaunch. cbn [world]. rewrite Hcontext. cbn [world].
    rewrite Hpage.
    eexists. split; [reflexivity |]. cbn [trace].
    by rewrite Ht, <- !app_assoc.
Qed.

(** ** No button for GitHub (lines 397-411) *)

Lemma give_up_failed message name msg s :
  ∃ r s' evs,
    (log message ERROR;; screenshot name;; send_notification false msg;;
     sys_exit 1) s = (r : Res unit, s')
    ∧ failed r
    ∧ trace s' = (trace s ++ evs)%list ∧ forallb is_passive evs = true.
Proof.
  match goal with |- ∃ _ _ _, ?m s = _ ∧ _ => set (tail := m) end.
  destruct (tail s) as [r s'] eqn:E.
  assert (emits is_passive tail) as Hev.
  { subst tail.
    apply emits_bind; [apply emits_log | intros _].
    apply emits_bind; [by apply emits_screenshot | intros _].
    apply emits_bind;
      [apply emits_send_notification, passive_of_notification | intros _].
    apply emits_sys_exit. }
  destruct (Hev _ _ _ E) as (evs & T & F).
  exists r, s', evs. split; [done |]. split; [| by split].
  destruct r as [[]|e|c]; [| done |].
  - exfalso. revert E. subst tail. never_returns.
  - subst tail. rewrite bind_ok with (1 := log_eq _ _ _) in E.
    unfold bind at 1 in E.
    destruct (screenshot_cases name
                (mkSt (world s)
                   (with_logs (self s)
                      (logs (self s) ++ [icon ERROR +:+ " " +:+ message]))
                   (trace s)
                   (stdout s ++ [icon ERROR +:+ " " +:+ message])))
      as [(f & s1 & Es)|(e & s1 & Es)]; rewrite Es in E; [| done].
    unfold bind at 1 in E.
    destruct (send_notification_total false msg s1) as ([] & s2 & E2).
    rewrite E2 in E. by injection E as <- <-.
Qed.

(** X23.  When none of the four candidates for the GitHub button takes a
    click, the run gives up in step 2: it ends with a status other than 0,
    and from there on it only takes a screenshot, notifies and closes the
    browser; the form of GitHub is not looked for. *)
Theorem missing_github_button_is_fatal s s1 :
  (log "步骤2: 点击 GitHub 登录" STEP;;
   find_and_click github_selectors "GitHub 按钮") s = (Ok false, s1) →
  ∃ out s' evs,
    run_guarded (run_step2;; run_from_step3) s = (out, s')
    ∧ exit_code out ≠ 0%Z
    ∧ trace s' = (trace s1 ++ evs)%list
    ∧ forallb is_passive evs = true.
Proof.
  intros Hfind. rewrite bind_ok with (1 := log_eq _ _ _) in Hfind.
  destruct (give_up_failed "找不到 GitHub 按钮" "找不到按钮"
              "找不到 GitHub 登录按钮" s1)
    as (r & s2 & evs & E & F & T & Fp).
  assert ((run_step2;; run_from_step3) s = (r, s2)) as Hbody.
  { apply bind_failed; [| done]. unfold run_step2.
    rewrite bind_ok with (1 := log_eq _ _ _).
    rewrite bind_ok with (1 := Hfind). cbn [negb when_].
    by apply bind_failed. }
  destruct (run_guarded_failed _ _ _ _ Hbody F)
    as (out & s3 & evs' & E3 & Hc & T3 & Fp3).
  exists out, s3, (evs ++ evs')%list. split; [done |]. split; [done |].
  split; [by rewrite T3, T, app_assoc | by rewrite forallb_app, Fp, Fp3].
Qed.

(** ** The handler of exceptions (lines 457-466) *)

Lemma screenshot_eq name s :
  let filename :=
    fmt_02d (screenshot_count (self s) + 1) +:+ "_" +:+ name +:+ ".png" in
  let counted := with_count (self s) (screenshot_count (self s) + 1) in
  let line := icon INFO +:+ " " +:+ "截图: " +:+ filename in
  screenshot name s
  = match page_screenshot filename (world s) with
    | (w, inl e) =>
        (Raise e, mkSt w counted (trace s ++ [EvScreenshot filename])
                       (stdout s))
    | (w, inr _) =>
        (Ok filename,
         mkSt w
           (with_logs
              (with_screenshots counted (screenshots (self s) ++ [filename]))
              (logs (self s) ++ [line]))
           (trace s ++ [EvScreenshot filename]) (stdout s ++ [line]))
    end.
Proof.
  unfold screenshot, log, bind, get_self, set_self, call, print, ret. cbn.
  by destruct (page_screenshot _ _) as [w' [e|[]]].
Qed.

(** X24.  An exception in the [try] suite is logged and a screenshot named
    after the counter is taken.  When that works, the failure is notified
    with the text of the exception, the browser is closed and the process
    ends with the status 1.  When the screenshot raises as well, its
    exception ends the run: the browser is closed, but nothing is
    notified. *)
Theorem exception_handler_outcome s e s1 :
  run_try s = (Raise e, s1) →
  let shot := fmt_02d (screenshot_count (self s1) + 1) +:+ "_异常.png" in
  (∀ w2,
     page_screenshot shot (world s1) = (w2, inr tt) →
     ∃ s' evs,
       run_guarded run_try s = (SysExit 1, s')
       ∧ trace s'
         = (trace s1 ++ EvScreenshot shot :: EvNotify false e
              :: evs ++ [EvClose])%list
       ∧ forallb is_telegram_call evs = true)
  ∧ (∀ w2 e',
       page_screenshot shot (world s1) = (w2, inl e') →
       ∃ s',
         run_guarded run_try s = (Raise e', s')
         ∧ trace s' = (trace s1 ++ [EvScreenshot shot; EvClose])%list).
Proof.
  intros E shot.
  assert (try_finally (run_except e) (call_total EvClose browser_close) s1
          = match page_screenshot shot (world s1) with
            | (w, inl e') =>
                (Raise e',
                 mkSt (browser_close w)
                   (with_count
                      (with_logs (self s1)
                         (logs (self s1)
                          ++ [icon ERROR +:+ " " +:+ "异常: " +:+ e]))
                      (screenshot_count (self s1) + 1))
                   (trace s1 ++ [EvScreenshot shot; EvClose])
                   (stdout s1 ++ [icon ERROR +:+ " " +:+ "异常: " +:+ e]))
            | (w, inr _) =>
                try_finally (send_notification false e;; sys_exit 1)
                  (call_total EvClose browser_close)
                  (snd (screenshot "异常"
                          (snd (log ("异常: " +:+ e) ERROR s1))))
            end) as Hhandler.
  { unfold try_finally, run_except.
    rewrite bind_ok with (1 := log_eq _ _ _).
    unfold bind at 1. rewrite log_eq. cbn [snd]. rewrite screenshot_eq.
    cbn [self world trace stdout].
    change (screenshot_count (with_logs (self s1) _))
      with (screenshot_count (self s1)).
    match goal with
    | |- context [page_screenshot ?f (world s1)] =>
        change (page_screenshot f (world s1))
          with (page_screenshot shot (world s1))
    end.
    destruct (page_screenshot shot (world s1)) as [w [e'|[]]];
      [| reflexivity].
    unfold call_total. cbn [trace world self stdout].
    by rewrite <- app_assoc. }
  assert (run_guarded run_try s
          = try_finally (run_except e) (call_total EvClose browser_close) s1)
    as Hguarded.
  { unfold run_guarded, try_finally, try_except. by rewrite E. }
  rewrite Hguarded, Hhandler. clear Hguarded Hhandler. split.
  - intros w2 Hshot. rewrite Hshot.
    rewrite log_eq. cbn [snd]. rewrite screenshot_eq.
    cbn [self world trace stdout].
    change (screenshot_count (with_logs (self s1) _))
      with (screenshot_count (self s1)).
    match goal with
    | |- context [page_screenshot ?f (world s1)] =>
        change (page_screenshot f (world s1))
          with (page_screenshot shot (world s1))
    end.
    rewrite Hshot. cbn [snd]. unfold try_finally. unfold bind at 1.
    match goal with
    | |- context [send_notification false e ?st] =>
        destruct (send_notification_calls false e st)
          as (s2 & evs & Hnotify & T & F)
    end.
    rewrite Hnotify. unfold sys_exit, call_total.
    eexists _, evs. split; [reflexivity |].
    cbn [trace] in *. split; [| exact F].
    rewrite T. list_assoc.
  - intros w2 e' Hshot. rewrite Hshot. by eexists.
Qed.

(** ** Who ends the process *)

(** X25.  The methods that [run] calls for the steps of the login neither
    end the process nor notify anybody: whatever the browser does, they
    return or raise, and the events they cause are none of the notifier.
    Leaving by [sys.exit] and notifying are left to [run]. *)
Theorem methods_leave_the_exit_to_run :
  (∀ sels description, steps quiet (find_and_click sels description))
  ∧ steps quiet (@login_github W _)
  ∧ steps quiet (@handle_oauth W _)
  ∧ (∀ max_wait, steps quiet (wait_redirect max_wait))
  ∧ steps quiet (@verify_login W _)
  ∧ steps quiet (@keepalive W _).
Proof.
  split; [exact quiet_find_and_click |].
  split; [exact quiet_login_github |].
  split; [apply steps_handle_oauth; quiet_rules |].
  split; [exact quiet_wait_redirect |].
  split; [exact quiet_verify_login | exact quiet_keepalive].
Qed.
End Proofs.

(** The banner for wrong credentials on the simulated GitHub form. *)
Lemma github_error_banner_is_fatal_witness :
  ∃ s2 out s3 evs,
    (log "步骤3: GitHub 登录" STEP;; login_github) (sim_state sim_wrong_password)
    = (Ok false, s2)
    ∧ run_guarded run_from_step3 (sim_state sim_wrong_password) = (out, s3)
    ∧ exit_code out ≠ 0%Z
    ∧ trace s3 = (trace (sim_state sim_wrong_password) ++ evs)%list
    ∧ forallb not_wait_redirect evs = true.
Proof.
  eapply (github_error_banner_is_fatal (sim_state sim_wrong_password)
            "https://github.com/session" _ sim_wrong_password
            sim_wrong_password "Incorrect username or password.").
  - reflexivity.
  - vm_compute. reflexivity.
  - reflexivity.
  - reflexivity.
  - discriminate.
Defined.



(** Keepalive on a session that did not stick, at step 6. *)
Lemma keepalive_result_is_ignored_witness :
  (log "步骤6: 保活" STEP;; keepalive) (sim_state sim_session_lost)
  = (Ok false,
     snd ((log "步骤6: 保活" STEP;; keepalive) (sim_state sim_session_lost)))
  ∧ ∃ out s2 evs,
      run_guarded run_step6 (sim_state sim_session_lost) = (out, s2)
      ∧ exit_code out = 0%Z
      ∧ trace s2
        = (trace (snd ((log "步骤6: 保活" STEP;; keepalive)
                         (sim_state sim_session_lost)))
           ++ EvNotify true EmptyString :: evs)%list.
Proof.
  assert ((log "步骤6: 保活" STEP;; keepalive) (sim_state sim_session_lost)
          = (Ok false,
             snd ((log "步骤6: 保活" STEP;; keepalive)
                    (sim_state sim_session_lost)))) as Hkeep
    by (vm_compute; reflexivity).
  split; [exact Hkeep |].
  exact (proj1 keepalive_result_is_ignored _ _ Hkeep).
Defined.

(** A run without [GH_USERNAME]. *)
Lemma missing_credentials_is_fatal_witness :
  ∃ s0 s' evs,
    @validate_credentials Sim (init_state sim_env_no_username (sim_page SIGNIN_URL))
    = (Ok false, s0)
    ∧ main sim_env_no_username (sim_page SIGNIN_URL) = (SysExit 1, s')
    ∧ exit_code (fst (main sim_env_no_username (sim_page SIGNIN_URL))) = 1%Z
    ∧ trace s' = EvNotify false "凭据未配置" :: evs
    ∧ forallb is_notification evs = true
    ∧ forallb not_launch (trace s') = true.
Proof.
  apply (missing_credentials_is_fatal sim_env_no_username (sim_page SIGNIN_URL)).
  left. reflexivity.
Defined.

(** Ten log lines and three screenshots, after a failure: the message ends
    with the lines 3 to 10 and all three screenshots follow; after a
    success only the last screenshot does. *)
Example notification_after_failure :
  let s' := snd (send_notification false "重定向失败" sim_long_run) in
  messages_sent (trace s')
  = [notification_head (self sim_long_run) "2025-01-01 00:00:00" false
       "重定向失败"
     +:+ nl +:+ nl +:+ "<b>日志:</b>" +:+ nl
     +:+ String.concat nl ["l3"; "l4"; "l5"; "l6"; "l7"; "l8"; "l9"; "l10"]]
  ∧ photos_sent (trace s')
    = [("01_a.png", "01_a.png"); ("02_b.png", "02_b.png");
       ("03_c.png", "03_c.png")].
Proof. vm_compute. split; reflexivity. Qed.

Example notification_after_success :
  photos_sent (trace (snd (send_notification true EmptyString sim_long_run)))
  = [("03_c.png", "最终截图")].
Proof. vm_compute. reflexivity. Qed.

(** C8 as stated fails: a candidate that is visible but does not take the
    click is not the end of the search.  Alone, it makes the helper return
    [False] although it resolved to a visible element; followed by a second
    visible candidate, the helper clicks the second one. *)
Lemma find_and_click_visible_but_not_clicked :
  locator_is_visible (mkLocator "#first" true) 3000 sim_covered_button
  = (sim_covered_button, inr true)
  ∧ fst (find_and_click ["#first"] "GitHub" (sim_state sim_covered_button))
    = Ok false
  ∧ fst (find_and_click ["#first"; "#second"] "GitHub"
           (sim_state sim_covered_button))
    = Ok true
  ∧ trace (snd (find_and_click ["#first"; "#second"] "GitHub"
                  (sim_state sim_covered_button)))
    = [EvIsVisible (mkLocator "#first" true);
       EvClick (mkLocator "#first" true);
       EvIsVisible (mkLocator "#second" true);
       EvClick (mkLocator "#second" true)].
Proof. vm_compute. repeat split; reflexivity. Qed.

(** The cookie of GitHub is dropped and the cookie of the console is
    written. *)
Lemma verify_login_keeps_claw_cookies_witness :
  ∃ s',
    verify_login (sim_state sim_logged_in) = (Ok true, s')
    ∧ trace s' = [EvTitle; EvCookies; EvDump "cookies.json" [cookie_claw]].
Proof.
  destruct (verify_login_keeps_claw_cookies (sim_state sim_logged_in)
              sim_logged_in "ClawCloud Run" sim_logged_in
              [cookie_github; cookie_claw] sim_logged_in (inr tt))
    as (s' & evs & T & Hkept).
  - vm_compute. reflexivity.
  - reflexivity.
  - reflexivity.
  - repeat constructor; intros v Hv; vm_compute in Hv;
      injection Hv as <-; eexists; reflexivity.
  - reflexivity.
  - change (List.filter has_claw [cookie_github; cookie_claw])
      with [cookie_claw] in Hkept.
    destruct Hkept as [E ->]. exists s'. split; [exact E | exact T].
Defined.

(** C1 as stated fails: a cookie of another site whose domain contains
    [claw] is written to the file, although it is not scoped to the
    target domain. *)
Lemma verify_login_writes_foreign_cookie :
  fst (verify_login (sim_state sim_foreign_cookie)) = Ok true
  ∧ trace (snd (verify_login (sim_state sim_foreign_cookie)))
    = [EvTitle; EvCookies; EvDump "cookies.json" [cookie_claw; cookie_foreign]]
  ∧ spec_scoped_to_target cookie_foreign = false
  ∧ List.filter spec_scoped_to_target (sim_cookies sim_foreign_cookie)
    = [cookie_claw].
Proof. repeat split; vm_compute; reflexivity. Qed.

(** A login form that never moves on. *)
Lemma wait_redirect_stuck_on_github_witness :
  ∃ s' evs,
    wait_redirect 45 (sim_state sim_stuck) = (Ok false, s')
    ∧ trace s' = (trace (sim_state sim_stuck) ++ evs)%list
    ∧ polls evs = 16
    ∧ (polls evs < 45)%nat
    ∧ last (logs (self s')) = Some "❌ 卡在 GitHub 页面".
Proof.
  apply (wait_redirect_stuck_on_github (sim_state sim_stuck)).
  intros i Hi. exists "https://github.com/login".
  do 17 (destruct i as [|i]; [repeat split; vm_compute; reflexivity |]).
  exfalso. lia.
Defined.

(** C2 as stated fails: the page stays on the login path of GitHub, and the
    first iteration reports success, because its address names the
    console to return to.  The grace period is also one iteration longer
    than stated: a page still on the login form at the 16th iteration
    (index 15) is not found stuck, and success at the 17th is reported. *)
Lemma wait_redirect_success_on_github_login :
  on_github_login (sim_url sim_login_with_return) = true
  ∧ url_seen 45 0 (sim_state sim_login_with_return)
    = Some (sim_url sim_login_with_return)
  ∧ url_seen 45 16 (sim_state sim_login_with_return)
    = Some (sim_url sim_login_with_return)
  ∧ url_seen 45 44 (sim_state sim_login_with_return)
    = Some (sim_url sim_login_with_return)
  ∧ fst (wait_redirect 45 (sim_state sim_login_with_return)) = Ok true
  ∧ url_seen 45 15 (sim_state sim_redirect_at_17th)
    = Some "https://github.com/login"
  ∧ fst (wait_redirect 45 (sim_state sim_redirect_at_17th)) = Ok true.
Proof. repeat split; vm_compute; reflexivity. Qed.

(** The console is reached by the third reading of the URL. *)
Lemma wait_redirect_bounded_witness :
  ∃ s' evs,
    wait_redirect 45 (sim_state sim_redirect) = (Ok true, s')
    ∧ trace s' = (trace (sim_state sim_redirect) ++ evs)%list
    ∧ polls evs = 2.
Proof.
  apply (proj1 (proj2 (wait_redirect_bounded (sim_state sim_redirect))) 2).
  - lia.
  - intros j Hj. destruct j as [|[|j]]; [| | exfalso; lia].
    + exists SIGNIN_URL. split; vm_compute; reflexivity.
    + exists "https://github.com/session". split; vm_compute; reflexivity.
  - exists (CLAW_CLOUD_URL +:+ "/"). split; vm_compute; reflexivity.
Defined.

(** C4 as stated fails: the eighteenth reading of the URL is on the target
    domain, well within the 45 iterations, but the loop has given up at the
    seventeenth, where it found the login stuck. *)
Lemma wait_redirect_gives_up_before_redirect :
  url_seen 45 17 (sim_state sim_late_redirect) = Some (CLAW_CLOUD_URL +:+ "/")
  ∧ on_claw_cloud (CLAW_CLOUD_URL +:+ "/") = true
  ∧ fst (wait_redirect 45 (sim_state sim_late_redirect)) = Ok false.
Proof. repeat split; vm_compute; reflexivity. Qed.

(** ** Whole runs on the simulated browser *)

(** A wrong password, from [main] on: status 1, the banner in the log, and
    the redirect-wait loop is never entered. *)
Example run_wrong_password :
  fst (main sim_env sim_run_wrong_password) = SysExit 1
  ∧ forallb not_wait_redirect
      (trace (snd (main sim_env sim_run_wrong_password))) = true
  ∧ mentions "❌ GitHub 错误: Incorrect username or password."
      (logs (self (snd (main sim_env sim_run_wrong_password)))) = true.
Proof. repeat split; vm_compute; reflexivity. Qed.

(** A session that does not stick, from [main] on: keepalive logs its
    failure, and the run still notifies a success and ends with status 0. *)
Example run_session_lost :
  exit_code (fst (main sim_env sim_run_session_lost)) = 0%Z
  ∧ mentions "❌ 访问 控制台 被重定向到登录页！"
      (logs (self (snd (main sim_env sim_run_session_lost)))) = true
  ∧ existsb (λ e, match e with EvNotify true _ => true | _ => false end)
      (trace (snd (main sim_env sim_run_session_lost))) = true
  ∧ existsb (λ e, match e with EvNotify false _ => true | _ => false end)
      (trace (snd (main sim_env sim_run_session_lost))) = false.
Proof. repeat split; vm_compute; reflexivity. Qed.

(** A notification service that answers 500. *)
Lemma send_message_result_witness :
  ∃ s', send_message "hello" (flaky_state (sim_page SIGNIN_URL) ["status"])
        = (Ok false, s').
Proof.
  destruct (send_message_result "hello"
              (flaky_state (sim_page SIGNIN_URL) ["status"]))
    as (b & s' & E & _ & Hb); [reflexivity |].
  destruct b; [| by exists s'].
  exfalso. destruct (proj1 Hb eq_refl) as (w' & Hpost). discriminate Hpost.
Defined.

(** A screenshot that is gone from the disk. *)
Lemma send_photo_result_witness :
  ∃ s', send_photo "01_a.png" "01_a.png"
          (flaky_state (sim_page SIGNIN_URL) ["exists"])
        = (Ok false, s')
        ∧ trace s' = [EvSendPhoto "01_a.png" "01_a.png"].
Proof.
  destruct (send_photo_result "01_a.png" "01_a.png"
              (flaky_state (sim_page SIGNIN_URL) ["exists"]))
    as (b & s' & E & _ & Hb & Hmissing); [reflexivity |].
  destruct (Hmissing eq_refl) as [T _].
  destruct b; [| by exists s'].
  exfalso. destruct (proj1 Hb eq_refl) as [Hexists _]. discriminate Hexists.
Defined.

(** The field for the user name cannot be filled. *)
Lemma login_github_stops_at_failed_action_witness :
  ∃ s' shot,
    login_github
      (flaky_state sim_stuck ["fill " +:+ loc_selector login_input])
    = (Ok false, s')
    ∧ trace s' = [EvScreenshot shot; EvFill login_input (Some "octocat")].
Proof.
  pose (s := flaky_state sim_stuck ["fill " +:+ loc_selector login_input]).
  assert (page_screenshot
            (fmt_02d (screenshot_count (self s) + 1) +:+ "_" +:+ "github_登录页"
             +:+ ".png") (world s) = (world s, inr tt)) as Hshot
    by (vm_compute; reflexivity).
  destruct (proj1 (login_github_stops_at_failed_action s (world s) Hshot)
              (world s) ("fill " +:+ loc_selector login_input +:+ " failed"))
    as (s' & shot & E & T & _); [vm_compute; reflexivity |].
  exists s', shot. split; [exact E | exact T].
Defined.


(** A budget of three iterations on a login form that never moves on. *)
Lemma wait_redirect_budget_witness :
  ∃ evs,
    trace (snd (wait_redirect 3 (sim_state sim_stuck)))
    = (trace (sim_state sim_stuck) ++ evs)%list
    ∧ (polls evs ≤ 3)%nat.
Proof.
  exact (proj1 (wait_redirect_budget 3 (sim_state sim_stuck) _ _
                  (surjective_pairing _))).
Defined.

(** The sign-in page is not a page of the console. *)
Lemma verify_login_refuses_other_pages_witness :
  ∃ s', verify_login (sim_state (sim_page SIGNIN_URL)) = (Ok false, s')
        ∧ trace s' = [EvTitle].
Proof.
  apply (verify_login_refuses_other_pages (sim_state (sim_page SIGNIN_URL))
           (sim_page SIGNIN_URL) "ClawCloud Run").
  - vm_compute. reflexivity.
  - reflexivity.
Defined.

(** The cookie of the console among those of GitHub. *)
Lemma claw_cloud_cookies_are_kept_witness :
  In cookie_claw (List.filter has_claw [cookie_github; cookie_claw]).
Proof.
  apply claw_cloud_cookies_are_kept.
  - right. left. reflexivity.
  - vm_compute. reflexivity.
Defined.

(** A console that cannot be reached at all. *)
Lemma keepalive_survives_navigation_errors_witness :
  ∃ s', keepalive (flaky_state sim_logged_in ["goto"]) = (Ok true, s').
Proof.
  pose (s := flaky_state sim_logged_in ["goto"]).
  destruct (keepalive_survives_navigation_errors s (world s) "goto failed"
              (world s) "goto failed" (world s))
    as (s' & shot & E & _).
  - reflexivity.
  - reflexivity.
  - reflexivity.
  - exists s'. exact E.
Defined.

(** A session that did not stick. *)
Lemma keepalive_stops_at_signin_witness :
  ∃ s',
    keepalive (sim_state sim_session_lost) = (Ok false, s')
    ∧ trace s' = [EvGoto (CLAW_CLOUD_URL +:+ "/"); EvWaitLoad].
Proof.
  destruct (keepalive_stops_at_signin (sim_state sim_session_lost)
              (sim_move SIGNIN_URL [] sim_session_lost)
              (sim_move SIGNIN_URL [] sim_session_lost))
    as (s' & E & T & _).
  - reflexivity.
  - reflexivity.
  - vm_compute. reflexivity.
  - exists s'. split; [exact E | exact T].
Defined.

(** A run without the token of the bot. *)
Lemma disabled_notifier_is_silent_witness :
  forallb not_telegram_call
    (trace (snd (main sim_env_no_token sim_run_wrong_password))) = true.
Proof.
  apply (disabled_notifier_is_silent sim_env_no_token sim_run_wrong_password).
  left. reflexivity.
Defined.

(** The run that logs in and then loses the session returns normally. *)
Lemma normal_return_means_verified_witness :
  ∃ before cookies between after,
    trace (snd (main sim_env sim_run_session_lost))
    = (trace (init_state sim_env sim_run_session_lost) ++ before
       ++ EvDump "cookies.json" cookies
       :: between ++ EvNotify true EmptyString :: after)%list
    ∧ cookies ≠ [].
Proof.
  apply (normal_return_means_verified
           (init_state sim_env sim_run_session_lost)
           (snd (main sim_env sim_run_session_lost))).
  vm_compute. reflexivity.
Defined.

(** The run with the wrong password closes the browser last. *)
Lemma browser_is_closed_at_the_end_witness :
  ∃ r s' evs,
    run (init_state sim_env sim_run_wrong_password) = (r, s')
    ∧ trace s'
      = (trace (snd (run_setup (init_state sim_env sim_run_wrong_password)))
         ++ evs ++ [EvClose])%list
    ∧ forallb not_close evs = true.
Proof.
  apply (browser_is_closed_at_the_end
           (init_state sim_env sim_run_wrong_password)
           (snd (run_setup (init_state sim_env sim_run_wrong_password)))).
  vm_compute. reflexivity.
Defined.

(** The browser starts, but no context can be made. *)
Lemma setup_errors_are_not_handled_witness :
  ∃ s',
    run (flaky_state (sim_page SIGNIN_URL) ["new_context"])
    = (Raise "new_context failed", s')
    ∧ trace s' = [EvLaunch; EvNewContext].
Proof.
  pose (s := flaky_state (sim_page SIGNIN_URL) ["new_context"]).
  destruct (setup_errors_are_not_handled s) as (_ & Hcontext & _).
  - reflexivity.
  - reflexivity.
  - exact (Hcontext (world s) (world s) "new_context failed"
             eq_refl eq_refl).
Defined.

(** A sign-in page without any button for GitHub. *)
Lemma missing_github_button_is_fatal_witness :
  ∃ out s' evs,
    run_guarded (run_step2;; run_from_step3)
      (sim_state (sim_page SIGNIN_URL)) = (out, s')
    ∧ exit_code out ≠ 0%Z
    ∧ trace s'
      = (trace (snd ((log "步骤2: 点击 GitHub 登录" STEP;;
                      find_and_click github_selectors "GitHub 按钮")
                       (sim_state (sim_page SIGNIN_URL)))) ++ evs)%list
    ∧ forallb is_passive evs = true.
Proof.
  apply (missing_github_button_is_fatal (sim_state (sim_page SIGNIN_URL))
           (snd ((log "步骤2: 点击 GitHub 登录" STEP;;
                  find_and_click github_selectors "GitHub 按钮")
                   (sim_state (sim_page SIGNIN_URL))))).
  vm_compute. reflexivity.
Defined.

(** The console cannot be reached: [page.goto] of step 1 raises. *)
Lemma exception_handler_outcome_witness :
  ∃ s' evs,
    run_guarded run_try (flaky_state (sim_page SIGNIN_URL) ["goto"])
    = (SysExit 1, s')
    ∧ trace s'
      = ([EvGoto SIGNIN_URL; EvScreenshot "01_异常.png";
          EvNotify false "goto failed"] ++ evs ++ [EvClose])%list
    ∧ forallb is_telegram_call evs = true.
Proof.
  pose (s := flaky_state (sim_page SIGNIN_URL) ["goto"]).
  assert (run_try s = (Raise "goto failed", snd (run_try s))) as Hraise
    by (vm_compute; reflexivity).
  assert (page_screenshot
            (fmt_02d (screenshot_count (self (snd (run_try s))) + 1)
             +:+ "_异常.png") (world (snd (run_try s)))
          = (world s, inr tt)) as Hshot
    by (vm_compute; reflexivity).
  destruct (proj1 (exception_handler_outcome s "goto failed"
                     (snd (run_try s)) Hraise) (world s) Hshot)
    as (s' & evs & E & T & F).
  exists s', evs. split; [exact E |]. split; [exact T | exact F].
Defined.
